(** * Cheapopus: batch dispatcher, usage ledger, cost estimator and quota gate

    Shallow embedding of the MCP server sources
    ([minimax-client.ts], [batch-processor.ts], [usage-tracker.ts],
    [index.ts]) together with the properties established about them. *)

From Stdlib Require Import ZArith QArith Qround Qabs Qpower Lia Lqa.
From Stdlib Require Import DecimalString.
From stdpp Require Import base list strings.

#[local] Open Scope Z_scope.

(** ** JavaScript numbers

    A JavaScript number is an IEEE-754 binary64 value.  Every finite
    binary64 value is a rational, and every arithmetic operation returns
    the exact rational result rounded to the nearest representable value,
    ties to the even significand.  The module models exactly that on [Q]:
    53 bits of significand, gradual underflow at exponent -1074.  The
    exponent is left unbounded above: overflow to [Infinity] needs
    magnitudes of 2^1024 and more. *)
Module Float64.

#[local] Open Scope Q_scope.

(** [ilog2 x] is the integer [l] with [2^l <= x < 2^(l+1)], for [0 < x]. *)
Definition ilog2 (x : Q) : Z :=
  let d := (Z.log2 (Qnum x) - Z.log2 (Zpos (Qden x)))%Z in
  if Qle_bool (2 ^ d) x then d else (d - 1)%Z.

(** Exponent of the unit in the last place of the binade of [x]. *)
Definition ulp_exp (x : Q) : Z := Z.max (ilog2 x - 52) (-1074).

(** Nearest integer, ties to even. *)
Definition rne (m : Q) : Z :=
  let f := Qfloor m in
  match Qcompare (m - inject_Z f) (1 # 2) with
  | Lt => f
  | Gt => (f + 1)%Z
  | Eq => if Z.even f then f else (f + 1)%Z
  end.

Definition round_pos (x : Q) : Q :=
  let e := ulp_exp x in inject_Z (rne (x / 2 ^ e)) * 2 ^ e.

(** Rounding of an exact result to binary64 (round to nearest, ties to
    even, symmetric in the sign). *)
Definition rnd64 (x : Q) : Q :=
  match Qcompare x 0 with
  | Eq => 0
  | Gt => Qred (round_pos x)
  | Lt => Qred (- round_pos (- x))
  end.

Definition fadd (x y : Q) : Q := rnd64 (x + y).
Definition fmul (x y : Q) : Q := rnd64 (x * y).
Definition fdiv (x y : Q) : Q := rnd64 (x / y).

(** The number denoted by a decimal literal of the source. *)
Definition literal (x : Q) : Q := rnd64 x.

(** The number holding an integer quantity (exact below 2^53). *)
Definition of_int (n : Z) : Q := rnd64 (inject_Z n).

(** [Math.round]: nearest integer, ties towards [+Infinity]. *)
Definition Math_round (x : Q) : Q := inject_Z (Qfloor (x + (1 # 2))).

(** Powers of two; the relative error of a rounding in the normal range
    and the absolute error of a rounding in the subnormal range. *)
Definition P2 (e : Z) : Q := 2 ^ e.
Definition unit_roundoff : Q := P2 (-53).
Definition tiny : Q := P2 (-1075).

End Float64.

(** ** JavaScript library functions used by the sources *)
Module JS.

(** Relative indices of [Array.prototype.slice]: a negative index counts
    from the end, and everything is clamped to the array. *)
Definition clamp_index (len k : Z) : Z :=
  if k <? 0 then Z.max (len + k) 0 else Z.min k len.

(** [l.slice(start, stop)]. *)
Definition slice {A} (l : list A) (start stop : Z) : list A :=
  let len := Z.of_nat (length l) in
  let from := clamp_index len start in
  let to := clamp_index len stop in
  take (Z.to_nat (to - from)) (drop (Z.to_nat from) l).

(** [l.slice(start)]. *)
Definition slice_from {A} (l : list A) (start : Z) : list A :=
  slice l start (Z.of_nat (length l)).

(** Rendering of an integer number in a template literal. *)
Definition string_of_Z (n : Z) : string := NilZero.string_of_int (Z.to_int n).

(** Truthiness of a string: every string but the empty one. *)
Definition truthy (s : string) : bool := negb (String.eqb s "").

(** Truthiness of an optional string ([undefined] is falsy). *)
Definition truthy_opt (s : option string) : bool :=
  match s with Some s => truthy s | None => false end.

(** [s.slice(0, n)] for [0 <= n]. *)
Definition string_prefix (n : nat) (s : string) : string := String.substring 0 n s.

(** [parts.join(sep)]. *)
Fixpoint join (sep : string) (parts : list string) : string :=
  match parts with
  | [] => ""
  | [p] => p
  | p :: rest => p +:+ sep +:+ join sep rest
  end.

(** [haystack.includes(needle)]. *)
Fixpoint includes (haystack needle : string) : bool :=
  String.prefix needle haystack ||
  match haystack with
  | EmptyString => false
  | String _ rest => includes rest needle
  end.

(** A thrown value: an [Error] object with its message, or anything
    else, kept as the text [String(value)] gives for it. *)
Inductive Thrown :=
  | ErrorObject (message : string)
  | OtherValue (text : string).

(** [e instanceof Error ? e.message : String(e)]. *)
Definition error_message (e : Thrown) : string :=
  match e with
  | ErrorObject message => message
  | OtherValue text => text
  end.

End JS.

(** ** minimax-client.ts: data *)

Module MinimaxUsage.
Record t := mk { input_tokens : Z; output_tokens : Z }.
End MinimaxUsage.

Module PRICING.
Definition input_per_million : Q := Float64.literal (15 # 100).
Definition output_per_million : Q := Float64.literal (120 # 100).
End PRICING.

Definition estimateCost (usage : MinimaxUsage.t) : Q :=
  let inputCost :=
    Float64.fmul
      (Float64.fdiv (Float64.of_int (MinimaxUsage.input_tokens usage))
                    (Float64.literal 1000000))
      PRICING.input_per_million in
  let outputCost :=
    Float64.fmul
      (Float64.fdiv (Float64.of_int (MinimaxUsage.output_tokens usage))
                    (Float64.literal 1000000))
      PRICING.output_per_million in
  Float64.fdiv
    (Float64.Math_round
       (Float64.fmul (Float64.fadd inputCost outputCost) (Float64.literal 1000000)))
    (Float64.literal 1000000).

(** The body of a request to the remote model. *)
Module MinimaxRequest.
Record t := mk {
  model : string;
  max_tokens : Z;
  temperature : Q;
  system : option string;
  prompt : string;          (* messages: [{ role: "user", content: prompt }] *)
}.
End MinimaxRequest.

Module ContentBlock.
Record t := mk { type : string; text : string }.
End ContentBlock.

Module MinimaxResponse.
Record t := mk {
  content : list ContentBlock.t;
  model : string;
  usage : option MinimaxUsage.t;
}.
End MinimaxResponse.

(** What one HTTP exchange with the remote model comes to. *)
Inductive FetchOutcome :=
  | FetchThrows (e : JS.Thrown)                 (* network failure, malformed payload *)
  | FetchNotOk (status : Z) (errorText : string) (* [!res.ok] *)
  | FetchOk (data : MinimaxResponse.t).

Module QueryResult.
Record t := mk {
  response : string;
  model : string;
  usage : MinimaxUsage.t;
  cost_estimate_usd : Q;
}.
End QueryResult.

Module QueryOptions.
Record t := mk {
  system : option string;
  max_tokens : option Z;
  temperature : option Q;
}.
End QueryOptions.

Module MinimaxClient.
Record t := mk { model : string; defaultMaxTokens : Z }.
End MinimaxClient.

(** ** batch-processor.ts: data *)

Module BatchTask.
Record t := mk {
  id : string;
  prompt : string;
  system : option string;
  max_tokens : option Z;
}.
End BatchTask.

Module BatchResult.
Record t := mk {
  id : string;
  response : string;
  usage : MinimaxUsage.t;
  success : bool;
  error : option string;
}.
End BatchResult.

Module BatchSummary.
Record t := mk {
  total_tasks : Z;
  succeeded : Z;
  failed : Z;
  total_input_tokens : Z;
  total_output_tokens : Z;
  total_cost_usd : Q;
  duration_ms : Z;
}.
End BatchSummary.

Module BatchProcessor.
Record t := mk { client : MinimaxClient.t; defaultConcurrency : Z }.
End BatchProcessor.

(** ** usage-tracker.ts: data

    Instants are milliseconds since the epoch (an ISO timestamp and the
    [Date] it is read back into denote the same instant); a calendar date
    [YYYY-MM-DD] is the number of its UTC day. *)

Module UsageWindow.
Record t := mk {
  window_start : Z;
  window_end : Z;
  prompt_count : Z;
  total_input_tokens : Z;
  total_output_tokens : Z;
  estimated_cost_usd : Q;
}.
End UsageWindow.

Module DailyTotal.
Record t := mk {
  date : Z;
  prompt_count : Z;
  total_input_tokens : Z;
  total_output_tokens : Z;
  estimated_cost_usd : Q;
}.
End DailyTotal.

Inductive RequestType := type_query | type_batch.

Module RequestLog.
Record t := mk {
  timestamp : Z;
  type : RequestType;
  task_count : Z;
  input_tokens : Z;
  output_tokens : Z;
  cost_usd : Q;
  response_time_ms : Z;
  caller : option string;
  error : option string;
  failed_count : option Z;
}.
End RequestLog.

Inductive RunStatus := status_running | status_completed | status_failed.

Module PipelineRun.
Record t := mk {
  id : string;
  started : Z;
  completed : option Z;
  skill_chain : list string;
  findings_total : Z;
  findings_by_difficulty : list (string * Z);
  minimax_tasks : Z;
  opus_tasks : Z;
  minimax_cost_usd : Q;
  status : RunStatus;
}.
End PipelineRun.

Module Provider.
Record t := mk {
  name : string;
  input_per_million : Q;
  output_per_million : Q;
}.
End Provider.

Module UsageData.
Record t := mk {
  current_window : UsageWindow.t;
  daily_totals : list DailyTotal.t;
  recent_requests : option (list RequestLog.t);
  pipeline_runs : option (list PipelineRun.t);
  provider : option Provider.t;
}.
End UsageData.

(** The object the tracker holds and the usage file stores.  Its declared
    type is [UsageData], but [loadUsageData] casts what [JSON.parse] gives
    without a check: an object, or an array, may lack [current_window] or
    [daily_totals], as [{}] and [[]] do.  The fields an object has are
    taken to be of their declared types. *)
Inductive UsageObject :=
  | Whole (data : UsageData.t)
  | NoTotals (current_window : UsageWindow.t)
             (recent_requests : option (list RequestLog.t))
             (pipeline_runs : option (list PipelineRun.t))
             (provider : option Provider.t)
  | NoWindow (daily_totals : option (list DailyTotal.t))
             (recent_requests : option (list RequestLog.t))
             (pipeline_runs : option (list PipelineRun.t))
             (provider : option Provider.t).

Module Pipeline.
Record t := mk {
  skill_chain : list string;
  findings_total : option Z;
  minimax_eligible : option Z;
  opus_required : option Z;
}.
End Pipeline.

Module RecordParams.
Record t := mk {
  type : RequestType;
  taskCount : Z;
  inputTokens : Z;
  outputTokens : Z;
  costUsd : Q;
  responseTimeMs : Z;
  caller : option string;
  error : option string;
  failedCount : option Z;
  pipeline : option Pipeline.t;
}.
End RecordParams.

Definition WINDOW_DURATION_MS : Z := 5 * 60 * 60 * 1000.
Definition MAX_PROMPTS_PER_WINDOW : Z := 1000.

(** ** The machine the server runs on *)

(** The usage file as [JSON.parse] sees it. *)
Inductive FileContent :=
  | Unreadable (e : JS.Thrown)    (* [readFile] rejects: no file, no access *)
  | Unparseable (e : JS.Thrown)   (* [JSON.parse] throws *)
  | NonObject (e : JS.Thrown)     (* [null] or a primitive: its property cannot be read or set *)
  | Document (data : UsageObject). (* an object or an array *)

Inductive Event :=
  | CallIssued (n : nat)
  | CallSettled (n : nat).

(** The environment is part of the machine: what the clock shows at its
    n-th reading, what the n-th exchange with the remote model comes to,
    in which order the calls of a group settle, and whether the usage
    file can be written. *)
Record Machine := mkMachine {
  clock : nat -> Z;
  clock_reads : nat;
  fetch : nat -> MinimaxRequest.t -> FetchOutcome;
  calls_issued : nat;
  completion : list nat -> list nat;
  events : list Event;
  disk : FileContent;
  disk_fault : option JS.Thrown;
  tracker_data : option UsageObject;      (* [usageTracker.data] *)
}.

Definition tick (m : Machine) : Machine :=
  mkMachine (clock m) (S (clock_reads m)) (fetch m) (calls_issued m)
            (completion m) (events m) (disk m) (disk_fault m) (tracker_data m).

Definition with_calls (n : nat) (evs : list Event) (m : Machine) : Machine :=
  mkMachine (clock m) (clock_reads m) (fetch m) n
            (completion m) evs (disk m) (disk_fault m) (tracker_data m).

Definition with_disk (f : FileContent) (m : Machine) : Machine :=
  mkMachine (clock m) (clock_reads m) (fetch m) (calls_issued m)
            (completion m) (events m) f (disk_fault m) (tracker_data m).

Definition with_tracker (d : option UsageObject) (m : Machine) : Machine :=
  mkMachine (clock m) (clock_reads m) (fetch m) (calls_issued m)
            (completion m) (events m) (disk m) (disk_fault m) d.

(** A computation returns, throws, or is cut off by the bound on the
    number of loop iterations it was given. *)
Inductive Outcome (A : Type) :=
  | Returns (a : A)
  | Throws (e : JS.Thrown)
  | OutOfFuel.
Arguments Returns {A} a.
Arguments Throws {A} e.
Arguments OutOfFuel {A}.

Definition M (A : Type) : Type := Machine -> Outcome A * Machine.

Definition ret {A} (a : A) : M A := fun m => (Returns a, m).

Definition bind {A B} (c : M A) (k : A -> M B) : M B :=
  fun m =>
    match c m with
    | (Returns a, m') => k a m'
    | (Throws e, m') => (Throws e, m')
    | (OutOfFuel, m') => (OutOfFuel, m')
    end.

Definition throw {A} (e : JS.Thrown) : M A := fun m => (Throws e, m).

(** The [TypeError] of reading property [name] of [undefined], as Node
    words it. *)
Definition type_error (name : string) : JS.Thrown :=
  JS.ErrorObject ("Cannot read properties of undefined (reading '" +:+ name +:+ "')").

(** [o.name], where [o] may be [undefined]. *)
Definition property {A} (name : string) (o : option A) : M A :=
  match o with
  | Some a => ret a
  | None => throw (type_error name)
  end.

(** [try { c } catch (err) { handler err }] *)
Definition try_catch {A} (c : M A) (handler : JS.Thrown -> M A) : M A :=
  fun m =>
    match c m with
    | (Throws e, m') => handler e m'
    | r => r
    end.

Definition get_machine : M Machine := fun m => (Returns m, m).
Definition modify (f : Machine -> Machine) : M unit := fun m => (Returns tt, f m).

Declare Scope js_scope.
Delimit Scope js_scope with js.
Notation "x <- c ;; k" := (bind c (fun x => k))
  (at level 100, c at next level, right associativity) : js_scope.
Notation "c ;;; k" := (bind c (fun _ => k))
  (at level 100, right associativity) : js_scope.
#[local] Open Scope js_scope.

(** [Date.now()], [new Date()]: one reading of the clock. *)
Definition Date_now : M Z :=
  fun m => (Returns (clock m (clock_reads m)), tick m).

(** ** minimax-client.ts: [MinimaxClient.query] *)

Definition newline : string := String (Ascii.ascii_of_nat 10) EmptyString.

Definition zero_usage : MinimaxUsage.t := MinimaxUsage.mk 0 0.

(** The request body [query] builds. *)
Definition query_request (self : MinimaxClient.t) (prompt : string)
    (options : option QueryOptions.t) : MinimaxRequest.t :=
  MinimaxRequest.mk
    (MinimaxClient.model self)
    (default (MinimaxClient.defaultMaxTokens self) (options ≫= QueryOptions.max_tokens))
    (default (Float64.literal (3 # 10)) (options ≫= QueryOptions.temperature))
    (match options ≫= QueryOptions.system with
     | Some s => if JS.truthy s then Some s else None
     | None => None
     end)
    prompt.

(** What [query] makes of the exchange: it throws, or returns its result. *)
Definition query_settle (self : MinimaxClient.t) (o : FetchOutcome)
    : JS.Thrown + QueryResult.t :=
  match o with
  | FetchThrows e => inl e
  | FetchNotOk status errorText =>
      inl (JS.ErrorObject
             ("MiniMax API error " +:+ JS.string_of_Z status +:+ ": " +:+ errorText))
  | FetchOk data =>
      let responseText :=
        JS.join newline
          (map ContentBlock.text
             (filter (fun c => ContentBlock.type c = "text") (MinimaxResponse.content data))) in
      let usage := default zero_usage (MinimaxResponse.usage data) in
      inr (QueryResult.mk
             responseText
             (if JS.truthy (MinimaxResponse.model data)
              then MinimaxResponse.model data else MinimaxClient.model self)
             usage
             (estimateCost usage))
  end.

(** One awaited call: issued, then settled. *)
Definition query (self : MinimaxClient.t) (prompt : string)
    (options : option QueryOptions.t) : M QueryResult.t :=
  fun m =>
    let n := calls_issued m in
    let m' := with_calls (S n) (events m ++ [CallIssued n; CallSettled n]) m in
    match query_settle self (fetch m n (query_request self prompt options)) with
    | inl e => (Throws e, m')
    | inr result => (Returns result, m')
    end.

(** ** batch-processor.ts *)

(** An entry of the array [Promise.allSettled] resolves to. *)
Inductive Settled (A : Type) :=
  | fulfilled (value : A)
  | rejected (reason : JS.Thrown).
Arguments fulfilled {A} value.
Arguments rejected {A} reason.

Definition task_options (task : BatchTask.t) : option QueryOptions.t :=
  Some (QueryOptions.mk (BatchTask.system task) (BatchTask.max_tokens task) None).

(** [processTask] on the exchange its call comes to. *)
Definition processTask (self : MinimaxClient.t) (task : BatchTask.t) (o : FetchOutcome)
    : Settled BatchResult.t :=
  match query_settle self o with
  | inl e => rejected e
  | inr result =>
      fulfilled (BatchResult.mk (BatchTask.id task) (QueryResult.response result)
                                (QueryResult.usage result) true None)
  end.

(** [await Promise.allSettled(chunk.map((task) => this.processTask(task)))]:
    the calls of the chunk are issued in the order of the chunk, they settle
    in the order the environment chooses, and the array that comes back is
    in the order of the chunk. *)
Definition allSettled_chunk (self : MinimaxClient.t) (chunk : list BatchTask.t)
    : M (list (Settled BatchResult.t)) :=
  fun m =>
    let n := calls_issued m in
    let calls := seq n (length chunk) in
    let chunkResults :=
      imap (fun j task =>
              processTask self task
                (fetch m (n + j)%nat
                   (query_request self (BatchTask.prompt task) (task_options task))))
           chunk in
    (Returns chunkResults,
     with_calls (n + length chunk)%nat
       (events m ++ map CallIssued calls ++ map CallSettled (completion m calls)) m).

(** The inner loop over [chunkResults]: entry [j] is pushed as it is when
    fulfilled, and replaced by a failure result for [chunk[j]] otherwise. *)
Definition push_settled (chunk : list BatchTask.t)
    (chunkResults : list (Settled BatchResult.t)) : list BatchResult.t :=
  zip_with
    (fun task result =>
       match result with
       | fulfilled value => value
       | rejected reason =>
           BatchResult.mk (BatchTask.id task) "" zero_usage false
                          (Some (JS.error_message reason))
       end)
    chunk chunkResults.

(** The loop [for (let i = 0; i < tasks.length; i += maxConcurrent)],
    entered at [i] with the results pushed so far. *)
Fixpoint processBatch_loop (fuel : nat) (self : MinimaxClient.t) (tasks : list BatchTask.t)
    (maxConcurrent : Z) (i : Z) (results : list BatchResult.t) : M (list BatchResult.t) :=
  if i <? Z.of_nat (length tasks) then
    match fuel with
    | O => fun m => (OutOfFuel, m)
    | S fuel' =>
        let chunk := JS.slice tasks i (i + maxConcurrent) in
        chunkResults <- allSettled_chunk self chunk ;;
        processBatch_loop fuel' self tasks maxConcurrent (i + maxConcurrent)
                          (results ++ push_settled chunk chunkResults)
    end
  else ret results.

Definition processBatch (fuel : nat) (self : BatchProcessor.t) (tasks : list BatchTask.t)
    (concurrency : option Z) : M (list BatchResult.t * BatchSummary.t) :=
  let maxConcurrent := default (BatchProcessor.defaultConcurrency self) concurrency in
  startTime <- Date_now ;;
  results <- processBatch_loop fuel (BatchProcessor.client self) tasks maxConcurrent 0 [] ;;
  let succeeded := Z.of_nat (length (filter (fun r => BatchResult.success r = true) results)) in
  let totalInputTokens :=
    foldl (fun sum r => sum + MinimaxUsage.input_tokens (BatchResult.usage r)) 0 results in
  let totalOutputTokens :=
    foldl (fun sum r => sum + MinimaxUsage.output_tokens (BatchResult.usage r)) 0 results in
  endTime <- Date_now ;;
  ret (results,
       BatchSummary.mk
         (Z.of_nat (length tasks))
         succeeded
         (Z.of_nat (length tasks) - succeeded)
         totalInputTokens
         totalOutputTokens
         (estimateCost (MinimaxUsage.mk totalInputTokens totalOutputTokens))
         (endTime - startTime)).

(** ** usage-tracker.ts *)

Definition default_provider : Provider.t :=
  Provider.mk "minimax-m2.5" PRICING.input_per_million PRICING.output_per_million.

Definition createNewWindow : M UsageWindow.t :=
  now <- Date_now ;;
  ret (UsageWindow.mk now (now + WINDOW_DURATION_MS) 0 0 0 0%Q).

Definition set_recent_requests (l : option (list RequestLog.t)) (data : UsageData.t)
    : UsageData.t :=
  UsageData.mk (UsageData.current_window data) (UsageData.daily_totals data) l
               (UsageData.pipeline_runs data) (UsageData.provider data).

Definition set_provider (p : option Provider.t) (data : UsageData.t) : UsageData.t :=
  UsageData.mk (UsageData.current_window data) (UsageData.daily_totals data)
               (UsageData.recent_requests data) (UsageData.pipeline_runs data) p.

Definition set_current_window (w : UsageWindow.t) (data : UsageData.t) : UsageData.t :=
  UsageData.mk w (UsageData.daily_totals data) (UsageData.recent_requests data)
               (UsageData.pipeline_runs data) (UsageData.provider data).

Definition set_daily_totals (totals : list DailyTotal.t) (data : UsageData.t)
    : UsageData.t :=
  UsageData.mk (UsageData.current_window data) totals (UsageData.recent_requests data)
               (UsageData.pipeline_runs data) (UsageData.provider data).

Definition set_pipeline_runs (runs : option (list PipelineRun.t)) (data : UsageData.t)
    : UsageData.t :=
  UsageData.mk (UsageData.current_window data) (UsageData.daily_totals data)
               (UsageData.recent_requests data) runs (UsageData.provider data).

(** The properties of the object, [undefined] where it lacks them. *)
Definition window_of (obj : UsageObject) : option UsageWindow.t :=
  match obj with
  | Whole data => Some (UsageData.current_window data)
  | NoTotals w _ _ _ => Some w
  | NoWindow _ _ _ _ => None
  end.

Definition totals_of (obj : UsageObject) : option (list DailyTotal.t) :=
  match obj with
  | Whole data => Some (UsageData.daily_totals data)
  | NoTotals _ _ _ _ => None
  | NoWindow totals _ _ _ => totals
  end.

Definition requests_of (obj : UsageObject) : option (list RequestLog.t) :=
  match obj with
  | Whole data => UsageData.recent_requests data
  | NoTotals _ requests _ _ | NoWindow _ requests _ _ => requests
  end.

Definition pipeline_runs_of (obj : UsageObject) : option (list PipelineRun.t) :=
  match obj with
  | Whole data => UsageData.pipeline_runs data
  | NoTotals _ _ runs _ | NoWindow _ _ runs _ => runs
  end.

Definition provider_of (obj : UsageObject) : option Provider.t :=
  match obj with
  | Whole data => UsageData.provider data
  | NoTotals _ _ _ provider | NoWindow _ _ _ provider => provider
  end.

(** The assignments to the properties of the object. *)
Definition with_window (w : UsageWindow.t) (obj : UsageObject) : UsageObject :=
  match obj with
  | Whole data => Whole (set_current_window w data)
  | NoTotals _ requests runs provider => NoTotals w requests runs provider
  | NoWindow (Some totals) requests runs provider =>
      Whole (UsageData.mk w totals requests runs provider)
  | NoWindow None requests runs provider => NoTotals w requests runs provider
  end.

Definition with_totals (totals : list DailyTotal.t) (obj : UsageObject) : UsageObject :=
  match obj with
  | Whole data => Whole (set_daily_totals totals data)
  | NoTotals w requests runs provider =>
      Whole (UsageData.mk w totals requests runs provider)
  | NoWindow _ requests runs provider => NoWindow (Some totals) requests runs provider
  end.

Definition with_requests (requests : option (list RequestLog.t)) (obj : UsageObject)
    : UsageObject :=
  match obj with
  | Whole data => Whole (set_recent_requests requests data)
  | NoTotals w _ runs provider => NoTotals w requests runs provider
  | NoWindow totals _ runs provider => NoWindow totals requests runs provider
  end.

Definition with_pipeline_runs (runs : option (list PipelineRun.t)) (obj : UsageObject)
    : UsageObject :=
  match obj with
  | Whole data => Whole (set_pipeline_runs runs data)
  | NoTotals w requests _ provider => NoTotals w requests runs provider
  | NoWindow totals requests _ provider => NoWindow totals requests runs provider
  end.

Definition with_provider (provider : option Provider.t) (obj : UsageObject)
    : UsageObject :=
  match obj with
  | Whole data => Whole (set_provider provider data)
  | NoTotals w requests runs _ => NoTotals w requests runs provider
  | NoWindow totals requests runs _ => NoWindow totals requests runs provider
  end.

(** The [catch] sees what reading and parsing throw, and the [TypeError]
    of touching a property of [null]; an object is returned as it is, with
    [recent_requests] and [provider] filled in, whatever else it lacks. *)
Definition loadUsageData : M UsageObject :=
  try_catch
    (m <- get_machine ;;
     match disk m with
     | Unreadable e => throw e
     | Unparseable e => throw e
     | NonObject e => throw e
     | Document data =>
         let data :=
           match requests_of data with
           | None => with_requests (Some []) data
           | Some _ => data
           end in
         let data :=
           match provider_of data with
           | None => with_provider (Some default_provider) data
           | Some _ => data
           end in
         ret data
     end)
    (fun _ =>
       w <- createNewWindow ;;
       ret (Whole (UsageData.mk w [] (Some []) None (Some default_provider)))).

(** The whole document replaces what the file held; reading it back gives
    the document written. *)
Definition saveUsageData (data : UsageObject) : M unit :=
  fun m =>
    match disk_fault m with
    | Some e => (Throws e, m)
    | None => (Returns tt, with_disk (Document data) m)
    end.

(** [new Date() >= new Date(window.window_end)]: the clock is read, then
    the property of the window. *)
Definition isWindowExpired (window : option UsageWindow.t) : M bool :=
  now <- Date_now ;;
  window <- property "window_end" window ;;
  ret (UsageWindow.window_end window <=? now).

Definition MS_PER_DAY : Z := 86400000.

Definition getTodayDate : M Z :=
  now <- Date_now ;;
  ret (now / MS_PER_DAY).

(** [this.data] and the object returned are one object: what a caller
    assigns to its properties is assigned in the tracker. *)
Definition ensureLoaded : M UsageObject :=
  m <- get_machine ;;
  data <- match tracker_data m with
          | Some data => ret data
          | None =>
              data <- loadUsageData ;;
              modify (with_tracker (Some data)) ;;;
              ret data
          end ;;
  expired <- isWindowExpired (window_of data) ;;
  if expired : bool then
    w <- createNewWindow ;;
    let data := with_window w data in
    modify (with_tracker (Some data)) ;;;
    ret data
  else ret data.

Definition truncate_error (error : option string) : option string :=
  match error with
  | Some e =>
      if JS.truthy e
      then Some (if (500 <? String.length e)%nat
                 then JS.string_prefix 500 e +:+ "..."
                 else e)
      else None
  | None => None
  end.

Definition add_to_window (params : RecordParams.t) (w : UsageWindow.t) : UsageWindow.t :=
  UsageWindow.mk
    (UsageWindow.window_start w)
    (UsageWindow.window_end w)
    (UsageWindow.prompt_count w + RecordParams.taskCount params)
    (UsageWindow.total_input_tokens w + RecordParams.inputTokens params)
    (UsageWindow.total_output_tokens w + RecordParams.outputTokens params)
    (Float64.fadd (UsageWindow.estimated_cost_usd w) (RecordParams.costUsd params)).

Definition add_to_daily (params : RecordParams.t) (d : DailyTotal.t) : DailyTotal.t :=
  DailyTotal.mk
    (DailyTotal.date d)
    (DailyTotal.prompt_count d + RecordParams.taskCount params)
    (DailyTotal.total_input_tokens d + RecordParams.inputTokens params)
    (DailyTotal.total_output_tokens d + RecordParams.outputTokens params)
    (Float64.fadd (DailyTotal.estimated_cost_usd d) (RecordParams.costUsd params)).

(** [push] followed by the cap: [if (l.length > cap) l = l.slice(-cap)]. *)
Definition push_capped {A} (cap : Z) (l : list A) (x : A) : list A :=
  let pushed := l ++ [x] in
  if cap <? Z.of_nat (length pushed) then JS.slice_from pushed (- cap) else pushed.

(** Today's entry is found and updated where it stands, or created,
    pushed and then updated: the new entry is the last one of the array,
    before the cap and after it. *)
Definition update_daily (params : RecordParams.t) (today : Z) (totals : list DailyTotal.t)
    : list DailyTotal.t :=
  match list_find (fun d => DailyTotal.date d = today) totals with
  | Some (k, dailyEntry) => <[k := add_to_daily params dailyEntry]> totals
  | None =>
      let dailyEntry := DailyTotal.mk today 0 0 0 0%Q in
      let kept := push_capped 30 totals dailyEntry in
      <[pred (length kept) := add_to_daily params dailyEntry]> kept
  end.

Definition new_run (params : RecordParams.t) (pipeline : Pipeline.t)
    (id_time started completed : Z) : PipelineRun.t :=
  PipelineRun.mk
    ("run-" +:+ JS.string_of_Z id_time)
    started
    (Some completed)
    (Pipeline.skill_chain pipeline)
    (default 0 (Pipeline.findings_total pipeline))
    []
    (default 0 (Pipeline.minimax_eligible pipeline))
    (default 0 (Pipeline.opus_required pipeline))
    (RecordParams.costUsd params)
    (if JS.truthy_opt (RecordParams.error params) then status_failed else status_completed).

Definition update_runs (params : RecordParams.t) (runs : option (list PipelineRun.t))
    : M (option (list PipelineRun.t)) :=
  match RecordParams.pipeline params with
  | Some pipeline =>
      if JS.truthy_opt (RecordParams.caller params) then
        id_time <- Date_now ;;
        started <- Date_now ;;
        completed <- Date_now ;;
        ret (Some (push_capped 10 (default [] runs)
                               (new_run params pipeline id_time started completed)))
      else ret runs
  | None => ret runs
  end.

Definition new_request_log (params : RecordParams.t) (timestamp : Z) : RequestLog.t :=
  RequestLog.mk
    timestamp
    (RecordParams.type params)
    (RecordParams.taskCount params)
    (RecordParams.inputTokens params)
    (RecordParams.outputTokens params)
    (RecordParams.costUsd params)
    (RecordParams.responseTimeMs params)
    (RecordParams.caller params)
    (truncate_error (RecordParams.error params))
    (RecordParams.failedCount params).

(** The log and the window are updated in the object before the daily
    totals are looked up: what throws there leaves them updated. *)
Definition recordRequest (params : RecordParams.t) : M unit :=
  data <- ensureLoaded ;;
  timestamp <- Date_now ;;
  let requestLog := new_request_log params timestamp in
  let data :=
    with_requests (Some (push_capped 200 (default [] (requests_of data)) requestLog))
                  data in
  modify (with_tracker (Some data)) ;;;
  window <- property "prompt_count" (window_of data) ;;
  let data := with_window (add_to_window params window) data in
  modify (with_tracker (Some data)) ;;;
  today <- getTodayDate ;;
  totals <- property "find" (totals_of data) ;;
  let data := with_totals (update_daily params today totals) data in
  pipeline_runs <- update_runs params (pipeline_runs_of data) ;;
  let data := with_pipeline_runs pipeline_runs data in
  modify (with_tracker (Some data)) ;;;
  saveUsageData data.

Definition getRemainingPrompts : M Z :=
  data <- ensureLoaded ;;
  window <- property "prompt_count" (window_of data) ;;
  ret (Z.max 0 (MAX_PROMPTS_PER_WINDOW - UsageWindow.prompt_count window)).

(** ** index.ts: the two tools *)

Module QueryOutput.
Record t := mk {
  response : string;
  model : string;
  usage : MinimaxUsage.t;
  cost_estimate_usd : Q;
  prompts_remaining : Z;
}.
End QueryOutput.

Module BatchOutput.
Record t := mk {
  results : list BatchResult.t;
  summary : BatchSummary.t;
  prompts_remaining : Z;
}.
End BatchOutput.

(** The text a tool answers with: a message, or the rendering of its
    output object. *)
Inductive ToolText :=
  | Message (text : string)
  | QueryJson (output : QueryOutput.t)
  | BatchJson (output : BatchOutput.t).

Module ToolResult.
Record t := mk { content : ToolText; isError : bool }.
End ToolResult.

(** [client] and [batchProcessor]: both set at startup, or neither when
    the client could not be built. *)
Module Server.
Record t := mk {
  client : option MinimaxClient.t;
  batchProcessor : option BatchProcessor.t;
}.
End Server.

Module QueryArgs.
Record t := mk {
  prompt : string;
  system : option string;
  max_tokens : option Z;
  temperature : option Q;
  caller : option string;
}.
End QueryArgs.

Module BatchArgs.
Record t := mk {
  tasks : list BatchTask.t;
  concurrency : option Z;
  caller : option string;
  pipeline : option Pipeline.t;
}.
End BatchArgs.

Definition not_initialized : ToolResult.t :=
  ToolResult.mk (Message "Error: MiniMax client not initialized. Check MINIMAX_API_KEY.") true.

Definition failure_record (type : RequestType) (responseTimeMs : Z)
    (caller : option string) (errorMsg : string) : RecordParams.t :=
  RecordParams.mk type 0 0 0 0%Q responseTimeMs caller (Some errorMsg) None None.

Definition llm_query (server : Server.t) (args : QueryArgs.t) : M ToolResult.t :=
  startTime <- Date_now ;;
  match Server.client server with
  | None => ret not_initialized
  | Some client =>
      try_catch
        (remaining <- getRemainingPrompts ;;
         if remaining <=? 0 then
           ret (ToolResult.mk
                  (Message "Rate limit: 0 prompts remaining in current 5-hour window. Try again later.")
                  true)
         else
           result <- query client (QueryArgs.prompt args)
                       (Some (QueryOptions.mk (QueryArgs.system args)
                                              (QueryArgs.max_tokens args)
                                              (QueryArgs.temperature args))) ;;
           now <- Date_now ;;
           let responseTimeMs := now - startTime in
           recordRequest
             (RecordParams.mk type_query 1
                (MinimaxUsage.input_tokens (QueryResult.usage result))
                (MinimaxUsage.output_tokens (QueryResult.usage result))
                (QueryResult.cost_estimate_usd result)
                responseTimeMs (QueryArgs.caller args) None None None) ;;;
           ret (ToolResult.mk
                  (QueryJson
                     (QueryOutput.mk (QueryResult.response result) (QueryResult.model result)
                                     (QueryResult.usage result)
                                     (QueryResult.cost_estimate_usd result)
                                     (remaining - 1)))
                  false))
        (fun err =>
           now <- Date_now ;;
           let responseTimeMs := now - startTime in
           let errorMsg := JS.error_message err in
           recordRequest
             (failure_record type_query responseTimeMs (QueryArgs.caller args) errorMsg) ;;;
           ret (ToolResult.mk (Message ("MiniMax API error: " +:+ errorMsg)) true))
  end.

Definition rate_limit_message (remaining : Z) (requested : nat) : string :=
  "Rate limit: Only " +:+ JS.string_of_Z remaining +:+ " prompts remaining but "
  +:+ JS.string_of_Z (Z.of_nat requested)
  +:+ " requested. Reduce batch size or wait for window reset.".

Definition llm_batch (fuel : nat) (server : Server.t) (args : BatchArgs.t) : M ToolResult.t :=
  let tasks := BatchArgs.tasks args in
  startTime <- Date_now ;;
  match Server.batchProcessor server with
  | None => ret not_initialized
  | Some batchProcessor =>
      try_catch
        (remaining <- getRemainingPrompts ;;
         if remaining <? Z.of_nat (length tasks) then
           ret (ToolResult.mk (Message (rate_limit_message remaining (length tasks))) true)
         else
           out <- processBatch fuel batchProcessor tasks (BatchArgs.concurrency args) ;;
           let results := fst out in
           let summary := snd out in
           now <- Date_now ;;
           let responseTimeMs := now - startTime in
           recordRequest
             (RecordParams.mk type_batch
                (BatchSummary.succeeded summary)
                (BatchSummary.total_input_tokens summary)
                (BatchSummary.total_output_tokens summary)
                (BatchSummary.total_cost_usd summary)
                responseTimeMs (BatchArgs.caller args) None
                (if 0 <? BatchSummary.failed summary
                 then Some (BatchSummary.failed summary) else None)
                (BatchArgs.pipeline args)) ;;;
           ret (ToolResult.mk
                  (BatchJson
                     (BatchOutput.mk results summary
                                     (remaining - BatchSummary.succeeded summary)))
                  false))
        (fun err =>
           now <- Date_now ;;
           let responseTimeMs := now - startTime in
           let errorMsg := JS.error_message err in
           recordRequest
             (failure_record type_batch responseTimeMs (BatchArgs.caller args) errorMsg) ;;;
           ret (ToolResult.mk (Message ("Batch processing error: " +:+ errorMsg)) true))
  end.

(** ** Notions the properties are stated with *)

(** Calls outstanding at the end of a trace: issued and not yet settled. *)
Fixpoint outstanding (trace : list Event) (pending : Z) : Z :=
  match trace with
  | [] => pending
  | CallIssued _ :: rest => outstanding rest (pending + 1)
  | CallSettled _ :: rest => outstanding rest (pending - 1)
  end.

(** The caps of the three rolling collections. *)
Definition within_caps (data : UsageData.t) : Prop :=
  (length (default [] (UsageData.recent_requests data)) <= 200)%nat /\
  (length (UsageData.daily_totals data) <= 30)%nat /\
  (length (default [] (UsageData.pipeline_runs data)) <= 10)%nat.


(** What the batch makes of task number [j] of a chunk whose first call
    is call [n]: the result of its own exchange, and of nothing else. *)
Definition settle_task (self : MinimaxClient.t) (m : Machine) (n : nat)
    (j : nat) (task : BatchTask.t) : BatchResult.t :=
  match processTask self task
          (fetch m (n + j)%nat
             (query_request self (BatchTask.prompt task) (task_options task))) with
  | fulfilled value => value
  | rejected reason =>
      BatchResult.mk (BatchTask.id task) "" zero_usage false (Some (JS.error_message reason))
  end.

(** The exchange of the call issued for [task] as call [n] fails with [e]:
    [query] throws [e]. *)
Definition gateway_fails (self : MinimaxClient.t) (m : Machine) (n : nat)
    (task : BatchTask.t) (e : JS.Thrown) : Prop :=
  query_settle self
    (fetch m n (query_request self (BatchTask.prompt task) (task_options task))) = inl e.

(** The events of one group: its calls are issued, then they settle. *)
Definition group_events (m : Machine) (n : nat) (group : list BatchTask.t) : list Event :=
  map CallIssued (seq n (length group))
  ++ map CallSettled (completion m (seq n (length group))).

(** The events of consecutive groups, the first call being call [n]. *)
Fixpoint groups_events (m : Machine) (n : nat) (groups : list (list BatchTask.t))
    : list Event :=
  match groups with
  | [] => []
  | group :: rest =>
      group_events m n group ++ groups_events m (n + length group)%nat rest
  end.

(** The environment settles the calls it was given, each once. *)
Definition settles_all_calls (m : Machine) : Prop :=
  forall calls, completion m calls ≡ₚ calls.

Definition Zsum (l : list Z) : Z := foldr Z.add 0 l.

(** The exact cost of a usage at 0.15 and 1.20 dollars per million
    tokens, in millionths of a dollar. *)
Definition exact_micro_cost (usage : MinimaxUsage.t) : Q :=
  (15 # 100) * inject_Z (MinimaxUsage.input_tokens usage)
  + (120 # 100) * inject_Z (MinimaxUsage.output_tokens usage).

(** The results of a batch whose first call is the next call of [m]. *)
Definition batch_results (self : BatchProcessor.t) (m : Machine) (tasks : list BatchTask.t)
    : list BatchResult.t :=
  imap (settle_task (BatchProcessor.client self) m (calls_issued m)) tasks.

(** The summary [processBatch] draws from its results. *)
Definition batch_summary (tasks : list BatchTask.t) (results : list BatchResult.t)
    (duration : Z) : BatchSummary.t :=
  let succeeded := Z.of_nat (length (filter (fun r => BatchResult.success r = true) results)) in
  let totalInputTokens :=
    foldl (fun sum r => sum + MinimaxUsage.input_tokens (BatchResult.usage r)) 0 results in
  let totalOutputTokens :=
    foldl (fun sum r => sum + MinimaxUsage.output_tokens (BatchResult.usage r)) 0 results in
  BatchSummary.mk (Z.of_nat (length tasks)) succeeded (Z.of_nat (length tasks) - succeeded)
                  totalInputTokens totalOutputTokens
                  (estimateCost (MinimaxUsage.mk totalInputTokens totalOutputTokens))
                  duration.

(** The machine a batch leaves behind: two readings of the clock, and
    the events of its groups. *)
Definition after_batch (m : Machine) (tasks : list BatchTask.t)
    (groups : list (list BatchTask.t)) : Machine :=
  tick (with_calls (calls_issued m + length tasks)%nat
                   (events m ++ groups_events m (calls_issued m) groups) (tick m)).

(** A window opened at [now]. *)
Definition fresh_window (now : Z) : UsageWindow.t :=
  UsageWindow.mk now (now + WINDOW_DURATION_MS) 0 0 0 0%Q.

(** The state of a ledger that starts from nothing at [now]. *)
Definition fresh_data (now : Z) : UsageData.t :=
  UsageData.mk (fresh_window now) [] (Some []) None (Some default_provider).

(** A document with the fields it lacks filled in. *)
Definition upgraded (doc : UsageData.t) : UsageData.t :=
  UsageData.mk (UsageData.current_window doc) (UsageData.daily_totals doc)
               (Some (default [] (UsageData.recent_requests doc)))
               (UsageData.pipeline_runs doc)
               (Some (default default_provider (UsageData.provider doc))).

(** An object as [loadUsageData] returns it. *)
Definition loaded (obj : UsageObject) : UsageObject :=
  match obj with
  | Whole doc => Whole (upgraded doc)
  | NoTotals w requests runs provider =>
      NoTotals w (Some (default [] requests)) runs
               (Some (default default_provider provider))
  | NoWindow totals requests runs provider =>
      NoWindow totals (Some (default [] requests)) runs
               (Some (default default_provider provider))
  end.

(** The object a call into the tracker starts from, before the window is
    checked: the object held in memory, or else the object loaded. *)
Definition object_on_entry (m : Machine) : UsageObject :=
  match tracker_data m with
  | Some obj => obj
  | None =>
      match disk m with
      | Document doc => loaded doc
      | _ => Whole (fresh_data (clock m (clock_reads m)))
      end
  end.

(** The ledger a call into the tracker starts from, where that object has
    its window and its daily totals ([whole_on_entry]); elsewhere the
    calls throw and there is no such ledger: the fresh one stands in. *)
Definition data_on_entry (m : Machine) : UsageData.t :=
  match object_on_entry m with
  | Whole data => data
  | _ => fresh_data (clock m (clock_reads m))
  end.

(** The call starts from an object that has its window and its daily
    totals. *)
Definition whole_on_entry (m : Machine) : Prop :=
  object_on_entry m = Whole (data_on_entry m).

(** The object has its window. *)
Definition has_window (obj : UsageObject) : bool :=
  match window_of obj with
  | Some _ => true
  | None => false
  end.

(** The number of the clock reading that checks the window. *)
Definition check_reading (m : Machine) : nat :=
  match tracker_data m, disk m with
  | Some _, _ | None, Document _ => clock_reads m
  | None, _ => S (clock_reads m)
  end.

Definition window_on_entry (m : Machine) : UsageWindow.t :=
  UsageData.current_window (data_on_entry m).

(** The window has expired when the call checks it. *)
Definition expired_on_entry (m : Machine) : bool :=
  UsageWindow.window_end (window_on_entry m) <=? clock m (check_reading m).

(** The data [ensureLoaded] hands to its caller. *)
Definition ensured_data (m : Machine) : UsageData.t :=
  if expired_on_entry m
  then set_current_window (fresh_window (clock m (S (check_reading m)))) (data_on_entry m)
  else data_on_entry m.

(** The number of clock readings made once [ensureLoaded] is over. *)
Definition ensured_reads (m : Machine) : nat :=
  if expired_on_entry m then S (S (check_reading m)) else S (check_reading m).

Definition ensured_machine (m : Machine) : Machine :=
  mkMachine (clock m) (ensured_reads m) (fetch m) (calls_issued m) (completion m)
            (events m) (disk m) (disk_fault m) (Some (Whole (ensured_data m))).

(** The machine once a call into the tracker has thrown where the window
    is checked: the clock was read for the check, and the tracker holds
    the object. *)
Definition stuck_machine (m : Machine) : Machine :=
  mkMachine (clock m) (S (check_reading m)) (fetch m) (calls_issued m) (completion m)
            (events m) (disk m) (disk_fault m) (Some (object_on_entry m)).

(** The runs after a record made when the clock has been read [r] times. *)
Definition runs_after (params : RecordParams.t) (runs : option (list PipelineRun.t))
    (clk : nat -> Z) (r : nat) : option (list PipelineRun.t) :=
  match RecordParams.pipeline params with
  | Some pipeline =>
      if JS.truthy_opt (RecordParams.caller params)
      then Some (push_capped 10 (default [] runs)
                   (new_run params pipeline (clk r) (clk (S r)) (clk (S (S r)))))
      else runs
  | None => runs
  end.

Definition reads_after_runs (params : RecordParams.t) (r : nat) : nat :=
  match RecordParams.pipeline params with
  | Some _ => if JS.truthy_opt (RecordParams.caller params) then S (S (S r)) else r
  | None => r
  end.

(** The data the tracker holds once [recordRequest params] is over. *)
Definition recorded_data (params : RecordParams.t) (m : Machine) : UsageData.t :=
  let data := ensured_data m in
  let r := ensured_reads m in
  UsageData.mk
    (add_to_window params (UsageData.current_window data))
    (update_daily params (clock m (S r) / MS_PER_DAY) (UsageData.daily_totals data))
    (Some (push_capped 200 (default [] (UsageData.recent_requests data))
             (new_request_log params (clock m r))))
    (runs_after params (UsageData.pipeline_runs data) (clock m) (S (S r)))
    (UsageData.provider data).

Definition recorded_machine (params : RecordParams.t) (m : Machine) : Machine :=
  mkMachine (clock m) (reads_after_runs params (S (S (ensured_reads m))))
            (fetch m) (calls_issued m) (completion m) (events m)
            (match disk_fault m with
             | Some _ => disk m
             | None => Document (Whole (recorded_data params m))
             end)
            (disk_fault m) (Some (Whole (recorded_data params m))).

(** What the tracker holds and what the file stores are ledgers within
    the caps. *)
Definition capped (m : Machine) : Prop :=
  (forall obj, tracker_data m = Some obj -> exists data, obj = Whole data /\ within_caps data) /\
  (forall obj, disk m = Document obj -> exists doc, obj = Whole doc /\ within_caps doc).

(** [new] is what is left of [old] with [x] appended once the oldest
    entries beyond [cap] are dropped. *)
Definition kept_newest {A} (cap : nat) (old : list A) (x : A) (new : list A) : Prop :=
  exists evicted,
    old ++ [x] = evicted ++ new /\
    length new = Nat.min (S (length old)) cap.

(** The ledgers a process can come to hold: it starts with nothing in
    memory and a usage file that is missing, unusable, or a ledger within
    the caps of its format; from there the tracker is called, the process
    may be started anew, and the file may become writable or not. *)
Inductive reachable : Machine -> Prop :=
  | reachable_start m :
      tracker_data m = None ->
      (forall obj, disk m = Document obj ->
                   exists doc, obj = Whole doc /\ within_caps doc) ->
      reachable m
  | reachable_record m params :
      reachable m -> reachable (snd (recordRequest params m))
  | reachable_remaining m :
      reachable m -> reachable (snd (getRemainingPrompts m))
  | reachable_restart m :
      reachable m -> reachable (with_tracker None m)
  | reachable_fault m fault :
      reachable m ->
      reachable (mkMachine (clock m) (clock_reads m) (fetch m) (calls_issued m)
                           (completion m) (events m) (disk m) fault (tracker_data m)).

(** The error text the log keeps for an error message [e]. *)
Definition logged_error (e : string) : string :=
  if (500 <? String.length e)%nat then JS.string_prefix 500 e +:+ "..." else e.

(** ** Sample inputs *)

Definition sample_client : MinimaxClient.t := MinimaxClient.mk "MiniMax-M2.5" 4096.

Definition sample_processor : BatchProcessor.t := BatchProcessor.mk sample_client 5.

Definition sample_server : Server.t :=
  Server.mk (Some sample_client) (Some sample_processor).

Definition sample_task (id : string) : BatchTask.t :=
  BatchTask.mk id "Summarise the file." None None.

Definition sample_tasks : list BatchTask.t :=
  [sample_task "a"; sample_task "b"; sample_task "c"].

Definition sample_response : MinimaxResponse.t :=
  MinimaxResponse.mk [ContentBlock.mk "text" "done"] "MiniMax-M2.5"
                     (Some (MinimaxUsage.mk 120 45)).

(** A machine whose second exchange is refused by the remote model, whose
    calls settle last issued first, and which has no usage file yet. *)
Definition sample_machine : Machine :=
  mkMachine (fun n => 1700000000000 + Z.of_nat n) 0
            (fun n _ => if Nat.eqb n 1 then FetchNotOk 500 "overloaded"
                        else FetchOk sample_response)
            0 (fun calls => reverse calls) []
            (Unreadable (JS.ErrorObject "ENOENT")) None None.

(** A ledger in the middle of a window: 997 prompts used, the window
    closing an hour after the clock of [sample_machine] starts. *)
Definition sample_data : UsageData.t :=
  UsageData.mk
    (UsageWindow.mk 1699985600000 1700003600000 997 52000 9100 (Float64.literal (18720 # 1000000)))
    [DailyTotal.mk 19675 997 52000 9100 (Float64.literal (18720 # 1000000))]
    (Some []) None (Some default_provider).

Definition sample_ledger_machine : Machine :=
  with_tracker (Some (Whole sample_data)) sample_machine.

Definition five_tasks : list BatchTask.t :=
  sample_tasks ++ [sample_task "d"; sample_task "e"].

(** The record of a failed query. *)
Definition sample_failure : RecordParams.t :=
  failure_record type_query 12 (Some "copus:review") "MiniMax API error 500: overloaded".

(** ** Further notions *)

(** The calls issued in a trace, and the calls settled in it, in the
    order of the trace. *)
Fixpoint issued_calls (trace : list Event) : list nat :=
  match trace with
  | [] => []
  | CallIssued n :: rest => n :: issued_calls rest
  | CallSettled _ :: rest => issued_calls rest
  end.

Fixpoint settled_calls (trace : list Event) : list nat :=
  match trace with
  | [] => []
  | CallIssued _ :: rest => settled_calls rest
  | CallSettled n :: rest => n :: settled_calls rest
  end.

(** The exchange of the call issued for [task] as call [n] is answered
    with a 2xx response. *)
Definition gateway_answers (self : MinimaxClient.t) (m : Machine) (n : nat)
    (task : BatchTask.t) : Prop :=
  exists data,
    fetch m n (query_request self (BatchTask.prompt task) (task_options task))
    = FetchOk data.

(** The prompt count of the window is between 0 and the quota. *)
Definition within_quota (data : UsageData.t) : Prop :=
  0 <= UsageWindow.prompt_count (UsageData.current_window data) <= MAX_PROMPTS_PER_WINDOW.

(** What the tracker holds and what the file stores are ledgers within
    the quota. *)
Definition quota_kept (m : Machine) : Prop :=
  (forall obj, tracker_data m = Some obj -> exists data, obj = Whole data /\ within_quota data) /\
  (forall obj, disk m = Document obj -> exists doc, obj = Whole doc /\ within_quota doc).

(** The daily totals have one entry per day at most. *)
Definition one_entry_per_day (totals : list DailyTotal.t) : Prop :=
  NoDup (DailyTotal.date <$> totals).

(** The pipeline runs of a ledger. *)
Definition runs_of (data : UsageData.t) : list PipelineRun.t :=
  default [] (UsageData.pipeline_runs data).

(** The request log of a ledger. *)
Definition log_of (data : UsageData.t) : list RequestLog.t :=
  default [] (UsageData.recent_requests data).

(** The entry of [today] in the daily totals, or else the entry a day
    starts with. *)
Definition total_of_day (today : Z) (totals : list DailyTotal.t) : DailyTotal.t :=
  match list_find (fun d => DailyTotal.date d = today) totals with
  | Some (_, entry) => entry
  | None => DailyTotal.mk today 0 0 0 0%Q
  end.

(** The result [query] draws from a 2xx response. *)
Definition query_result_of (self : MinimaxClient.t) (data : MinimaxResponse.t)
    : QueryResult.t :=
  let usage := default zero_usage (MinimaxResponse.usage data) in
  QueryResult.mk
    (JS.join newline
       (map ContentBlock.text
          (filter (fun c => ContentBlock.type c = "text") (MinimaxResponse.content data))))
    (if JS.truthy (MinimaxResponse.model data)
     then MinimaxResponse.model data else MinimaxClient.model self)
    usage
    (estimateCost usage).

(** The request [llm_query] sends for its arguments. *)
Definition request_of_args (self : MinimaxClient.t) (args : QueryArgs.t)
    : MinimaxRequest.t :=
  query_request self (QueryArgs.prompt args)
    (Some (QueryOptions.mk (QueryArgs.system args) (QueryArgs.max_tokens args)
                           (QueryArgs.temperature args))).

(** The record [llm_query] makes of an answered query. *)
Definition success_record (result : QueryResult.t) (responseTimeMs : Z)
    (caller : option string) : RecordParams.t :=
  RecordParams.mk type_query 1
    (MinimaxUsage.input_tokens (QueryResult.usage result))
    (MinimaxUsage.output_tokens (QueryResult.usage result))
    (QueryResult.cost_estimate_usd result)
    responseTimeMs caller None None None.

(** The machine once one awaited call was issued and has settled. *)
Definition after_call (m : Machine) : Machine :=
  with_calls (S (calls_issued m))
             (events m ++ [CallIssued (calls_issued m); CallSettled (calls_issued m)]) m.

(** The record [llm_batch] makes of a batch that returned. *)
Definition batch_record (summary : BatchSummary.t) (responseTimeMs : Z)
    (args : BatchArgs.t) : RecordParams.t :=
  RecordParams.mk type_batch
    (BatchSummary.succeeded summary)
    (BatchSummary.total_input_tokens summary)
    (BatchSummary.total_output_tokens summary)
    (BatchSummary.total_cost_usd summary)
    responseTimeMs (BatchArgs.caller args) None
    (if 0 <? BatchSummary.failed summary then Some (BatchSummary.failed summary) else None)
    (BatchArgs.pipeline args).

(** * Properties *)

(** ** Arrays *)

Lemma slice_take_drop {A} (l : list A) (i c : Z) :
  0 <= i -> 0 <= c ->
  JS.slice l i (i + c) = take (Z.to_nat c) (drop (Z.to_nat i) l).
Proof.
  intros Hi Hc. unfold JS.slice, JS.clamp_index.
  destruct (Z.ltb_spec i 0); [lia|].
  destruct (Z.ltb_spec (i + c) 0); [lia|].
  destruct (Z.le_gt_cases i (Z.of_nat (length l))) as [Hle|Hgt].
  - rewrite (Z.min_l i) by lia.
    destruct (Z.le_gt_cases (i + c) (Z.of_nat (length l))).
    + rewrite Z.min_l by lia. f_equal. lia.
    + rewrite Z.min_r by lia.
      rewrite !take_ge; try done; rewrite length_drop; lia.
  - rewrite !Z.min_r by lia.
    rewrite Z.sub_diag. simpl. rewrite take_0.
    rewrite drop_ge by lia. by rewrite take_nil.
Qed.

Lemma slice_from_neg {A} (l : list A) (cap : Z) :
  0 < cap ->
  JS.slice_from l (- cap) = drop (length l - Z.to_nat cap) l.
Proof.
  intros Hcap. unfold JS.slice_from, JS.slice, JS.clamp_index.
  destruct (Z.ltb_spec (- cap) 0); [|lia].
  destruct (Z.ltb_spec (Z.of_nat (length l)) 0); [lia|].
  rewrite Z.min_id.
  replace (Z.to_nat (Z.max (Z.of_nat (length l) + - cap) 0))
    with (length l - Z.to_nat cap)%nat by lia.
  apply take_ge. rewrite length_drop. lia.
Qed.

Lemma push_capped_spec {A} (cap : Z) (l : list A) (x : A) :
  0 < cap ->
  push_capped cap l x = drop (length (l ++ [x]) - Z.to_nat cap) (l ++ [x]).
Proof.
  intros Hcap. unfold push_capped.
  destruct (Z.ltb_spec cap (Z.of_nat (length (l ++ [x])))).
  - by apply slice_from_neg.
  - replace (length (l ++ [x]) - Z.to_nat cap)%nat with 0%nat by lia. done.
Qed.

Lemma push_capped_length {A} (cap : Z) (l : list A) (x : A) :
  0 < cap ->
  (length (push_capped cap l x) <= Z.to_nat cap)%nat.
Proof.
  intros Hcap. rewrite push_capped_spec by done. rewrite length_drop. lia.
Qed.

(** The entries dropped by the cap are the first ones of the array. *)
Lemma push_capped_evicts_oldest {A} (cap : Z) (l : list A) (x : A) :
  0 < cap ->
  l ++ [x] = take (length (l ++ [x]) - Z.to_nat cap) (l ++ [x]) ++ push_capped cap l x.
Proof.
  intros Hcap. rewrite push_capped_spec by done. by rewrite take_drop.
Qed.

Lemma push_capped_last {A} (cap : Z) (l : list A) (x : A) :
  0 < cap ->
  last (push_capped cap l x) = Some x.
Proof.
  intros Hcap. rewrite push_capped_spec by done.
  rewrite drop_app_le by (rewrite length_app; simpl; lia).
  by rewrite last_snoc.
Qed.

(** ** Numbers *)

Module Float64Facts.
Import Float64.
#[local] Open Scope Q_scope.

(** *** Powers of two and the integer logarithm *)

Lemma P2_pos e : 0 < P2 e.
Proof. apply Qpower_0_lt. reflexivity. Qed.

Lemma P2_plus a b : P2 (a + b) == P2 a * P2 b.
Proof. apply Qpower_plus. discriminate. Qed.

Lemma P2_succ a : P2 (a + 1) == 2 * P2 a.
Proof. rewrite P2_plus. change (P2 1) with 2. ring. Qed.

Lemma P2_le a b : (a <= b)%Z -> P2 a <= P2 b.
Proof. intros H. apply Qpower_le_compat_l; [done|]. discriminate. Qed.

Lemma P2_lt_inv a b : P2 a < P2 b -> (a < b)%Z.
Proof.
  intros H. destruct (Z.lt_ge_cases a b) as [|Hge]; [done|].
  apply P2_le in Hge. apply Qle_not_lt in Hge. contradiction.
Qed.

Lemma P2_inject (n : Z) : (0 <= n)%Z -> inject_Z (2 ^ n) == P2 n.
Proof. intros H. by apply Zpower_Qpower. Qed.


Lemma Q_num_den (x : Q) : x * inject_Z (Zpos (Qden x)) == inject_Z (Qnum x).
Proof.
  destruct x as [p q]. simpl. rewrite (Qmake_Qdiv p q). field.
  discriminate.
Qed.

Lemma log2_bounds (p : Z) :
  (0 < p)%Z -> P2 (Z.log2 p) <= inject_Z p /\ inject_Z p < 2 * P2 (Z.log2 p).
Proof.
  intros Hp. destruct (Z.log2_spec p Hp) as [Hlo Hhi].
  pose proof (Z.log2_nonneg p) as Hnn.
  rewrite <- P2_succ, <- !P2_inject by lia. split.
  - by rewrite <- Zle_Qle.
  - rewrite <- Zlt_Qlt. by rewrite <- Z.add_1_r in Hhi.
Qed.

Lemma ilog2_spec (x : Q) :
  0 < x -> P2 (ilog2 x) <= x /\ x < 2 * P2 (ilog2 x).
Proof.
  intros Hx.
  assert (Hp : (0 < Qnum x)%Z).
  { destruct x as [p q]. unfold Qlt in Hx. simpl in *. lia. }
  destruct (log2_bounds (Qnum x) Hp) as [Hp1 Hp2].
  destruct (log2_bounds (Zpos (Qden x)) eq_refl) as [Hq1 Hq2].
  pose proof (Q_num_den x) as Hx'.
  set (lp := Z.log2 (Qnum x)) in *. set (lq := Z.log2 (Zpos (Qden x))) in *.
  assert (Hd : P2 lp == P2 (lp - lq) * P2 lq).
  { rewrite <- P2_plus. f_equiv. lia. }
  pose proof (P2_pos (lp - lq)) as HD. pose proof (P2_pos lq) as HL.
  unfold ilog2. fold lp lq. fold (P2 (lp - lq)).
  destruct (Qle_bool (P2 (lp - lq)) x) eqn:Hb.
  - apply Qle_bool_iff in Hb. split; [done|].
    set (D := P2 (lp - lq)) in *. set (L := P2 lq) in *.
    set (q := inject_Z (Zpos (Qden x))) in *. set (p := inject_Z (Qnum x)) in *.
    nra.
  - assert (Hlt : x < P2 (lp - lq)).
    { apply Qnot_le_lt. intros Hle. apply Qle_bool_iff in Hle. congruence. }
    assert (Hhalf : P2 (lp - lq) == 2 * P2 (lp - lq - 1)).
    { rewrite <- P2_succ. f_equiv. lia. }
    set (D := P2 (lp - lq)) in *. set (D' := P2 (lp - lq - 1)) in *.
    set (L := P2 lq) in *.
    set (q := inject_Z (Zpos (Qden x))) in *. set (p := inject_Z (Qnum x)) in *.
    split; nra.
Qed.

Lemma ilog2_mono (x y : Q) : 0 < x -> x <= y -> (ilog2 x <= ilog2 y)%Z.
Proof.
  intros Hx Hxy.
  destruct (ilog2_spec x Hx) as [Hlo _].
  destruct (ilog2_spec y) as [_ Hhi]; [lra|].
  rewrite <- P2_succ in Hhi.
  assert (P2 (ilog2 x) < P2 (ilog2 y + 1)) as Hlt by lra.
  apply P2_lt_inv in Hlt. lia.
Qed.

(** *** Rounding to the nearest integer *)

Lemma rne_cases (m : Q) :
  (inject_Z (rne m) == inject_Z (Qfloor m) /\ m - inject_Z (Qfloor m) <= 1 # 2) \/
  (inject_Z (rne m) == inject_Z (Qfloor m) + 1 /\ (1 # 2) <= m - inject_Z (Qfloor m)).
Proof.
  unfold rne.
  destruct (Qcompare_spec (m - inject_Z (Qfloor m)) (1 # 2)) as [Heq|Hlt|Hgt].
  - destruct (Z.even (Qfloor m)).
    + left. split; [reflexivity|]. rewrite Heq. apply Qle_refl.
    + right. split; [|rewrite Heq; apply Qle_refl].
      rewrite inject_Z_plus. reflexivity.
  - left. split; [reflexivity|]. by apply Qlt_le_weak.
  - right. split; [|by apply Qlt_le_weak].
    rewrite inject_Z_plus. reflexivity.
Qed.

Lemma rne_error (m : Q) :
  m - (1 # 2) <= inject_Z (rne m) /\ inject_Z (rne m) <= m + (1 # 2).
Proof.
  pose proof (Qfloor_le m) as Hlo. pose proof (Qlt_floor m) as Hhi.
  rewrite inject_Z_plus in Hhi. change (inject_Z 1) with 1 in Hhi.
  destruct (rne_cases m) as [[-> H]|[-> H]]; split; lra.
Qed.

Lemma rne_mono (m n : Q) : m <= n -> (rne m <= rne n)%Z.
Proof.
  intros Hmn. pose proof (Qfloor_resp_le _ _ Hmn) as Hfl.
  pose proof (Qfloor_le m) as Hm1. pose proof (Qlt_floor m) as Hm2.
  pose proof (Qfloor_le n) as Hn1. pose proof (Qlt_floor n) as Hn2.
  rewrite inject_Z_plus in Hm2, Hn2. change (inject_Z 1) with 1 in Hm2, Hn2.
  destruct (Z.eq_dec (Qfloor m) (Qfloor n)) as [Heq|Hne].
  - unfold rne. rewrite <- Heq.
    destruct (Qcompare_spec (m - inject_Z (Qfloor m)) (1 # 2)) as [Hm|Hm|Hm];
      destruct (Qcompare_spec (n - inject_Z (Qfloor m)) (1 # 2)) as [Hn|Hn|Hn];
      try destruct (Z.even (Qfloor m)); try lia; exfalso; lra.
  - assert (Hstep : (Qfloor m + 1 <= Qfloor n)%Z) by lia.
    rewrite Zle_Qle, inject_Z_plus in Hstep. change (inject_Z 1) with 1 in Hstep.
    rewrite Zle_Qle.
    destruct (rne_cases m) as [[-> _]|[-> _]]; destruct (rne_cases n) as [[-> _]|[-> _]]; lra.
Qed.

Lemma rne_integer (k : Z) : rne (inject_Z k) = k.
Proof.
  unfold rne. rewrite Qfloor_Z.
  destruct (Qcompare_spec (inject_Z k - inject_Z k) (1 # 2)) as [H|H|H];
    [exfalso; lra|done|exfalso; lra].
Qed.

Lemma rne_ge (k : Z) (m : Q) : inject_Z k <= m -> (k <= rne m)%Z.
Proof. intros H. rewrite <- (rne_integer k). by apply rne_mono. Qed.

Lemma rne_le (k : Z) (m : Q) : m <= inject_Z k -> (rne m <= k)%Z.
Proof. intros H. rewrite <- (rne_integer k). by apply rne_mono. Qed.

(** *** Rounding to binary64 *)

Lemma scaled (x : Q) (e : Z) : x == (x / P2 e) * P2 e.
Proof. field. pose proof (P2_pos e). lra. Qed.

Lemma round_pos_error (x : Q) :
  0 < x ->
  x - (1 # 2) * P2 (ulp_exp x) <= round_pos x /\
  round_pos x <= x + (1 # 2) * P2 (ulp_exp x).
Proof.
  intros Hx. unfold round_pos. fold (P2 (ulp_exp x)).
  pose proof (P2_pos (ulp_exp x)) as HP.
  pose proof (scaled x (ulp_exp x)) as Hs.
  destruct (rne_error (x / P2 (ulp_exp x))) as [Hlo Hhi].
  set (m := x / P2 (ulp_exp x)) in *. set (r := inject_Z (rne m)) in *.
  set (P := P2 (ulp_exp x)) in *.
  split; nra.
Qed.

Lemma half_ulp_bound (x : Q) :
  0 < x -> (1 # 2) * P2 (ulp_exp x) <= x * unit_roundoff + tiny.
Proof.
  intros Hx. destruct (ilog2_spec x Hx) as [Hlo _].
  pose proof (P2_pos (-53)) as Hu. pose proof (P2_pos (-1075)) as Ht.
  unfold ulp_exp, unit_roundoff, tiny.
  destruct (Z.max_spec (ilog2 x - 52) (-1074)) as [[_ ->]|[_ ->]].
  - assert (H : P2 (-1074) == 2 * P2 (-1075)) by (rewrite <- P2_succ; reflexivity).
    rewrite H. nra.
  - assert (H : P2 (ilog2 x - 52) == 2 * (P2 (ilog2 x) * P2 (-53))).
    { rewrite <- P2_plus, <- P2_succ. f_equiv. lia. }
    rewrite H. nra.
Qed.

Lemma round_pos_nonneg (x : Q) : 0 < x -> 0 <= round_pos x.
Proof.
  intros Hx. unfold round_pos. fold (P2 (ulp_exp x)).
  pose proof (P2_pos (ulp_exp x)) as HP.
  assert (0 <= rne (x / P2 (ulp_exp x)))%Z as Hr.
  { apply rne_ge. apply Qle_shift_div_l; [done|].
    change (inject_Z 0) with 0. lra. }
  rewrite Zle_Qle in Hr. change (inject_Z 0) with 0 in Hr. nra.
Qed.

Lemma round_pos_mono (x y : Q) : 0 < x -> x <= y -> round_pos x <= round_pos y.
Proof.
  intros Hx Hxy. assert (Hy : 0 < y) by lra.
  pose proof (ilog2_mono x y Hx Hxy) as Hlog.
  destruct (ilog2_spec x Hx) as [_ Hxhi]. destruct (ilog2_spec y Hy) as [Hylo _].
  unfold round_pos. fold (P2 (ulp_exp x)) (P2 (ulp_exp y)).
  pose proof (P2_pos (ulp_exp x)) as HPx. pose proof (P2_pos (ulp_exp y)) as HPy.
  destruct (Z.eq_dec (ulp_exp x) (ulp_exp y)) as [Heq|Hne].
  - rewrite <- Heq in *.
    assert (rne (x / P2 (ulp_exp x)) <= rne (y / P2 (ulp_exp x)))%Z as Hr.
    { apply rne_mono. apply Qle_shift_div_l; [done|].
      rewrite <- (scaled x). done. }
    rewrite Zle_Qle in Hr. nra.
  - assert (Hex : (ilog2 x - 52 <= ulp_exp x)%Z) by (unfold ulp_exp; lia).
    assert (Hey : ulp_exp y = (ilog2 y - 52)%Z) by (unfold ulp_exp in *; lia).
    assert (Hstep : (ulp_exp x + 1 <= ulp_exp y)%Z) by (unfold ulp_exp in *; lia).
    (* [x] rounds to at most the top of its binade *)
    assert (rne (x / P2 (ulp_exp x)) <= 2 ^ 53)%Z as Hrx.
    { apply rne_le. rewrite P2_inject by lia.
      apply Qle_shift_div_r; [done|]. rewrite <- P2_plus.
      assert (P2 (ilog2 x + 1) <= P2 (53 + ulp_exp x)) by (apply P2_le; lia).
      rewrite P2_succ in H. lra. }
    (* [y] rounds to at least the bottom of its binade *)
    assert (2 ^ 52 <= rne (y / P2 (ulp_exp y)))%Z as Hry.
    { apply rne_ge. rewrite P2_inject by lia.
      apply Qle_shift_div_l; [done|]. rewrite <- P2_plus.
      replace (52 + ulp_exp y)%Z with (ilog2 y) by lia. done. }
    rewrite Zle_Qle in Hrx, Hry. rewrite P2_inject in Hrx, Hry by lia.
    assert (Hmid : P2 53 * P2 (ulp_exp x) <= P2 52 * P2 (ulp_exp y)).
    { rewrite <- !P2_plus. apply P2_le. lia. }
    pose proof (P2_pos 53). pose proof (P2_pos 52).
    set (rx := inject_Z (rne (x / P2 (ulp_exp x)))) in *.
    set (ry := inject_Z (rne (y / P2 (ulp_exp y)))) in *.
    apply Qle_trans with (P2 53 * P2 (ulp_exp x)); [nra|].
    apply Qle_trans with (P2 52 * P2 (ulp_exp y)); [done|nra].
Qed.

Lemma rnd64_pos (x : Q) : 0 < x -> rnd64 x == round_pos x.
Proof.
  intros Hx. unfold rnd64.
  destruct (Qcompare_spec x 0); [exfalso; lra|exfalso; lra|apply Qred_correct].
Qed.

Lemma rnd64_neg (x : Q) : x < 0 -> rnd64 x == - round_pos (- x).
Proof.
  intros Hx. unfold rnd64.
  destruct (Qcompare_spec x 0); [exfalso; lra|apply Qred_correct|exfalso; lra].
Qed.

Lemma rnd64_zero (x : Q) : x == 0 -> rnd64 x = 0.
Proof.
  intros Hx. unfold rnd64.
  destruct (Qcompare_spec x 0); [done|exfalso; lra|exfalso; lra].
Qed.

Lemma rnd64_nonneg (x : Q) : 0 <= x -> 0 <= rnd64 x.
Proof.
  intros Hx. destruct (Qlt_le_dec 0 x) as [Hpos|Hle].
  - rewrite rnd64_pos by done. by apply round_pos_nonneg.
  - rewrite rnd64_zero by lra. lra.
Qed.

Lemma rnd64_nonpos (x : Q) : x <= 0 -> rnd64 x <= 0.
Proof.
  intros Hx. destruct (Qlt_le_dec x 0) as [Hneg|Hle].
  - rewrite rnd64_neg by done.
    assert (0 <= round_pos (- x)) by (apply round_pos_nonneg; lra). lra.
  - rewrite rnd64_zero by lra. lra.
Qed.

(** Rounding is monotone. *)
Lemma rnd64_mono (x y : Q) : x <= y -> rnd64 x <= rnd64 y.
Proof.
  intros Hxy. destruct (Qlt_le_dec 0 x) as [Hx|Hx].
  - rewrite !rnd64_pos by lra. by apply round_pos_mono.
  - destruct (Qlt_le_dec y 0) as [Hy|Hy].
    + rewrite !rnd64_neg by lra.
      assert (round_pos (- y) <= round_pos (- x)) by (apply round_pos_mono; lra).
      lra.
    + apply Qle_trans with 0; [by apply rnd64_nonpos|by apply rnd64_nonneg].
Qed.

(** The error of a rounding of a non-negative number. *)
Lemma rnd64_error (x : Q) :
  0 <= x ->
  x - (x * unit_roundoff + tiny) <= rnd64 x /\
  rnd64 x <= x + (x * unit_roundoff + tiny).
Proof.
  intros Hx. pose proof (P2_pos (-53)) as Hu. pose proof (P2_pos (-1075)) as Ht.
  fold unit_roundoff in Hu. fold tiny in Ht.
  destruct (Qlt_le_dec 0 x) as [Hpos|Hle].
  - rewrite rnd64_pos by done.
    destruct (round_pos_error x Hpos). pose proof (half_ulp_bound x Hpos).
    split; lra.
  - rewrite rnd64_zero by lra. split; nra.
Qed.

(** The same with the two bounds as numerals. *)
Lemma rnd64_error_numeral (x : Q) :
  0 <= x ->
  x * (1 - (1 # 9007199254740992)) - (1 # 1267650600228229401496703205376) <= rnd64 x /\
  rnd64 x <= x * (1 + (1 # 9007199254740992)) + (1 # 1267650600228229401496703205376).
Proof.
  intros Hx. destruct (rnd64_error x Hx) as [Hlo Hhi].
  assert (Hu : unit_roundoff == 1 # 9007199254740992) by reflexivity.
  assert (Ht : tiny <= 1 # 1267650600228229401496703205376)
    by (apply Qle_bool_iff; vm_compute; reflexivity).
  rewrite Hu in Hlo, Hhi. split; lra.
Qed.

Lemma Math_round_mono (x y : Q) : x <= y -> Math_round x <= Math_round y.
Proof.
  intros Hxy. unfold Math_round. rewrite <- Zle_Qle.
  apply Qfloor_resp_le. lra.
Qed.

Lemma fadd_mono (x x' y y' : Q) : x <= x' -> y <= y' -> fadd x y <= fadd x' y'.
Proof. intros Hx Hy. apply rnd64_mono. lra. Qed.

Lemma fmul_mono (x x' c : Q) : 0 <= c -> x <= x' -> fmul x c <= fmul x' c.
Proof. intros Hc Hx. apply rnd64_mono. nra. Qed.

Lemma fdiv_mono (x x' c : Q) : 0 < c -> x <= x' -> fdiv x c <= fdiv x' c.
Proof.
  intros Hc Hx. apply rnd64_mono. unfold Qdiv.
  assert (0 < / c) by (by apply Qinv_lt_0_compat). nra.
Qed.

Lemma of_int_mono (a b : Z) : (a <= b)%Z -> of_int a <= of_int b.
Proof. intros Hab. apply rnd64_mono. by rewrite <- Zle_Qle. Qed.

(** Known values: [0.1 + 0.2] is [0.30000000000000004], [1 / 3] is the
    double below a third, [2^53 + 1] is not representable and goes to the
    even neighbour, and below the normal range the spacing is 2^-1074. *)
Example known_doubles :
  fadd (literal (1 # 10)) (literal (2 # 10)) == 1351079888211149 # 4503599627370496 /\
  fdiv 1 3 == 6004799503160661 # 18014398509481984 /\
  of_int (2 ^ 53 + 1) == inject_Z (2 ^ 53) /\
  literal (3 # 2 ^ 1075) == 1 # 2 ^ 1073 /\
  literal (1 # 2 ^ 1075) == 0.
Proof. repeat split; apply Qeq_bool_iff; vm_compute; reflexivity. Qed.

End Float64Facts.

(** ** The cost estimator *)

Lemma million_exact : Float64.literal 1000000 = 1000000%Q.
Proof. vm_compute. reflexivity. Qed.

Lemma rates_nonneg :
  (0 <= PRICING.input_per_million)%Q /\ (0 <= PRICING.output_per_million)%Q.
Proof. split; apply Qle_bool_iff; vm_compute; reflexivity. Qed.

Lemma estimateCost_mono (usage usage' : MinimaxUsage.t) :
  MinimaxUsage.input_tokens usage <= MinimaxUsage.input_tokens usage' ->
  MinimaxUsage.output_tokens usage <= MinimaxUsage.output_tokens usage' ->
  (estimateCost usage <= estimateCost usage')%Q.
Proof.
  intros Hin Hout. destruct rates_nonneg as [Hi Ho].
  unfold estimateCost. rewrite million_exact.
  apply Float64Facts.fdiv_mono; [reflexivity|].
  apply Float64Facts.Math_round_mono.
  apply Float64Facts.fmul_mono; [discriminate|].
  apply Float64Facts.fadd_mono.
  - apply Float64Facts.fmul_mono; [done|].
    apply Float64Facts.fdiv_mono; [reflexivity|]. by apply Float64Facts.of_int_mono.
  - apply Float64Facts.fmul_mono; [done|].
    apply Float64Facts.fdiv_mono; [reflexivity|]. by apply Float64Facts.of_int_mono.
Qed.

Lemma estimateCost_zero : estimateCost (MinimaxUsage.mk 0 0) = 0%Q.
Proof. vm_compute. reflexivity. Qed.

(** Before [Math.round], the computed amount is within a fortieth of a
    millionth of the exact one. *)
Lemma estimateCost_before_rounding (usage : MinimaxUsage.t) :
  0 <= MinimaxUsage.input_tokens usage <= 10 ^ 12 ->
  0 <= MinimaxUsage.output_tokens usage <= 10 ^ 12 ->
  let inputCost :=
    Float64.fmul
      (Float64.fdiv (Float64.of_int (MinimaxUsage.input_tokens usage)) 1000000)
      PRICING.input_per_million in
  let outputCost :=
    Float64.fmul
      (Float64.fdiv (Float64.of_int (MinimaxUsage.output_tokens usage)) 1000000)
      PRICING.output_per_million in
  let x := Float64.fmul (Float64.fadd inputCost outputCost) 1000000 in
  (exact_micro_cost usage - (1 # 40) <= x /\ x <= exact_micro_cost usage + (1 # 40))%Q.
Proof.
  intros [Hi0 Hi1] [Ho0 Ho1]. cbv zeta. unfold exact_micro_cost.
  unfold Float64.fmul, Float64.fdiv, Float64.fadd, Float64.of_int.
  rewrite Zle_Qle in Hi0, Hi1, Ho0, Ho1.
  change (inject_Z 0) with 0%Q in *.
  change (inject_Z (10 ^ 12)) with 1000000000000%Q in *.
  set (i := inject_Z (MinimaxUsage.input_tokens usage)) in *.
  set (o := inject_Z (MinimaxUsage.output_tokens usage)) in *.
  assert (Hc15 : PRICING.input_per_million == 5404319552844595 # 36028797018963968)
    by (vm_compute; reflexivity).
  assert (Hc12 : PRICING.output_per_million == 5404319552844595 # 4503599627370496)
    by (vm_compute; reflexivity).
  (* the token counts as numbers *)
  pose proof (Float64Facts.rnd64_nonneg i Hi0) as Hi_nn.
  pose proof (Float64Facts.rnd64_error_numeral i Hi0) as [Hi_lo Hi_hi].
  pose proof (Float64Facts.rnd64_nonneg o Ho0) as Ho_nn.
  pose proof (Float64Facts.rnd64_error_numeral o Ho0) as [Ho_lo Ho_hi].
  set (i0 := Float64.rnd64 i) in *. set (o0 := Float64.rnd64 o) in *.
  (* divided by a million *)
  assert (Hqa : (i0 / 1000000 == i0 * (1 # 1000000))%Q) by field.
  assert (Hqb : (o0 / 1000000 == o0 * (1 # 1000000))%Q) by field.
  set (qa := (i0 / 1000000)%Q) in *. set (qb := (o0 / 1000000)%Q) in *.
  assert (Ha : (0 <= qa)%Q) by lra. assert (Hb : (0 <= qb)%Q) by lra.
  pose proof (Float64Facts.rnd64_nonneg _ Ha) as Ha_nn.
  pose proof (Float64Facts.rnd64_error_numeral _ Ha) as [Ha_lo Ha_hi].
  pose proof (Float64Facts.rnd64_nonneg _ Hb) as Hb_nn.
  pose proof (Float64Facts.rnd64_error_numeral _ Hb) as [Hb_lo Hb_hi].
  set (a1 := Float64.rnd64 qa) in *. set (b1 := Float64.rnd64 qb) in *.
  (* times the rates *)
  assert (Hpa : (a1 * PRICING.input_per_million
                 == a1 * (5404319552844595 # 36028797018963968))%Q)
    by (rewrite Hc15; reflexivity).
  assert (Hpb : (b1 * PRICING.output_per_million
                 == b1 * (5404319552844595 # 4503599627370496))%Q)
    by (rewrite Hc12; reflexivity).
  set (pa := (a1 * PRICING.input_per_million)%Q) in *.
  set (pb := (b1 * PRICING.output_per_million)%Q) in *.
  assert (Ha2 : (0 <= pa)%Q) by lra. assert (Hb2 : (0 <= pb)%Q) by lra.
  pose proof (Float64Facts.rnd64_nonneg _ Ha2) as Ha2_nn.
  pose proof (Float64Facts.rnd64_error_numeral _ Ha2) as [Ha2_lo Ha2_hi].
  pose proof (Float64Facts.rnd64_nonneg _ Hb2) as Hb2_nn.
  pose proof (Float64Facts.rnd64_error_numeral _ Hb2) as [Hb2_lo Hb2_hi].
  set (a2 := Float64.rnd64 pa) in *. set (b2 := Float64.rnd64 pb) in *.
  (* added *)
  assert (Hs : (0 <= a2 + b2)%Q) by lra.
  pose proof (Float64Facts.rnd64_nonneg _ Hs) as Hs_nn.
  pose proof (Float64Facts.rnd64_error_numeral _ Hs) as [Hs_lo Hs_hi].
  set (s := Float64.rnd64 (a2 + b2)) in *.
  (* times a million *)
  assert (Hx : (0 <= s * 1000000)%Q) by lra.
  pose proof (Float64Facts.rnd64_error_numeral _ Hx) as [Hx_lo Hx_hi].
  set (x := Float64.rnd64 (s * 1000000)) in *.
  split; lra.
Qed.

Lemma estimateCost_rounds (usage : MinimaxUsage.t) :
  0 <= MinimaxUsage.input_tokens usage <= 10 ^ 12 ->
  0 <= MinimaxUsage.output_tokens usage <= 10 ^ 12 ->
  exists k : Z,
    estimateCost usage = Float64.rnd64 (inject_Z k / 1000000) /\
    (Qabs (inject_Z k - exact_micro_cost usage) <= 1 # 2)%Q.
Proof.
  intros Hin Hout.
  pose proof (estimateCost_before_rounding usage Hin Hout) as Hx. cbv zeta in Hx.
  unfold estimateCost. rewrite million_exact.
  unfold Float64.fdiv at 1. unfold Float64.Math_round.
  set (x := Float64.fmul _ 1000000) in *.
  exists (Qfloor (x + (1 # 2))). split; [reflexivity|].
  pose proof (Qfloor_le (x + (1 # 2))) as Hlo.
  pose proof (Qlt_floor (x + (1 # 2))) as Hhi.
  rewrite inject_Z_plus in Hhi. change (inject_Z 1) with 1%Q in Hhi.
  set (k := Qfloor (x + (1 # 2))) in *.
  unfold exact_micro_cost in *.
  set (i := MinimaxUsage.input_tokens usage) in *.
  set (o := MinimaxUsage.output_tokens usage) in *.
  (* twenty times the difference is an integer, strictly between -11 and 11 *)
  assert (Hn : 3 * i + 24 * o < 20 * k + 11 /\ 20 * k < 3 * i + 24 * o + 11).
  { rewrite !Zlt_Qlt, !inject_Z_plus, !inject_Z_mult.
    change (inject_Z 11) with 11%Q.
    change (inject_Z 20) with 20%Q. change (inject_Z 3) with 3%Q.
    change (inject_Z 24) with 24%Q. split; lra. }
  assert (Hn' : 3 * i + 24 * o <= 20 * k + 10 /\ 20 * k <= 3 * i + 24 * o + 10) by lia.
  rewrite !Zle_Qle, !inject_Z_plus, !inject_Z_mult in Hn'.
  change (inject_Z 10) with 10%Q in Hn'.
  change (inject_Z 20) with 20%Q in Hn'. change (inject_Z 3) with 3%Q in Hn'.
  change (inject_Z 24) with 24%Q in Hn'.
  apply Qabs_Qle_condition. split; lra.
Qed.

(** C8. For token counts up to 10^12 the estimate is the number nearest
    to [k] millionths, [k] being an integer nearest to the exact amount
    [input_tokens / 1e6 * 0.15 + output_tokens / 1e6 * 1.20] in millionths
    (either neighbour when the exact amount lies half-way): the amount
    rounded to 6 decimal places.  The estimate does not decrease when
    either token count grows, and it is 0 for no tokens at all. *)
Theorem estimateCost_rounds_and_grows :
  (forall usage : MinimaxUsage.t,
     0 <= MinimaxUsage.input_tokens usage <= 10 ^ 12 ->
     0 <= MinimaxUsage.output_tokens usage <= 10 ^ 12 ->
     exists k : Z,
       estimateCost usage = Float64.rnd64 (inject_Z k / 1000000) /\
       (Qabs (inject_Z k - exact_micro_cost usage) <= 1 # 2)%Q) /\
  (forall usage usage' : MinimaxUsage.t,
     MinimaxUsage.input_tokens usage <= MinimaxUsage.input_tokens usage' ->
     MinimaxUsage.output_tokens usage <= MinimaxUsage.output_tokens usage' ->
     (estimateCost usage <= estimateCost usage')%Q) /\
  estimateCost (MinimaxUsage.mk 0 0) = 0%Q.
Proof.
  split; [|split].
  - exact estimateCost_rounds.
  - exact estimateCost_mono.
  - exact estimateCost_zero.
Qed.

Lemma estimateCost_rounds_and_grows_witness :
  (exists k : Z,
     estimateCost (MinimaxUsage.mk 130 0) = Float64.rnd64 (inject_Z k / 1000000) /\
     (Qabs (inject_Z k - exact_micro_cost (MinimaxUsage.mk 130 0)) <= 1 # 2)%Q) /\
  (estimateCost (MinimaxUsage.mk 130 0) <= estimateCost (MinimaxUsage.mk 130 45))%Q.
Proof.
  destruct estimateCost_rounds_and_grows as (Hrounds & Hgrows & _).
  split.
  - apply (Hrounds (MinimaxUsage.mk 130 0)); simpl; lia.
  - apply (Hgrows (MinimaxUsage.mk 130 0) (MinimaxUsage.mk 130 45)); simpl; lia.
Defined.

(** The two neighbours do occur at half-way amounts: 10 input tokens cost
    1.5 millionths and are estimated at 2, 130 input tokens cost 19.5
    millionths and are estimated at 19. *)
Example estimateCost_half_way :
  estimateCost (MinimaxUsage.mk 10 0) = Float64.rnd64 (2 / 1000000) /\
  estimateCost (MinimaxUsage.mk 130 0) = Float64.rnd64 (19 / 1000000).
Proof. split; vm_compute; reflexivity. Qed.

(** ** The batch dispatcher *)

Lemma with_calls_same (m : Machine) :
  with_calls (calls_issued m + 0) (events m ++ []) m = m.
Proof.
  destruct m. unfold with_calls. simpl. rewrite Nat.add_0_r, app_nil_r. done.
Qed.

Lemma zip_with_imap {A B C} (g : A -> B -> C) (f : nat -> A -> B) (l : list A) :
  zip_with g l (imap f l) = imap (fun j x => g x (f j x)) l.
Proof.
  revert f. induction l as [|x l IH]; intros f; simpl; [done|].
  by rewrite IH.
Qed.

Lemma push_settled_chunk (self : MinimaxClient.t) (m : Machine) (n : nat)
    (chunk : list BatchTask.t) :
  push_settled chunk
    (imap (fun j task =>
             processTask self task
               (fetch m (n + j)%nat
                  (query_request self (BatchTask.prompt task) (task_options task))))
          chunk)
  = imap (settle_task self m n) chunk.
Proof.
  unfold push_settled. by rewrite zip_with_imap.
Qed.

Lemma settle_task_shift (self : MinimaxClient.t) (m : Machine) (n k : nat)
    (l : list BatchTask.t) :
  imap (settle_task self m (n + k)) l = imap (fun j => settle_task self m n (k + j)) l.
Proof.
  apply imap_ext. intros j task _. unfold settle_task.
  by rewrite Nat.add_assoc.
Qed.

Lemma groups_events_env (m m' : Machine) (n : nat) (groups : list (list BatchTask.t)) :
  completion m' = completion m ->
  groups_events m' n groups = groups_events m n groups.
Proof.
  intros Henv. revert n. induction groups as [|g groups IH]; intros n; simpl; [done|].
  unfold group_events. by rewrite Henv, IH.
Qed.

(** The loop, entered at [i] with [1 <= maxConcurrent]: it returns once
    the remaining tasks are dealt with, group after group. *)
Lemma processBatch_loop_spec (self : MinimaxClient.t) (tasks : list BatchTask.t) (C : Z) :
  1 <= C ->
  forall (fuel : nat) (i : Z) (results : list BatchResult.t) (m : Machine),
    0 <= i ->
    (length tasks - Z.to_nat i <= fuel)%nat ->
    exists groups : list (list BatchTask.t),
      concat groups = drop (Z.to_nat i) tasks /\
      Forall (fun g => 1 <= Z.of_nat (length g) <= C) groups /\
      (forall j g,
         groups !! j = Some g ->
         g = take (Z.to_nat C) (drop (j * Z.to_nat C) (drop (Z.to_nat i) tasks))) /\
      processBatch_loop fuel self tasks C i results m =
        (Returns
           (results ++ imap (settle_task self m (calls_issued m)) (drop (Z.to_nat i) tasks)),
         with_calls (calls_issued m + length (drop (Z.to_nat i) tasks))%nat
                    (events m ++ groups_events m (calls_issued m) groups) m).
Proof.
  intros HC fuel. induction fuel as [|fuel IH]; intros i results m Hi Hfuel.
  - exists []. simpl.
    destruct (Z.ltb_spec i (Z.of_nat (length tasks))); [lia|].
    rewrite drop_ge by lia. simpl.
    rewrite app_nil_r, with_calls_same. done.
  - simpl. destruct (Z.ltb_spec i (Z.of_nat (length tasks))) as [Hlt|Hge].
    + rewrite slice_take_drop by lia.
      set (rest := drop (Z.to_nat i) tasks).
      set (chunk := take (Z.to_nat C) rest).
      assert (Hrest : length rest = (length tasks - Z.to_nat i)%nat)
        by (unfold rest; apply length_drop).
      assert (Hchunk : length chunk = Nat.min (Z.to_nat C) (length rest))
        by (unfold chunk; apply length_take).
      assert (Hsplit : rest = chunk ++ drop (Z.to_nat C) rest)
        by (unfold chunk; symmetry; apply take_drop).
      assert (Hnext : drop (Z.to_nat (i + C)) tasks = drop (Z.to_nat C) rest).
      { unfold rest. rewrite drop_drop. f_equal. lia. }
      unfold bind at 1. unfold allSettled_chunk at 1.
      rewrite push_settled_chunk.
      set (m1 := with_calls _ _ m).
      destruct (IH (i + C) (results ++ imap (settle_task self m (calls_issued m)) chunk) m1)
        as (groups & Hcat & Hall & Hcut & Hrun); [lia|lia|].
      exists (chunk :: groups). split; [|split; [|split]].
      * simpl. rewrite Hcat, Hnext. by symmetry.
      * constructor; [lia|done].
      * intros [|j] g Hg.
        -- simpl in Hg. injection Hg as <-. done.
        -- simpl in Hg. rewrite (Hcut j g Hg), Hnext, drop_drop.
           do 2 f_equal; lia.
      * rewrite Hrun, Hnext. f_equal.
        -- f_equal. rewrite <- app_assoc. f_equal.
           rewrite Hsplit at 2. rewrite imap_app. f_equal.
           unfold m1. simpl. rewrite settle_task_shift.
           apply imap_ext. intros j task _. done.
        -- rewrite (groups_events_env m1 m) by done.
           unfold m1, with_calls. simpl. f_equal.
           ++ rewrite Hsplit at 2. rewrite length_app. lia.
           ++ unfold group_events. by rewrite <- !app_assoc.
    + exists []. rewrite drop_ge by lia. simpl.
      rewrite app_nil_r, with_calls_same. done.
Qed.

(** [processBatch] with an effective limit of at least 1 returns, given
    one unit of fuel per task, and what it returns is fixed by the
    exchanges of the tasks. *)
Lemma processBatch_spec (self : BatchProcessor.t) (tasks : list BatchTask.t)
    (concurrency : option Z) (fuel : nat) (m : Machine) :
  1 <= default (BatchProcessor.defaultConcurrency self) concurrency ->
  (length tasks <= fuel)%nat ->
  exists groups : list (list BatchTask.t),
    concat groups = tasks /\
    Forall (fun g => 1 <= Z.of_nat (length g)
                     <= default (BatchProcessor.defaultConcurrency self) concurrency) groups /\
    (forall j g,
       groups !! j = Some g ->
       g = take (Z.to_nat (default (BatchProcessor.defaultConcurrency self) concurrency))
             (drop (j * Z.to_nat (default (BatchProcessor.defaultConcurrency self) concurrency))
                   tasks)) /\
    processBatch fuel self tasks concurrency m =
      (Returns (batch_results self m tasks,
                batch_summary tasks (batch_results self m tasks)
                  (clock m (S (clock_reads m)) - clock m (clock_reads m))),
       after_batch m tasks groups).
Proof.
  intros HC Hfuel.
  destruct (processBatch_loop_spec (BatchProcessor.client self) tasks _ HC fuel 0 [] (tick m))
    as (groups & Hcat & Hall & Hcut & Hrun); [lia|simpl; lia|].
  change (Z.to_nat 0) with 0%nat in *. rewrite drop_0 in *.
  rewrite (groups_events_env m (tick m)) in Hrun by done.
  exists groups. split; [done|]. split; [done|]. split; [done|].
  unfold processBatch, bind at 1, Date_now at 1. unfold bind at 1. rewrite Hrun.
  reflexivity.
Qed.

Lemma settle_task_id (self : MinimaxClient.t) (m : Machine) (n j : nat) (task : BatchTask.t) :
  BatchResult.id (settle_task self m n j task) = BatchTask.id task.
Proof.
  unfold settle_task, processTask. by destruct (query_settle _ _).
Qed.

Lemma settle_task_failure (self : MinimaxClient.t) (m : Machine) (n j : nat)
    (task : BatchTask.t) (e : JS.Thrown) :
  gateway_fails self m (n + j) task e ->
  settle_task self m n j task
  = BatchResult.mk (BatchTask.id task) "" zero_usage false (Some (JS.error_message e)).
Proof.
  unfold gateway_fails, settle_task, processTask. by intros ->.
Qed.

Lemma settle_task_unsuccessful (self : MinimaxClient.t) (m : Machine) (n j : nat)
    (task : BatchTask.t) :
  BatchResult.success (settle_task self m n j task) = false ->
  BatchResult.usage (settle_task self m n j task) = zero_usage.
Proof.
  unfold settle_task, processTask. by destruct (query_settle _ _).
Qed.

Lemma batch_results_lookup (self : BatchProcessor.t) (m : Machine)
    (tasks : list BatchTask.t) (i : nat) (task : BatchTask.t) :
  tasks !! i = Some task ->
  batch_results self m tasks !! i
  = Some (settle_task (BatchProcessor.client self) m (calls_issued m) i task).
Proof.
  intros Hi. unfold batch_results. by rewrite list_lookup_imap, Hi.
Qed.

Lemma batch_results_length (self : BatchProcessor.t) (m : Machine) (tasks : list BatchTask.t) :
  length (batch_results self m tasks) = length tasks.
Proof. apply length_imap. Qed.

Lemma foldl_add_Zsum {A} (f : A -> Z) (l : list A) (a : Z) :
  foldl (fun sum r => sum + f r) a l = a + Zsum (map f l).
Proof.
  revert a. induction l as [|x l IH]; intros a; simpl; [lia|].
  rewrite IH. lia.
Qed.

Lemma Zsum_filter {A} (P : A -> Prop) `{!forall x, Decision (P x)} (f : A -> Z) (l : list A) :
  (forall x, x ∈ l -> ~ P x -> f x = 0) ->
  Zsum (map f l) = Zsum (map f (filter P l)).
Proof.
  induction l as [|x l IH]; intros Hzero; [done|].
  assert (Zsum (map f l) = Zsum (map f (filter P l))) as Htail.
  { apply IH. intros y Hy. apply Hzero. by right. }
  destruct (decide (P x)) as [HP|HP].
  - rewrite filter_cons_True by done. simpl. by rewrite Htail.
  - rewrite filter_cons_False by done. simpl.
    rewrite (Hzero x) by (done || left). lia.
Qed.

Lemma batch_results_unsuccessful (self : BatchProcessor.t) (m : Machine)
    (tasks : list BatchTask.t) (r : BatchResult.t) :
  r ∈ batch_results self m tasks ->
  BatchResult.success r <> true ->
  BatchResult.usage r = zero_usage.
Proof.
  intros Hin Hfalse.
  apply list_elem_of_lookup_1 in Hin as [i Hi].
  unfold batch_results in Hi. rewrite list_lookup_imap in Hi.
  destruct (tasks !! i) as [task|]; [|done].
  simpl in Hi. injection Hi as <-.
  apply settle_task_unsuccessful. by destruct (BatchResult.success _).
Qed.

(** *** Events *)

Lemma outstanding_app (a b : list Event) (p : Z) :
  outstanding (a ++ b) p = outstanding b (outstanding a p).
Proof.
  revert p. induction a as [|[n|n] a IH]; intros p; simpl; by rewrite ?IH.
Qed.

Lemma outstanding_issued (calls : list nat) (p : Z) :
  outstanding (map CallIssued calls) p = p + Z.of_nat (length calls).
Proof.
  revert p. induction calls as [|n calls IH]; intros p; simpl; [lia|].
  rewrite IH. lia.
Qed.

Lemma outstanding_settled (calls : list nat) (p : Z) :
  outstanding (map CallSettled calls) p = p - Z.of_nat (length calls).
Proof.
  revert p. induction calls as [|n calls IH]; intros p; simpl; [lia|].
  rewrite IH. lia.
Qed.

Lemma group_events_length (m : Machine) (n : nat) (group : list BatchTask.t) :
  settles_all_calls m ->
  length (group_events m n group) = (length group + length group)%nat.
Proof.
  intros Hperm. unfold group_events.
  rewrite length_app, !length_map, (Permutation_length (Hperm _)), length_seq. done.
Qed.

(** Within a group, the calls outstanding are at most those of the
    group; once the group is over, none is. *)
Lemma group_events_prefix (m : Machine) (n : nat) (group : list BatchTask.t) (k : nat) :
  settles_all_calls m ->
  0 <= outstanding (take k (group_events m n group)) 0 <= Z.of_nat (length group).
Proof.
  intros Hperm. unfold group_events.
  rewrite take_app, outstanding_app.
  rewrite !firstn_map, outstanding_issued, outstanding_settled.
  rewrite !length_take, !length_map, (Permutation_length (Hperm _)), length_seq.
  lia.
Qed.

Lemma group_events_over (m : Machine) (n : nat) (group : list BatchTask.t) :
  settles_all_calls m ->
  outstanding (group_events m n group) 0 = 0.
Proof.
  intros Hperm. unfold group_events.
  rewrite outstanding_app, outstanding_issued, outstanding_settled.
  rewrite (Permutation_length (Hperm _)), length_seq. lia.
Qed.

Lemma groups_events_prefix (m : Machine) (C : Z) (groups : list (list BatchTask.t)) :
  settles_all_calls m ->
  0 <= C ->
  Forall (fun g => Z.of_nat (length g) <= C) groups ->
  forall (n k : nat),
    0 <= outstanding (take k (groups_events m n groups)) 0 <= C.
Proof.
  intros Hperm HC Hall. induction Hall as [|g groups Hg Hall IH]; intros n k.
  - simpl. rewrite take_nil. simpl. lia.
  - simpl. rewrite take_app, outstanding_app.
    destruct (Nat.le_gt_cases k (length (group_events m n g))) as [Hk|Hk].
    + replace (k - length (group_events m n g))%nat with 0%nat by lia.
      rewrite take_0. simpl.
      pose proof (group_events_prefix m n g k Hperm). lia.
    + rewrite (take_ge (group_events m n g)) by lia.
      rewrite group_events_over by done. apply IH.
Qed.

(** *** What a batch returns *)

(** C1. For every task list and every concurrency limit [C] (a limit is at
    least 1), [processBatch] returns, its results are as many as the
    tasks, and result [i] carries the id of task [i]: whatever the
    exchanges come to and in whatever order the calls settle. *)
Theorem processBatch_results_mirror_tasks (self : BatchProcessor.t)
    (tasks : list BatchTask.t) (C : Z) (fuel : nat) (m : Machine) :
  1 <= C ->
  (length tasks <= fuel)%nat ->
  exists results summary m',
    processBatch fuel self tasks (Some C) m = (Returns (results, summary), m') /\
    length results = length tasks /\
    forall i task,
      tasks !! i = Some task ->
      exists r, results !! i = Some r /\ BatchResult.id r = BatchTask.id task.
Proof.
  intros HC Hfuel.
  destruct (processBatch_spec self tasks (Some C) fuel m HC Hfuel)
    as (groups & _ & _ & _ & Hrun).
  eexists _, _, _. split; [exact Hrun|]. split.
  - apply batch_results_length.
  - intros i task Hi. eexists. split.
    + by apply batch_results_lookup.
    + apply settle_task_id.
Qed.

Lemma processBatch_results_mirror_tasks_witness :
  exists results summary m',
    processBatch 3 sample_processor sample_tasks (Some 2) sample_machine
    = (Returns (results, summary), m') /\
    length results = length sample_tasks /\
    forall i task,
      sample_tasks !! i = Some task ->
      exists r, results !! i = Some r /\ BatchResult.id r = BatchTask.id task.
Proof.
  apply (processBatch_results_mirror_tasks sample_processor sample_tasks 2 3 sample_machine).
  - lia.
  - simpl. lia.
Defined.

(** With a limit of 0 the loop never advances: no amount of fuel lets a
    non-empty batch return. *)
Remark processBatch_loop_stalls (self : MinimaxClient.t) (tasks : list BatchTask.t)
    (fuel : nat) (results : list BatchResult.t) (m : Machine) :
  tasks <> [] ->
  fst (processBatch_loop fuel self tasks 0 0 results m) = OutOfFuel.
Proof.
  intros Hne. revert results m.
  induction fuel as [|fuel IH]; intros results m; simpl.
  - destruct (Z.ltb_spec 0 (Z.of_nat (length tasks))); [done|].
    destruct tasks; [done|simpl in *; lia].
  - destruct (Z.ltb_spec 0 (Z.of_nat (length tasks))).
    + unfold bind. simpl. apply IH.
    + destruct tasks; [done|simpl in *; lia].
Qed.

(** C2. When the exchange of task [k] fails with [e], the batch still
    returns a result for every task: the one of task [k] is a failure
    carrying the message of [e], every task has the result of its own
    exchange under its own id, and the summary counts at least one
    failure. *)
Theorem gateway_failure_is_isolated (self : BatchProcessor.t)
    (tasks : list BatchTask.t) (C : Z) (fuel : nat) (m : Machine)
    (k : nat) (task : BatchTask.t) (e : JS.Thrown) :
  1 <= C ->
  (length tasks <= fuel)%nat ->
  tasks !! k = Some task ->
  gateway_fails (BatchProcessor.client self) m (calls_issued m + k) task e ->
  exists results summary m',
    processBatch fuel self tasks (Some C) m = (Returns (results, summary), m') /\
    results !! k
    = Some (BatchResult.mk (BatchTask.id task) "" zero_usage false
                           (Some (JS.error_message e))) /\
    length results = length tasks /\
    (forall i t,
       tasks !! i = Some t ->
       exists r,
         results !! i = Some r /\
         BatchResult.id r = BatchTask.id t /\
         r = settle_task (BatchProcessor.client self) m (calls_issued m) i t) /\
    1 <= BatchSummary.failed summary.
Proof.
  intros HC Hfuel Hk Hfail.
  destruct (processBatch_spec self tasks (Some C) fuel m HC Hfuel)
    as (groups & _ & _ & _ & Hrun).
  assert (Hres : batch_results self m tasks !! k
                 = Some (BatchResult.mk (BatchTask.id task) "" zero_usage false
                                        (Some (JS.error_message e)))).
  { rewrite (batch_results_lookup _ _ _ _ _ Hk). f_equal.
    by apply settle_task_failure. }
  eexists _, _, _. split; [exact Hrun|]. split; [exact Hres|]. split; [|split].
  - apply batch_results_length.
  - intros i t Hi. eexists. split; [by apply batch_results_lookup|].
    split; [apply settle_task_id|done].
  - unfold batch_summary. simpl.
    pose proof (length_filter_lt (fun r => BatchResult.success r = true)
                  (batch_results self m tasks) _
                  (list_elem_of_lookup_2 _ _ _ Hres)) as Hlt.
    rewrite batch_results_length in Hlt.
    assert ((length (filter (fun r => BatchResult.success r = true)
                       (batch_results self m tasks)) < length tasks)%nat)
      by (apply Hlt; simpl; congruence).
    lia.
Qed.

Lemma gateway_failure_is_isolated_witness :
  exists results summary m',
    processBatch 3 sample_processor sample_tasks (Some 2) sample_machine
    = (Returns (results, summary), m') /\
    results !! 1%nat
    = Some (BatchResult.mk "b" "" zero_usage false
              (Some "MiniMax API error 500: overloaded")) /\
    length results = length sample_tasks /\
    (forall i t,
       sample_tasks !! i = Some t ->
       exists r,
         results !! i = Some r /\
         BatchResult.id r = BatchTask.id t /\
         r = settle_task sample_client sample_machine 0 i t) /\
    1 <= BatchSummary.failed summary.
Proof.
  apply (gateway_failure_is_isolated sample_processor sample_tasks 2 3 sample_machine
           1 (sample_task "b") (JS.ErrorObject "MiniMax API error 500: overloaded")).
  - lia.
  - simpl. lia.
  - reflexivity.
  - reflexivity.
Defined.

(** C10. The result of a task whose exchange fails has the empty response
    and a usage of zero tokens in and zero tokens out; the token totals of
    the summary are those of the successful results alone, and the cost of
    the summary is the estimate for those totals. *)
Theorem failed_tasks_contribute_nothing (self : BatchProcessor.t)
    (tasks : list BatchTask.t) (C : Z) (fuel : nat) (m : Machine) :
  1 <= C ->
  (length tasks <= fuel)%nat ->
  exists results summary m',
    processBatch fuel self tasks (Some C) m = (Returns (results, summary), m') /\
    (forall k task e,
       tasks !! k = Some task ->
       gateway_fails (BatchProcessor.client self) m (calls_issued m + k) task e ->
       exists r,
         results !! k = Some r /\
         BatchResult.success r = false /\
         BatchResult.response r = "" /\
         BatchResult.usage r = MinimaxUsage.mk 0 0) /\
    let successes := filter (fun r => BatchResult.success r = true) results in
    let input := Zsum (map (fun r => MinimaxUsage.input_tokens (BatchResult.usage r)) successes) in
    let output := Zsum (map (fun r => MinimaxUsage.output_tokens (BatchResult.usage r)) successes) in
    BatchSummary.total_input_tokens summary = input /\
    BatchSummary.total_output_tokens summary = output /\
    BatchSummary.total_cost_usd summary = estimateCost (MinimaxUsage.mk input output).
Proof.
  intros HC Hfuel.
  destruct (processBatch_spec self tasks (Some C) fuel m HC Hfuel)
    as (groups & _ & _ & _ & Hrun).
  eexists _, _, _. split; [exact Hrun|]. split.
  - intros k task e Hk Hfail. eexists. split.
    + by apply batch_results_lookup.
    + by rewrite (settle_task_failure _ _ _ _ _ _ Hfail).
  - assert (Hin : forall f : MinimaxUsage.t -> Z,
               f zero_usage = 0 ->
               foldl (fun sum r => sum + f (BatchResult.usage r)) 0
                     (batch_results self m tasks)
               = Zsum (map (fun r => f (BatchResult.usage r))
                         (filter (fun r => BatchResult.success r = true)
                                 (batch_results self m tasks)))).
    { intros f Hf. rewrite foldl_add_Zsum, Z.add_0_l.
      apply (Zsum_filter (fun r => BatchResult.success r = true)).
      intros r Hr Hfalse.
      by rewrite (batch_results_unsuccessful self m tasks r Hr Hfalse). }
    unfold batch_summary. simpl.
    rewrite !Hin by done. done.
Qed.

Lemma failed_tasks_contribute_nothing_witness :
  exists results summary m',
    processBatch 3 sample_processor sample_tasks (Some 2) sample_machine
    = (Returns (results, summary), m') /\
    (forall k task e,
       sample_tasks !! k = Some task ->
       gateway_fails sample_client sample_machine (0 + k) task e ->
       exists r,
         results !! k = Some r /\
         BatchResult.success r = false /\
         BatchResult.response r = "" /\
         BatchResult.usage r = MinimaxUsage.mk 0 0) /\
    let successes := filter (fun r => BatchResult.success r = true) results in
    let input := Zsum (map (fun r => MinimaxUsage.input_tokens (BatchResult.usage r)) successes) in
    let output := Zsum (map (fun r => MinimaxUsage.output_tokens (BatchResult.usage r)) successes) in
    BatchSummary.total_input_tokens summary = input /\
    BatchSummary.total_output_tokens summary = output /\
    BatchSummary.total_cost_usd summary = estimateCost (MinimaxUsage.mk input output).
Proof.
  apply (failed_tasks_contribute_nothing sample_processor sample_tasks 2 3 sample_machine).
  - lia.
  - simpl. lia.
Defined.

(** C9. For every task list and every valid limit [C], the tasks are cut
    into consecutive groups of at most [C] tasks, group [j] being the [C]
    tasks from task [j * C] on; the calls of a group are issued and all
    settle before the next group starts; and after any number of the
    events of the batch, at most [C] of its calls are outstanding. *)
Theorem processBatch_bounded_concurrency (self : BatchProcessor.t)
    (tasks : list BatchTask.t) (C : Z) (fuel : nat) (m : Machine) :
  1 <= C ->
  (length tasks <= fuel)%nat ->
  settles_all_calls m ->
  exists groups out m',
    processBatch fuel self tasks (Some C) m = (Returns out, m') /\
    concat groups = tasks /\
    Forall (fun g => 1 <= Z.of_nat (length g) <= C) groups /\
    (forall j g,
       groups !! j = Some g ->
       g = take (Z.to_nat C) (drop (j * Z.to_nat C) tasks)) /\
    events m' = events m ++ groups_events m (calls_issued m) groups /\
    forall k,
      0 <= outstanding (take k (groups_events m (calls_issued m) groups)) 0 <= C.
Proof.
  intros HC Hfuel Hperm.
  destruct (processBatch_spec self tasks (Some C) fuel m HC Hfuel)
    as (groups & Hcat & Hall & Hcut & Hrun).
  exists groups. eexists _, _. split; [exact Hrun|].
  split; [done|]. split; [done|]. split; [exact Hcut|]. split; [done|].
  intros k. apply groups_events_prefix; [done|lia|].
  eapply Forall_impl; [exact Hall|]. simpl. intros g Hg. lia.
Qed.

Lemma processBatch_bounded_concurrency_witness :
  exists groups out m',
    processBatch 3 sample_processor sample_tasks (Some 2) sample_machine
    = (Returns out, m') /\
    concat groups = sample_tasks /\
    Forall (fun g => 1 <= Z.of_nat (length g) <= 2) groups /\
    (forall j g,
       groups !! j = Some g ->
       g = take (Z.to_nat 2) (drop (j * Z.to_nat 2) sample_tasks)) /\
    events m' = events sample_machine ++ groups_events sample_machine 0 groups /\
    forall k,
      0 <= outstanding (take k (groups_events sample_machine 0 groups)) 0 <= 2.
Proof.
  apply (processBatch_bounded_concurrency sample_processor sample_tasks 2 3 sample_machine).
  - lia.
  - simpl. lia.
  - intros calls. simpl. apply reverse_Permutation.
Defined.

(** ** The usage ledger *)

Lemma loadUsageData_spec (m : Machine) :
  loadUsageData m
  = match disk m with
    | Document doc => (Returns (loaded doc), m)
    | _ => (Returns (Whole (fresh_data (clock m (clock_reads m)))), tick m)
    end.
Proof.
  unfold loadUsageData, try_catch, bind, get_machine.
  destruct (disk m) as [e|e|e|doc]; try reflexivity.
  destruct doc as [[w totals [recent|] runs [provider|]]
                  |w [recent|] runs [provider|]
                  |totals [recent|] runs [provider|]]; reflexivity.
Qed.

(** The shape of the object a call starts from is that of the object the
    tracker holds, or else of the file. *)
Lemma whole_on_entry_held (m : Machine) (data : UsageData.t) :
  tracker_data m = Some (Whole data) -> whole_on_entry m.
Proof. unfold whole_on_entry, data_on_entry, object_on_entry. by intros ->. Qed.

Lemma whole_on_entry_same (m m' : Machine) :
  tracker_data m' = tracker_data m -> disk m' = disk m ->
  whole_on_entry m -> whole_on_entry m'.
Proof.
  unfold whole_on_entry, data_on_entry, object_on_entry. intros -> ->.
  destruct (tracker_data m) as [[data|w requests runs provider|totals requests runs provider]|];
    try done.
  destruct (disk m) as [e|e|e|[doc|w requests runs provider|totals requests runs provider]];
    done.
Qed.

Lemma whole_on_entry_tick (m : Machine) : whole_on_entry m -> whole_on_entry (tick m).
Proof. by apply whole_on_entry_same. Qed.

Lemma whole_on_entry_capped (m : Machine) : capped m -> whole_on_entry m.
Proof.
  intros [Hdata Hdisk]. unfold whole_on_entry, data_on_entry, object_on_entry.
  destruct (tracker_data m) as [obj|].
  - by destruct (Hdata obj eq_refl) as (data & -> & _).
  - destruct (disk m) as [e|e|e|obj]; try done.
    by destruct (Hdisk obj eq_refl) as (doc & -> & _).
Qed.

Lemma ensureLoaded_spec (m : Machine) :
  whole_on_entry m ->
  ensureLoaded m = (Returns (Whole (ensured_data m)), ensured_machine m).
Proof.
  unfold whole_on_entry. intros Hwhole.
  unfold ensureLoaded, bind at 1, get_machine.
  unfold ensured_machine, ensured_data, ensured_reads, expired_on_entry,
         window_on_entry, check_reading.
  unfold data_on_entry in *. unfold object_on_entry in *.
  destruct m as [clk reads fch calls compl evs dsk fault [obj|]]; simpl in *.
  - destruct obj as [data|w requests runs provider|totals requests runs provider];
      try discriminate Hwhole.
    unfold bind, ret, isWindowExpired, bind, Date_now. simpl.
    destruct (_ <=? _); reflexivity.
  - unfold bind at 1. unfold bind at 1. rewrite loadUsageData_spec. simpl.
    destruct dsk as [e|e|e|doc]; simpl in *;
      try (unfold bind, ret, isWindowExpired, bind, Date_now; simpl;
           destruct (_ <=? _); reflexivity).
    destruct doc as [doc|w requests runs provider|totals requests runs provider];
      try discriminate Hwhole.
    simpl. unfold bind, ret, isWindowExpired, bind, Date_now; simpl.
    destruct (_ <=? _); reflexivity.
Qed.

Lemma update_runs_spec (params : RecordParams.t) (runs : option (list PipelineRun.t))
    (m : Machine) :
  update_runs params runs m
  = (Returns (runs_after params runs (clock m) (clock_reads m)),
     mkMachine (clock m) (reads_after_runs params (clock_reads m)) (fetch m)
               (calls_issued m) (completion m) (events m) (disk m) (disk_fault m)
               (tracker_data m)).
Proof.
  unfold update_runs, runs_after, reads_after_runs.
  destruct m as [clk reads fch calls compl evs dsk fault data]; simpl.
  destruct (RecordParams.pipeline params); [|reflexivity].
  destruct (JS.truthy_opt _); reflexivity.
Qed.

Lemma recordRequest_spec (params : RecordParams.t) (m : Machine) :
  whole_on_entry m ->
  recordRequest params m
  = (match disk_fault m with Some e => Throws e | None => Returns tt end,
     recorded_machine params m).
Proof.
  intros Hwhole.
  unfold recordRequest, bind at 1. rewrite ensureLoaded_spec by done.
  cbn [bind Date_now modify property ret getTodayDate
       window_of totals_of requests_of pipeline_runs_of
       with_requests with_window with_totals with_pipeline_runs].
  unfold bind at 1. rewrite update_runs_spec.
  unfold recorded_machine, recorded_data, saveUsageData, bind, modify. simpl.
  destruct (disk_fault m); reflexivity.
Qed.

Lemma getRemainingPrompts_spec (m : Machine) :
  whole_on_entry m ->
  getRemainingPrompts m
  = (Returns (Z.max 0 (MAX_PROMPTS_PER_WINDOW
                       - UsageWindow.prompt_count (UsageData.current_window (ensured_data m)))),
     ensured_machine m).
Proof.
  intros Hwhole. unfold getRemainingPrompts, bind. by rewrite ensureLoaded_spec.
Qed.

Lemma push_capped_kept_newest {A} (cap : Z) (l : list A) (x : A) :
  0 < cap ->
  kept_newest (Z.to_nat cap) l x (push_capped cap l x).
Proof.
  intros Hcap. eexists. split.
  - by apply push_capped_evicts_oldest.
  - rewrite push_capped_spec by done. rewrite length_drop, !length_app.
    change (length [x]) with 1%nat. lia.
Qed.

(** Updating the entry just pushed, where it stands after the cap, is
    pushing the updated entry. *)
Lemma push_capped_update_last {A} (cap : Z) (l : list A) (x y : A) :
  0 < cap ->
  <[pred (length (push_capped cap l x)) := y]> (push_capped cap l x)
  = push_capped cap l y.
Proof.
  intros Hcap. rewrite !push_capped_spec by done.
  rewrite !length_app. simpl.
  rewrite !drop_app_le by lia.
  rewrite length_app. simpl.
  replace (pred (length (drop (length l + 1 - Z.to_nat cap) l) + 1))
    with (length (drop (length l + 1 - Z.to_nat cap) l) + 0)%nat by lia.
  by rewrite insert_app_r.
Qed.

Lemma update_daily_found (params : RecordParams.t) (today : Z)
    (totals : list DailyTotal.t) (k : nat) (entry : DailyTotal.t) :
  list_find (fun d => DailyTotal.date d = today) totals = Some (k, entry) ->
  update_daily params today totals = <[k := add_to_daily params entry]> totals.
Proof. unfold update_daily. by intros ->. Qed.

Lemma update_daily_new (params : RecordParams.t) (today : Z) (totals : list DailyTotal.t) :
  list_find (fun d => DailyTotal.date d = today) totals = None ->
  update_daily params today totals
  = push_capped 30 totals (add_to_daily params (DailyTotal.mk today 0 0 0 0%Q)).
Proof.
  unfold update_daily. intros ->. by apply push_capped_update_last.
Qed.

Lemma update_daily_length (params : RecordParams.t) (today : Z) (totals : list DailyTotal.t) :
  (length totals <= 30)%nat ->
  (length (update_daily params today totals) <= 30)%nat.
Proof.
  intros Hlen.
  destruct (list_find (fun d => DailyTotal.date d = today) totals) as [[k entry]|] eqn:Hfind.
  - rewrite (update_daily_found _ _ _ _ _ Hfind), length_insert. done.
  - rewrite (update_daily_new _ _ _ Hfind).
    by apply (push_capped_length 30).
Qed.

Lemma runs_after_length (params : RecordParams.t) (runs : option (list PipelineRun.t))
    (clk : nat -> Z) (r : nat) :
  (length (default [] runs) <= 10)%nat ->
  (length (default [] (runs_after params runs clk r)) <= 10)%nat.
Proof.
  intros Hlen. unfold runs_after.
  destruct (RecordParams.pipeline params); [|done].
  destruct (JS.truthy_opt _); [|done].
  simpl. by apply (push_capped_length 10).
Qed.

Lemma within_caps_fresh (now : Z) : within_caps (fresh_data now).
Proof. unfold within_caps. simpl. lia. Qed.

Lemma within_caps_upgraded (doc : UsageData.t) :
  within_caps doc -> within_caps (upgraded doc).
Proof. unfold within_caps. by destruct doc as [w totals [recent|] runs provider]. Qed.

Lemma within_caps_on_entry (m : Machine) :
  capped m -> within_caps (data_on_entry m).
Proof.
  intros [Hdata Hdisk]. unfold data_on_entry, object_on_entry.
  destruct (tracker_data m) as [obj|].
  - by destruct (Hdata obj eq_refl) as (data & -> & Hcaps).
  - destruct (disk m) as [e|e|e|obj]; try apply within_caps_fresh.
    destruct (Hdisk obj eq_refl) as (doc & -> & Hcaps).
    by apply within_caps_upgraded.
Qed.

Lemma within_caps_ensured (m : Machine) :
  capped m -> within_caps (ensured_data m).
Proof.
  intros Hm. apply within_caps_on_entry in Hm. unfold ensured_data.
  by destruct (expired_on_entry m).
Qed.

Lemma within_caps_recorded (params : RecordParams.t) (m : Machine) :
  capped m -> within_caps (recorded_data params m).
Proof.
  intros Hm. apply within_caps_ensured in Hm. destruct Hm as (_ & Hdaily & Hruns).
  unfold within_caps, recorded_data. simpl. split; [|split].
  - by apply (push_capped_length 200).
  - by apply update_daily_length.
  - by apply runs_after_length.
Qed.

Lemma reachable_capped (m : Machine) : reachable m -> capped m.
Proof.
  induction 1 as [m Hnone Hdisk|m params _ IH|m _ IH|m _ IH|m fault _ IH].
  - split; [|done]. intros obj Hobj. congruence.
  - rewrite recordRequest_spec by (by apply whole_on_entry_capped). simpl. split.
    + intros obj [= <-]. eexists. split; [reflexivity|]. by apply within_caps_recorded.
    + unfold recorded_machine. simpl. destruct (disk_fault m).
      * apply IH.
      * intros obj [= <-]. eexists. split; [reflexivity|].
        by apply within_caps_recorded.
  - rewrite getRemainingPrompts_spec by (by apply whole_on_entry_capped). simpl. split.
    + intros obj [= <-]. eexists. split; [reflexivity|]. by apply within_caps_ensured.
    + apply IH.
  - split; [done|]. apply IH.
  - exact IH.
Qed.

(** *** Strings *)

Lemma string_prefix_length (n : nat) (s : string) :
  String.length (JS.string_prefix n s) = Nat.min n (String.length s).
Proof.
  unfold JS.string_prefix. revert n.
  induction s as [|c s IH]; intros [|n]; simpl; try done.
  by rewrite IH.
Qed.

Lemma append_length (s1 s2 : string) :
  String.length (s1 +:+ s2) = (String.length s1 + String.length s2)%nat.
Proof. induction s1 as [|c s1 IH]; simpl; [done|]. by rewrite IH. Qed.

Lemma logged_error_length (e : string) :
  (String.length (logged_error e) <= 503)%nat.
Proof.
  unfold logged_error. destruct (Nat.ltb_spec 500 (String.length e)).
  - rewrite append_length, string_prefix_length.
    change (String.length "...") with 3%nat. lia.
  - lia.
Qed.

Lemma truncate_error_set (e : string) :
  e <> "" -> truncate_error (Some e) = Some (logged_error e).
Proof.
  intros He. unfold truncate_error, JS.truthy.
  apply String.eqb_neq in He. by rewrite He.
Qed.

(** *** Loading *)

(** An object without its window stops every call into the tracker
    where the window is checked, and stays in the tracker. *)
Lemma ensureLoaded_windowless (m : Machine) :
  has_window (object_on_entry m) = false ->
  ensureLoaded m = (Throws (type_error "window_end"), stuck_machine m).
Proof.
  unfold has_window, stuck_machine, check_reading, object_on_entry. intros Hnone.
  unfold ensureLoaded, bind at 1, get_machine.
  destruct m as [clk reads fch calls compl evs dsk fault [obj|]]; simpl in *.
  - by destruct obj.
  - unfold bind at 1. unfold bind at 1. rewrite loadUsageData_spec. simpl.
    destruct dsk as [e|e|e|doc]; simpl in *; try done.
    by destruct doc.
Qed.

Lemma stuck_machine_windowless (m : Machine) :
  has_window (object_on_entry m) = false ->
  has_window (object_on_entry (stuck_machine m)) = false.
Proof. done. Qed.

(** An object with its window lets the check of the window through,
    whatever else it lacks. *)
Lemma ensureLoaded_windowed (m : Machine) :
  has_window (object_on_entry m) = true ->
  exists obj m',
    ensureLoaded m = (Returns obj, m') /\
    tracker_data m' = Some obj /\
    disk m' = disk m /\
    has_window obj = true.
Proof.
  unfold has_window, object_on_entry. intros Hsome.
  unfold ensureLoaded, bind at 1, get_machine.
  destruct m as [clk reads fch calls compl evs dsk fault [obj|]]; simpl in *.
  - destruct obj as [data|w requests runs provider|totals requests runs provider];
      try done;
      unfold bind, ret, isWindowExpired, bind, Date_now; simpl;
      destruct (_ <=? _); by eexists _, _.
  - unfold bind at 1. unfold bind at 1. rewrite loadUsageData_spec. simpl.
    destruct dsk as [e|e|e|[data|w requests runs provider|totals requests runs provider]];
      simpl in *; try done;
      unfold bind, ret, isWindowExpired, bind, Date_now; simpl;
      destruct (_ <=? _); by eexists _, _.
Qed.

(** C7, as the code has it.  Loading does not fail: an object comes back
    with what it has of window, daily totals and pipeline runs, with its
    request log or else the empty log, and with its provider or else the
    default one; a file that is missing, malformed or not an object gives
    a ledger that starts from nothing: a window opened now with zero
    counters, and empty logs.  Where the object the tracker holds, or else
    the one of the file, has its window, the first access to the tracker
    returns as well. *)
Theorem loading_is_never_fatal (m : Machine) :
  has_window (object_on_entry m) = true ->
  exists obj m',
    loadUsageData m = (Returns obj, m') /\
    match disk m with
    | Document doc =>
        window_of obj = window_of doc /\
        totals_of obj = totals_of doc /\
        pipeline_runs_of obj = pipeline_runs_of doc /\
        requests_of obj = Some (default [] (requests_of doc)) /\
        provider_of obj
        = Some (default (Provider.mk "minimax-m2.5" PRICING.input_per_million
                                     PRICING.output_per_million)
                        (provider_of doc))
    | Unreadable _ | Unparseable _ | NonObject _ =>
        let now := clock m (clock_reads m) in
        obj = Whole
                (UsageData.mk (UsageWindow.mk now (now + WINDOW_DURATION_MS) 0 0 0 0%Q)
                              [] (Some []) None
                              (Some (Provider.mk "minimax-m2.5" PRICING.input_per_million
                                                 PRICING.output_per_million)))
    end /\
    exists obj1 m1,
      ensureLoaded m = (Returns obj1, m1) /\
      tracker_data m1 = Some obj1 /\
      has_window obj1 = true.
Proof.
  intros Hwindow. rewrite loadUsageData_spec.
  destruct (ensureLoaded_windowed m Hwindow) as (obj1 & m1 & Hrun & Hheld & _ & Hhas).
  destruct (disk m) as [e|e|e|doc]; eexists _, _; (split; [reflexivity|]);
    (split; [|by eexists _, _]); try reflexivity.
  by destruct doc.
Qed.

Lemma loading_is_never_fatal_witness :
  let doc :=
    UsageData.mk (UsageWindow.mk 1699985600000 1700003600000 997 52000 9100 0%Q) []
                 None None None in
  exists obj m1,
    fst (loadUsageData (with_disk (Document (Whole doc)) sample_machine))
    = Returns obj /\
    window_of obj = Some (UsageData.current_window doc) /\
    requests_of obj = Some [] /\
    fst (ensureLoaded (with_disk (Document (Whole doc)) sample_machine))
    = Returns obj /\
    tracker_data m1 = Some obj.
Proof.
  intros doc.
  destruct (loading_is_never_fatal (with_disk (Document (Whole doc)) sample_machine))
    as (obj & m' & Hload & (Hwindow & _ & _ & Hrequests & _) & _); [reflexivity|].
  exists obj, (with_tracker (Some obj) sample_machine).
  split; [by rewrite Hload|]. split; [exact Hwindow|]. split; [exact Hrequests|].
  injection Hload as <- _. split; reflexivity.
Defined.

(** C7, as stated, fails for a file that holds [{}]: the object is
    returned as it is, with the empty log and the default provider filled
    in and no window, which is not the state of a ledger that starts from
    nothing; the first call into the tracker throws where the window is
    checked, and so does every call after it, a quota check or a record,
    and the file is left as it is. *)
Lemma empty_object_is_fatal :
  let m := with_disk (Document (NoWindow None None None None)) sample_machine in
  let e := JS.ErrorObject "Cannot read properties of undefined (reading 'window_end')" in
  fst (loadUsageData m) = Returns (NoWindow None (Some []) None (Some default_provider)) /\
  exists m1 m2 m3,
    ensureLoaded m = (Throws e, m1) /\
    getRemainingPrompts m1 = (Throws e, m2) /\
    recordRequest sample_failure m2 = (Throws e, m3) /\
    disk m3 = disk m.
Proof.
  intros m e. split; [reflexivity|].
  eexists _, _, _. split; [reflexivity|]. split; [reflexivity|].
  split; reflexivity.
Qed.

(** The scenario of a document that holds a window and daily totals and
    nothing else. *)
Example load_minimal_document (w : UsageWindow.t) (totals : list DailyTotal.t) :
  fst (loadUsageData
         (with_disk (Document (Whole (UsageData.mk w totals None None None)))
                    sample_machine))
  = Returns (Whole (UsageData.mk w totals (Some []) None (Some default_provider))).
Proof. reflexivity. Qed.

(** *** The window *)

(** C3. A record made while the window has not expired adds exactly
    [taskCount] to its prompt count and leaves the window in place; a
    record or a quota check made once the end of the window has passed
    first replaces the window by one opened at the next reading of the
    clock, with a prompt count of 0 and an end [WINDOW_DURATION_MS]
    later.  The call starts from an object that has its window and its
    daily totals. *)
Theorem window_counts_and_rotates (m : Machine) (params : RecordParams.t) :
  whole_on_entry m ->
  let w := window_on_entry m in
  let now := clock m (S (check_reading m)) in
  exists recorded checked remaining m',
    tracker_data (snd (recordRequest params m)) = Some (Whole recorded) /\
    getRemainingPrompts m = (Returns remaining, m') /\
    tracker_data m' = Some (Whole checked) /\
    if UsageWindow.window_end w <=? clock m (check_reading m) then
      UsageData.current_window checked
      = UsageWindow.mk now (now + WINDOW_DURATION_MS) 0 0 0 0%Q /\
      remaining = MAX_PROMPTS_PER_WINDOW /\
      UsageData.current_window recorded
      = add_to_window params (UsageWindow.mk now (now + WINDOW_DURATION_MS) 0 0 0 0%Q) /\
      UsageWindow.prompt_count (UsageData.current_window recorded)
      = 0 + RecordParams.taskCount params /\
      UsageWindow.window_end (UsageData.current_window recorded) = now + WINDOW_DURATION_MS
    else
      UsageData.current_window checked = w /\
      UsageWindow.prompt_count (UsageData.current_window recorded)
      = UsageWindow.prompt_count w + RecordParams.taskCount params /\
      UsageWindow.window_start (UsageData.current_window recorded)
      = UsageWindow.window_start w /\
      UsageWindow.window_end (UsageData.current_window recorded)
      = UsageWindow.window_end w.
Proof.
  intros Hwhole w now.
  rewrite recordRequest_spec, getRemainingPrompts_spec by done.
  eexists _, _, _, _. split; [reflexivity|]. split; [reflexivity|].
  split; [reflexivity|].
  unfold recorded_data, ensured_data, expired_on_entry. fold w.
  destruct (UsageWindow.window_end w <=? clock m (check_reading m)); simpl.
  - repeat split; reflexivity.
  - repeat split; reflexivity.
Qed.

Lemma window_counts_and_rotates_witness :
  let w := window_on_entry sample_ledger_machine in
  exists recorded checked remaining m',
    tracker_data (snd (recordRequest sample_failure sample_ledger_machine))
    = Some (Whole recorded) /\
    getRemainingPrompts sample_ledger_machine = (Returns remaining, m') /\
    tracker_data m' = Some (Whole checked) /\
    UsageData.current_window checked = w /\
    UsageWindow.prompt_count (UsageData.current_window recorded)
    = UsageWindow.prompt_count w + RecordParams.taskCount sample_failure /\
    UsageWindow.window_start (UsageData.current_window recorded)
    = UsageWindow.window_start w /\
    UsageWindow.window_end (UsageData.current_window recorded)
    = UsageWindow.window_end w.
Proof.
  apply (window_counts_and_rotates sample_ledger_machine sample_failure).
  reflexivity.
Defined.

(** *** The rolling collections *)

Lemma update_daily_length_any (params : RecordParams.t) (today : Z)
    (totals : list DailyTotal.t) :
  (length (update_daily params today totals) <= Nat.max 30 (length totals))%nat.
Proof.
  destruct (list_find (fun d => DailyTotal.date d = today) totals) as [[k entry]|] eqn:Hfind.
  - rewrite (update_daily_found _ _ _ _ _ Hfind), length_insert. lia.
  - rewrite (update_daily_new _ _ _ Hfind).
    pose proof (push_capped_length 30 totals
                  (add_to_daily params (DailyTotal.mk today 0 0 0 0%Q)) eq_refl) as Hcap.
    change (Z.to_nat 30) with 30%nat in Hcap. lia.
Qed.

Lemma runs_after_length_any (params : RecordParams.t) (runs : option (list PipelineRun.t))
    (clk : nat -> Z) (r : nat) :
  (length (default [] (runs_after params runs clk r))
   <= Nat.max 10 (length (default [] runs)))%nat.
Proof.
  unfold runs_after.
  destruct (RecordParams.pipeline params) as [pipeline|]; [|lia].
  destruct (JS.truthy_opt _); [|lia].
  pose proof (push_capped_length 10 (default [] runs)
                (new_run params pipeline (clk r) (clk (S r)) (clk (S (S r)))) eq_refl)
    as Hcap.
  change (Z.to_nat 10) with 10%nat in Hcap.
  change (default [] (Some ?l)) with l. lia.
Qed.

(** C5. In every reachable ledger the three collections are within their
    caps, and after every record made there the request log has at most
    200 entries, the daily totals at most 30 and the pipeline runs at
    most 10.  Each append keeps the newest entries, the one appended among
    them: what is dropped is dropped from the front.  The request log is
    appended to by every record.  The daily totals are appended to when
    no entry has the date of the record, and otherwise nothing is dropped
    and the first entry of that date is updated where it stands.  The
    pipeline runs are appended to when the record has a pipeline and a
    caller, and otherwise left as they are.  The caps are enforced where
    entries are appended: from a ledger of any size, the request log has at
    most 200 entries after a record, and the other two collections have
    at most their cap or else no more entries than before. *)
Theorem rolling_collections_stay_capped (m : Machine) (params : RecordParams.t) :
  whole_on_entry m ->
  exists data',
    tracker_data (snd (recordRequest params m)) = Some (Whole data') /\
    let data := ensured_data m in
    let r := ensured_reads m in
    let today := clock m (S r) / MS_PER_DAY in
    (length (default [] (UsageData.recent_requests data')) <= 200)%nat /\
    (length (UsageData.daily_totals data')
     <= Nat.max 30 (length (UsageData.daily_totals data)))%nat /\
    (length (default [] (UsageData.pipeline_runs data'))
     <= Nat.max 10 (length (default [] (UsageData.pipeline_runs data))))%nat /\
    kept_newest 200 (default [] (UsageData.recent_requests data))
                (new_request_log params (clock m r))
                (default [] (UsageData.recent_requests data')) /\
    ((exists k entry,
        UsageData.daily_totals data !! k = Some entry /\
        DailyTotal.date entry = today /\
        (forall j earlier,
           UsageData.daily_totals data !! j = Some earlier -> (j < k)%nat ->
           DailyTotal.date earlier <> today) /\
        UsageData.daily_totals data'
        = <[k := add_to_daily params entry]> (UsageData.daily_totals data)) \/
     ((forall entry,
         entry ∈ UsageData.daily_totals data -> DailyTotal.date entry <> today) /\
      kept_newest 30 (UsageData.daily_totals data)
                  (add_to_daily params (DailyTotal.mk today 0 0 0 0%Q))
                  (UsageData.daily_totals data'))) /\
    match RecordParams.pipeline params with
    | Some pipeline =>
        if JS.truthy_opt (RecordParams.caller params)
        then kept_newest 10 (default [] (UsageData.pipeline_runs data))
                         (new_run params pipeline (clock m (S (S r)))
                                  (clock m (S (S (S r)))) (clock m (S (S (S (S r))))))
                         (default [] (UsageData.pipeline_runs data'))
        else UsageData.pipeline_runs data' = UsageData.pipeline_runs data
    | None => UsageData.pipeline_runs data' = UsageData.pipeline_runs data
    end /\
    (reachable m ->
     (forall obj, tracker_data m = Some obj ->
                  exists held, obj = Whole held /\ within_caps held) /\
     within_caps data /\
     (length (UsageData.daily_totals data') <= 30)%nat /\
     (length (default [] (UsageData.pipeline_runs data')) <= 10)%nat).
Proof.
  intros Hwhole. rewrite recordRequest_spec by done. simpl.
  eexists. split; [reflexivity|].
  unfold recorded_data. simpl.
  split; [by apply (push_capped_length 200)|].
  split; [apply update_daily_length_any|].
  split; [apply runs_after_length_any|].
  split; [by apply (push_capped_kept_newest 200)|].
  split.
  { destruct (list_find
                (fun d => DailyTotal.date d
                          = clock m (S (ensured_reads m)) / MS_PER_DAY)
                (UsageData.daily_totals (ensured_data m))) as [[k entry]|] eqn:Hfind.
    - left. rewrite (update_daily_found _ _ _ _ _ Hfind).
      apply list_find_Some in Hfind as (Hk & Hdate & Hfirst).
      exists k, entry. split; [exact Hk|]. split; [exact Hdate|]. split; [|reflexivity].
      intros j earlier Hj Hlt. by apply (Hfirst j).
    - right. rewrite (update_daily_new _ _ _ Hfind). split.
      + apply list_find_None in Hfind. intros entry Hin.
        by apply (proj1 (Forall_forall _ _) Hfind).
      + by apply (push_capped_kept_newest 30). }
  split.
  { unfold runs_after. destruct (RecordParams.pipeline params); [|done].
    destruct (JS.truthy_opt _); [|done].
    simpl. by apply (push_capped_kept_newest 10). }
  intros Hreach. apply reachable_capped in Hreach as Hcap.
  split; [apply Hcap|].
  split; [by apply within_caps_ensured|].
  pose proof (within_caps_recorded params m Hcap) as (_ & Hdaily & Hruns).
  split; [exact Hdaily|exact Hruns].
Qed.

Lemma rolling_collections_stay_capped_witness :
  exists data',
    tracker_data (snd (recordRequest sample_failure sample_ledger_machine))
    = Some (Whole data') /\
    (length (default [] (UsageData.recent_requests data')) <= 200)%nat /\
    UsageData.pipeline_runs data'
    = UsageData.pipeline_runs (ensured_data sample_ledger_machine).
Proof.
  destruct (rolling_collections_stay_capped sample_ledger_machine sample_failure)
    as (data' & Hheld & Hrecent & _ & _ & _ & _ & Hsame & _); [reflexivity|].
  exists data'. split; [exact Hheld|]. split; [exact Hrecent|exact Hsame].
Defined.

(** *** Failed requests *)

(** C6, as the code has it.  A record whose error is a non-empty text is
    carried out in full: the prompt count of the current window grows by
    the [taskCount] supplied, and the entry appended to the request log
    keeps the error text, whole when it has at most 500 characters and
    otherwise cut to 500 characters followed by ["..."].
    The call starts from an object that has its window and its daily
    totals. *)
Theorem failed_request_is_recorded (m : Machine) (params : RecordParams.t) (e : string) :
  whole_on_entry m ->
  RecordParams.error params = Some e ->
  e <> "" ->
  exists data' entry,
    tracker_data (snd (recordRequest params m)) = Some (Whole data') /\
    UsageWindow.prompt_count (UsageData.current_window data')
    = UsageWindow.prompt_count (UsageData.current_window (ensured_data m))
      + RecordParams.taskCount params /\
    last (default [] (UsageData.recent_requests data')) = Some entry /\
    RequestLog.task_count entry = RecordParams.taskCount params /\
    RequestLog.error entry
    = Some (if (500 <? String.length e)%nat
            then JS.string_prefix 500 e +:+ "..."
            else e) /\
    (String.length (logged_error e) <= 503)%nat.
Proof.
  intros Hwhole He Hne. rewrite recordRequest_spec by done. simpl.
  eexists _, _. split; [reflexivity|].
  unfold recorded_data. simpl. split; [reflexivity|]. split.
  - by apply (push_capped_last 200).
  - simpl. split; [reflexivity|]. split.
    + rewrite He. by apply truncate_error_set.
    + apply logged_error_length.
Qed.

Lemma failed_request_is_recorded_witness :
  exists data' entry,
    tracker_data (snd (recordRequest sample_failure sample_ledger_machine)) = Some (Whole data') /\
    UsageWindow.prompt_count (UsageData.current_window data')
    = UsageWindow.prompt_count (UsageData.current_window (ensured_data sample_ledger_machine))
      + RecordParams.taskCount sample_failure /\
    last (default [] (UsageData.recent_requests data')) = Some entry /\
    RequestLog.task_count entry = RecordParams.taskCount sample_failure /\
    RequestLog.error entry
    = Some (if (500 <? String.length "MiniMax API error 500: overloaded")%nat
            then JS.string_prefix 500 "MiniMax API error 500: overloaded" +:+ "..."
            else "MiniMax API error 500: overloaded") /\
    (String.length (logged_error "MiniMax API error 500: overloaded") <= 503)%nat.
Proof.
  apply (failed_request_is_recorded sample_ledger_machine sample_failure
           "MiniMax API error 500: overloaded").
  - reflexivity.
  - reflexivity.
  - discriminate.
Defined.

(** C6, as stated, fails for an error that is the empty text: the record
    is carried out, and the entry it appends has no error. *)
Lemma empty_error_is_not_logged :
  let params := failure_record type_query 12 None "" in
  RecordParams.error params = Some "" /\
  exists data' entry,
    tracker_data (snd (recordRequest params sample_ledger_machine)) = Some (Whole data') /\
    last (default [] (UsageData.recent_requests data')) = Some entry /\
    RequestLog.error entry = None.
Proof.
  intros params. split; [reflexivity|].
  rewrite recordRequest_spec by reflexivity.
  eexists _, _. split; [reflexivity|]. split; reflexivity.
Qed.

(** *** The quota gate *)

(** C4, as the code has it.  When the quota check leaves fewer prompts
    than the batch has tasks, the tool answers with an error whose message
    gives the prompts remaining and the number requested, and the machine
    is left as the quota check left it: no call was issued to the remote
    model, for no task of the batch, nothing was recorded and the usage
    file was not written.
    The call starts from an object that has its window and its daily
    totals. *)
Theorem oversized_batch_is_refused (fuel : nat) (server : Server.t)
    (batchProcessor : BatchProcessor.t) (args : BatchArgs.t) (m : Machine)
    (remaining : Z) (m1 : Machine) :
  whole_on_entry m ->
  Server.batchProcessor server = Some batchProcessor ->
  getRemainingPrompts (tick m) = (Returns remaining, m1) ->
  remaining < Z.of_nat (length (BatchArgs.tasks args)) ->
  llm_batch fuel server args m
  = (Returns
       (ToolResult.mk
          (Message
             ("Rate limit: Only " +:+ JS.string_of_Z remaining
              +:+ " prompts remaining but "
              +:+ JS.string_of_Z (Z.of_nat (length (BatchArgs.tasks args)))
              +:+ " requested. Reduce batch size or wait for window reset."))
          true),
     m1) /\
  calls_issued m1 = calls_issued m /\
  events m1 = events m /\
  disk m1 = disk m /\
  tracker_data m1 = Some (Whole (ensured_data (tick m))).
Proof.
  intros Hwhole Hbp Hrem Hlt. split.
  - unfold llm_batch, bind at 1, Date_now at 1. rewrite Hbp.
    unfold try_catch, bind at 1. rewrite Hrem.
    apply Z.ltb_lt in Hlt. rewrite Hlt. reflexivity.
  - rewrite getRemainingPrompts_spec in Hrem by (by apply whole_on_entry_tick).
    injection Hrem as _ <-.
    repeat split; reflexivity.
Qed.

Lemma oversized_batch_is_refused_witness :
  llm_batch 5 sample_server (BatchArgs.mk five_tasks None None None) sample_ledger_machine
  = (Returns
       (ToolResult.mk
          (Message
             ("Rate limit: Only " +:+ JS.string_of_Z 3
              +:+ " prompts remaining but "
              +:+ JS.string_of_Z (Z.of_nat (length five_tasks))
              +:+ " requested. Reduce batch size or wait for window reset."))
          true),
     ensured_machine (tick sample_ledger_machine)) /\
  calls_issued (ensured_machine (tick sample_ledger_machine))
  = calls_issued sample_ledger_machine /\
  events (ensured_machine (tick sample_ledger_machine)) = events sample_ledger_machine /\
  disk (ensured_machine (tick sample_ledger_machine)) = disk sample_ledger_machine /\
  tracker_data (ensured_machine (tick sample_ledger_machine))
  = Some (Whole (ensured_data (tick sample_ledger_machine))).
Proof.
  apply (oversized_batch_is_refused 5 sample_server sample_processor
           (BatchArgs.mk five_tasks None None None) sample_ledger_machine 3
           (ensured_machine (tick sample_ledger_machine))).
  - reflexivity.
  - reflexivity.
  - reflexivity.
  - simpl. lia.
Defined.

(** C4, as stated, fails on the scenario of the specification: with 3
    prompts remaining and 5 tasks requested the batch is refused, and the
    message gives 3 and 5 but not the shortfall of 2. *)
Lemma refusal_does_not_name_shortfall :
  let args := BatchArgs.mk five_tasks None None None in
  fst (getRemainingPrompts (tick sample_ledger_machine)) = Returns 3 /\
  length (BatchArgs.tasks args) = 5%nat /\
  exists text,
    fst (llm_batch 5 sample_server args sample_ledger_machine)
    = Returns (ToolResult.mk (Message text) true) /\
    text = "Rate limit: Only 3 prompts remaining but 5 requested. Reduce batch size or wait for window reset." /\
    JS.includes text (JS.string_of_Z (5 - 3)) = false.
Proof.
  intros args. split; [reflexivity|]. split; [reflexivity|].
  eexists. split; [reflexivity|]. split; reflexivity.
Qed.

(** The failure path of [llm_query]: when the call to the remote model
    throws, the failure is recorded with a task count of 0, no tokens, no
    cost, and the message of what was thrown, and the tool answers with
    an error carrying that message. *)
Lemma llm_query_records_failure (server : Server.t) (client : MinimaxClient.t)
    (args : QueryArgs.t) (m m1 m2 : Machine) (remaining : Z) (e : JS.Thrown) :
  whole_on_entry m ->
  Server.client server = Some client ->
  getRemainingPrompts (tick m) = (Returns remaining, m1) ->
  0 < remaining ->
  query client (QueryArgs.prompt args)
        (Some (QueryOptions.mk (QueryArgs.system args) (QueryArgs.max_tokens args)
                               (QueryArgs.temperature args))) m1
  = (Throws e, m2) ->
  let params :=
    RecordParams.mk type_query 0 0 0 0%Q
                    (clock m2 (clock_reads m2) - clock m (clock_reads m))
                    (QueryArgs.caller args) (Some (JS.error_message e)) None None in
  llm_query server args m
  = (match disk_fault m2 with
     | Some e' => Throws e'
     | None =>
         Returns (ToolResult.mk (Message ("MiniMax API error: " +:+ JS.error_message e)) true)
     end,
     recorded_machine params (tick m2)).
Proof.
  intros Hwhole Hclient Hrem Hpos Hquery params.
  assert (Hwhole2 : whole_on_entry (tick m2)).
  { pose proof Hrem as Hm1.
    rewrite getRemainingPrompts_spec in Hm1 by (by apply whole_on_entry_tick).
    injection Hm1 as _ Hm1.
    assert (Hm2 : m2 = after_call m1).
    { unfold query in Hquery. destruct (query_settle _ _); by injection Hquery as _ <-. }
    rewrite Hm2, <- Hm1. reflexivity. }
  unfold llm_query, bind at 1, Date_now at 1. rewrite Hclient.
  unfold try_catch, bind at 1. rewrite Hrem.
  destruct (Z.leb_spec remaining 0) as [|_]; [lia|].
  unfold bind at 1. rewrite Hquery.
  unfold bind at 1, Date_now at 1. unfold bind at 1, failure_record.
  fold params. rewrite recordRequest_spec by done. simpl.
  destruct (disk_fault m2); reflexivity.
Qed.

(** *** A batch from end to end *)

(** Three tasks, two at a time, on a machine whose second exchange is
    refused: the tool answers with three results and a summary of two
    successes and one failure, 998 prompts remain, and the ledger holds a
    window with two prompts and one request, marked with one failure. *)
Example llm_batch_sample_run :
  match llm_batch 3 sample_server
          (BatchArgs.mk sample_tasks (Some 2) (Some "copus:review") None)
          sample_machine with
  | (Returns (ToolResult.mk (BatchJson out) false), m') =>
      map BatchResult.id (BatchOutput.results out) = ["a"; "b"; "c"] /\
      map BatchResult.success (BatchOutput.results out) = [true; false; true] /\
      BatchSummary.total_tasks (BatchOutput.summary out) = 3 /\
      BatchSummary.succeeded (BatchOutput.summary out) = 2 /\
      BatchSummary.failed (BatchOutput.summary out) = 1 /\
      BatchSummary.total_input_tokens (BatchOutput.summary out) = 240 /\
      BatchOutput.prompts_remaining out = 998 /\
      calls_issued m' = 3%nat /\
      match tracker_data m' with
      | Some (Whole data) =>
          UsageWindow.prompt_count (UsageData.current_window data) = 2 /\
          map RequestLog.failed_count (default [] (UsageData.recent_requests data))
          = [Some 1]
      | _ => False
      end
  | _ => False
  end.
Proof. vm_compute. repeat split. Qed.

(** * Further properties *)

(** ** The batch dispatcher, whatever the limit and the fuel *)

Lemma processBatch_loop_S (self : MinimaxClient.t) (tasks : list BatchTask.t)
    (C : Z) (fuel : nat) (i : Z) (results : list BatchResult.t) :
  processBatch_loop (S fuel) self tasks C i results
  = if i <? Z.of_nat (length tasks)
    then (chunkResults <- allSettled_chunk self (JS.slice tasks i (i + C)) ;;
          processBatch_loop fuel self tasks C (i + C)
            (results ++ push_settled (JS.slice tasks i (i + C)) chunkResults))
    else ret results.
Proof. reflexivity. Qed.

(** More fuel does not change what the loop returns. *)
Lemma processBatch_loop_more_fuel (self : MinimaxClient.t) (tasks : list BatchTask.t)
    (C : Z) (fuel : nat) :
  forall (i : Z) (results r : list BatchResult.t) (m m' : Machine),
    processBatch_loop fuel self tasks C i results m = (Returns r, m') ->
    processBatch_loop (S fuel) self tasks C i results m = (Returns r, m').
Proof.
  induction fuel as [|fuel IH]; intros i results r m m' Hrun.
  - simpl in *. destruct (i <? Z.of_nat (length tasks)); [discriminate|done].
  - rewrite (processBatch_loop_S _ _ _ (S fuel)).
    rewrite (processBatch_loop_S _ _ _ fuel) in Hrun.
    destruct (i <? Z.of_nat (length tasks)); [|done].
    unfold bind, allSettled_chunk in *. by apply IH.
Qed.

Lemma processBatch_loop_fuel_le (self : MinimaxClient.t) (tasks : list BatchTask.t)
    (C : Z) (fuel fuel' : nat) (i : Z) (results r : list BatchResult.t) (m m' : Machine) :
  (fuel <= fuel')%nat ->
  processBatch_loop fuel self tasks C i results m = (Returns r, m') ->
  processBatch_loop fuel' self tasks C i results m = (Returns r, m').
Proof.
  induction 1 as [|fuel' _ IH]; [done|].
  intros Hrun. apply processBatch_loop_more_fuel. by apply IH.
Qed.

(** The loop never throws, and it touches nothing but the calls and the
    events of the machine. *)
Lemma processBatch_loop_frame (self : MinimaxClient.t) (tasks : list BatchTask.t)
    (C : Z) (fuel : nat) :
  forall (i : Z) (results : list BatchResult.t) (m : Machine),
    let run := processBatch_loop fuel self tasks C i results m in
    (forall e, fst run <> Throws e) /\
    clock (snd run) = clock m /\
    clock_reads (snd run) = clock_reads m /\
    fetch (snd run) = fetch m /\
    completion (snd run) = completion m /\
    disk (snd run) = disk m /\
    disk_fault (snd run) = disk_fault m /\
    tracker_data (snd run) = tracker_data m.
Proof.
  induction fuel as [|fuel IH]; intros i results m.
  - simpl. destruct (i <? Z.of_nat (length tasks)); simpl; repeat split; done.
  - rewrite processBatch_loop_S.
    destruct (i <? Z.of_nat (length tasks)); [|simpl; repeat split; done].
    unfold bind, allSettled_chunk.
    match goal with |- context [processBatch_loop fuel self tasks C ?i' ?r' ?m'] =>
      destruct (IH i' r' m') as (Hthrow & Hclk & Hreads & Hfetch & Hcompl & Hdisk & Hfault & Hdata)
    end.
    simpl in *. repeat split; done.
Qed.

(** With a limit of 0 or less the loop index never gets past the first
    task. *)
Lemma processBatch_loop_stalls_nonpositive (self : MinimaxClient.t)
    (tasks : list BatchTask.t) (C : Z) (fuel : nat) :
  C <= 0 ->
  tasks <> [] ->
  forall (i : Z) (results : list BatchResult.t) (m : Machine),
    i <= 0 ->
    fst (processBatch_loop fuel self tasks C i results m) = OutOfFuel.
Proof.
  intros HC Hne.
  assert (Hlen : 0 < Z.of_nat (length tasks)) by (destruct tasks; [done|simpl; lia]).
  induction fuel as [|fuel IH]; intros i results m Hi.
  - simpl. destruct (Z.ltb_spec i (Z.of_nat (length tasks))); [done|lia].
  - rewrite processBatch_loop_S.
    destruct (Z.ltb_spec i (Z.of_nat (length tasks))); [|lia].
    unfold bind, allSettled_chunk. apply IH. lia.
Qed.

(** Whatever the limit and the fuel, a batch that returns returns the
    results of the exchanges of its tasks and the summary drawn from
    them. *)
Lemma processBatch_returns_inv (self : BatchProcessor.t) (tasks : list BatchTask.t)
    (concurrency : option Z) (fuel : nat) (m m' : Machine)
    (out : list BatchResult.t * BatchSummary.t) :
  processBatch fuel self tasks concurrency m = (Returns out, m') ->
  out = (batch_results self m tasks,
         batch_summary tasks (batch_results self m tasks)
           (clock m (S (clock_reads m)) - clock m (clock_reads m))).
Proof.
  intros Hrun.
  set (C := default (BatchProcessor.defaultConcurrency self) concurrency) in *.
  destruct (Z.le_gt_cases 1 C) as [HC|HC].
  - destruct (processBatch_spec self tasks concurrency (Nat.max fuel (length tasks)) m HC)
      as (groups & _ & _ & _ & Hspec); [lia|].
    unfold processBatch, bind at 1, Date_now at 1 in Hrun.
    unfold processBatch, bind at 1, Date_now at 1 in Hspec.
    unfold bind at 1 in Hrun. unfold bind at 1 in Hspec. fold C in Hrun, Hspec.
    destruct (processBatch_loop fuel _ tasks C 0 [] (tick m)) as [[r| |] m1] eqn:Hloop;
      try discriminate.
    rewrite (processBatch_loop_fuel_le _ _ _ fuel _ _ _ _ _ _ (Nat.le_max_l _ _) Hloop)
      in Hspec.
    simpl in Hrun, Hspec. congruence.
  - destruct tasks as [|task tasks].
    + unfold processBatch, bind at 1, Date_now at 1 in Hrun. unfold bind at 1 in Hrun.
      destruct fuel; simpl in Hrun; injection Hrun as <- _; reflexivity.
    + pose proof (processBatch_loop_stalls_nonpositive (BatchProcessor.client self)
                    (task :: tasks) C fuel ltac:(lia) ltac:(done) 0 [] (tick m)
                    ltac:(lia)) as Hstall.
      unfold processBatch, bind at 1, Date_now at 1 in Hrun. unfold bind at 1 in Hrun.
      fold C in Hrun.
      destruct (processBatch_loop fuel _ (task :: tasks) C 0 [] (tick m)) as [[r| |] m1];
        simpl in Hstall; discriminate.
Qed.

(** A batch never throws, and leaves the clock function, the usage file
    and the tracker as they were. *)
Lemma processBatch_frame (self : BatchProcessor.t) (tasks : list BatchTask.t)
    (concurrency : option Z) (fuel : nat) (m : Machine) :
  let run := processBatch fuel self tasks concurrency m in
  (forall e, fst run <> Throws e) /\
  clock (snd run) = clock m /\
  (clock_reads m < clock_reads (snd run))%nat /\
  disk (snd run) = disk m /\
  disk_fault (snd run) = disk_fault m /\
  tracker_data (snd run) = tracker_data m.
Proof.
  cbv zeta. unfold processBatch, bind, Date_now.
  destruct (processBatch_loop_frame (BatchProcessor.client self) tasks
              (default (BatchProcessor.defaultConcurrency self) concurrency)
              fuel 0 [] (tick m))
    as (Hthrow & Hclk & Hreads & _ & _ & Hdisk & Hfault & Hdata).
  destruct (processBatch_loop fuel _ tasks _ 0 [] (tick m)) as [[r|e|] m1]; simpl in *.
  - rewrite Hreads. repeat apply conj; try done; lia.
  - by destruct (Hthrow e).
  - rewrite Hreads. repeat apply conj; try done; lia.
Qed.

Lemma settle_task_success (self : MinimaxClient.t) (m : Machine) (n j : nat)
    (task : BatchTask.t) :
  BatchResult.success (settle_task self m n j task) = true <->
  gateway_answers self m (n + j) task.
Proof.
  unfold settle_task, processTask, gateway_answers, query_settle.
  destruct (fetch m (n + j)%nat _) as [e|status text|data]; simpl.
  - split; [done|]. by intros [data Hdata].
  - split; [done|]. by intros [data Hdata].
  - split; [|done]. intros _. by exists data.
Qed.

(** X1. The summary of a batch accounts for every task: the total is the
    number of tasks, the successes and the failures add up to it and
    neither is negative, the successes are the results marked as such,
    and a result is marked a success exactly when the exchange of its
    task was answered with a 2xx response that carries a message. *)
Theorem batch_summary_accounts_for_every_task (self : BatchProcessor.t)
    (tasks : list BatchTask.t) (concurrency : option Z) (fuel : nat) (m : Machine) :
  1 <= default (BatchProcessor.defaultConcurrency self) concurrency ->
  (length tasks <= fuel)%nat ->
  exists results summary m',
    processBatch fuel self tasks concurrency m = (Returns (results, summary), m') /\
    BatchSummary.total_tasks summary = Z.of_nat (length tasks) /\
    BatchSummary.succeeded summary + BatchSummary.failed summary
    = BatchSummary.total_tasks summary /\
    0 <= BatchSummary.succeeded summary /\
    0 <= BatchSummary.failed summary /\
    BatchSummary.succeeded summary
    = Z.of_nat (length (filter (fun r => BatchResult.success r = true) results)) /\
    forall i task,
      tasks !! i = Some task ->
      exists r,
        results !! i = Some r /\
        (BatchResult.success r = true <->
         gateway_answers (BatchProcessor.client self) m (calls_issued m + i) task).
Proof.
  intros HC Hfuel.
  destruct (processBatch_spec self tasks concurrency fuel m HC Hfuel)
    as (groups & _ & _ & _ & Hrun).
  eexists _, _, _. split; [exact Hrun|].
  pose proof (length_filter (fun r => BatchResult.success r = true)
                (batch_results self m tasks)) as Hle.
  rewrite batch_results_length in Hle.
  unfold batch_summary. simpl. repeat split; try lia.
  intros i task Hi. eexists. split; [by apply batch_results_lookup|].
  apply settle_task_success.
Qed.

Lemma batch_summary_accounts_for_every_task_witness :
  exists results summary m',
    processBatch 3 sample_processor sample_tasks None sample_machine
    = (Returns (results, summary), m') /\
    BatchSummary.total_tasks summary = Z.of_nat (length sample_tasks) /\
    BatchSummary.succeeded summary + BatchSummary.failed summary
    = BatchSummary.total_tasks summary /\
    0 <= BatchSummary.succeeded summary /\
    0 <= BatchSummary.failed summary /\
    BatchSummary.succeeded summary
    = Z.of_nat (length (filter (fun r => BatchResult.success r = true) results)) /\
    forall i task,
      sample_tasks !! i = Some task ->
      exists r,
        results !! i = Some r /\
        (BatchResult.success r = true <->
         gateway_answers sample_client sample_machine (0 + i) task).
Proof.
  apply (batch_summary_accounts_for_every_task sample_processor sample_tasks None 3
           sample_machine).
  - simpl. lia.
  - simpl. lia.
Defined.

(** X3. A limit of 0 or less, given or taken from the default, hangs
    every batch that has a task: whatever the fuel, [processBatch] does
    not return. *)
Theorem nonpositive_limit_never_returns (self : BatchProcessor.t)
    (tasks : list BatchTask.t) (concurrency : option Z) (fuel : nat) (m : Machine) :
  default (BatchProcessor.defaultConcurrency self) concurrency <= 0 ->
  tasks <> [] ->
  fst (processBatch fuel self tasks concurrency m) = OutOfFuel.
Proof.
  intros HC Hne.
  pose proof (processBatch_loop_stalls_nonpositive (BatchProcessor.client self) tasks
                _ fuel HC Hne 0 [] (tick m) ltac:(lia)) as Hstall.
  unfold processBatch, bind at 1, Date_now at 1. unfold bind at 1.
  destruct (processBatch_loop fuel _ tasks _ 0 [] (tick m)) as [[r|e|] m1];
    simpl in Hstall; try discriminate. reflexivity.
Qed.

Lemma nonpositive_limit_never_returns_witness :
  fst (processBatch 1000 sample_processor sample_tasks (Some (-2)) sample_machine)
  = OutOfFuel.
Proof.
  apply (nonpositive_limit_never_returns sample_processor sample_tasks (Some (-2)) 1000
           sample_machine).
  - simpl. lia.
  - discriminate.
Defined.

(** *** One call per task *)

Lemma issued_calls_app (a b : list Event) :
  issued_calls (a ++ b) = issued_calls a ++ issued_calls b.
Proof. induction a as [|[n|n] a IH]; simpl; by rewrite ?IH. Qed.

Lemma settled_calls_app (a b : list Event) :
  settled_calls (a ++ b) = settled_calls a ++ settled_calls b.
Proof. induction a as [|[n|n] a IH]; simpl; by rewrite ?IH. Qed.

Lemma issued_calls_issued (calls : list nat) :
  issued_calls (map CallIssued calls) = calls /\
  settled_calls (map CallIssued calls) = [].
Proof. induction calls as [|n calls [IH1 IH2]]; simpl; by rewrite ?IH1, ?IH2. Qed.

Lemma issued_calls_settled (calls : list nat) :
  issued_calls (map CallSettled calls) = [] /\
  settled_calls (map CallSettled calls) = calls.
Proof. induction calls as [|n calls [IH1 IH2]]; simpl; by rewrite ?IH1, ?IH2. Qed.

Lemma groups_events_calls (m : Machine) (groups : list (list BatchTask.t)) :
  settles_all_calls m ->
  forall n,
    issued_calls (groups_events m n groups) = seq n (length (concat groups)) /\
    settled_calls (groups_events m n groups) ≡ₚ seq n (length (concat groups)).
Proof.
  intros Hperm. induction groups as [|g groups IH]; intros n; simpl; [done|].
  destruct (IH (n + length g)%nat) as [IHi IHs].
  unfold group_events.
  rewrite !issued_calls_app, !settled_calls_app.
  rewrite (proj1 (issued_calls_issued _)), (proj2 (issued_calls_issued _)).
  rewrite (proj1 (issued_calls_settled _)), (proj2 (issued_calls_settled _)).
  rewrite length_app, seq_app, IHi, app_nil_r. simpl. split; [done|].
  by rewrite IHs, (Hperm _).
Qed.

(** X2. A batch issues exactly one call per task, in the order of the
    tasks and whatever the outcomes: its calls are the next
    [tasks.length] calls of the machine, every one of them settles, and
    none is issued twice.  It reads the clock twice, the duration it
    reports is the difference of the two readings, and it leaves the
    tracker and the usage file alone. *)
Theorem batch_issues_one_call_per_task (self : BatchProcessor.t)
    (tasks : list BatchTask.t) (concurrency : option Z) (fuel : nat) (m : Machine) :
  1 <= default (BatchProcessor.defaultConcurrency self) concurrency ->
  (length tasks <= fuel)%nat ->
  settles_all_calls m ->
  exists results summary m' trace,
    processBatch fuel self tasks concurrency m = (Returns (results, summary), m') /\
    calls_issued m' = (calls_issued m + length tasks)%nat /\
    events m' = events m ++ trace /\
    issued_calls trace = seq (calls_issued m) (length tasks) /\
    settled_calls trace ≡ₚ seq (calls_issued m) (length tasks) /\
    clock_reads m' = S (S (clock_reads m)) /\
    BatchSummary.duration_ms summary
    = clock m (S (clock_reads m)) - clock m (clock_reads m) /\
    tracker_data m' = tracker_data m /\
    disk m' = disk m.
Proof.
  intros HC Hfuel Hperm.
  destruct (processBatch_spec self tasks concurrency fuel m HC Hfuel)
    as (groups & Hcat & _ & _ & Hrun).
  destruct (groups_events_calls m groups Hperm (calls_issued m)) as [Hissued Hsettled].
  rewrite Hcat in Hissued, Hsettled.
  eexists _, _, _, _. split; [exact Hrun|].
  unfold after_batch. simpl. repeat apply conj; try done.
Qed.

Lemma batch_issues_one_call_per_task_witness :
  exists results summary m' trace,
    processBatch 3 sample_processor sample_tasks (Some 2) sample_machine
    = (Returns (results, summary), m') /\
    calls_issued m' = (calls_issued sample_machine + length sample_tasks)%nat /\
    events m' = events sample_machine ++ trace /\
    issued_calls trace = seq (calls_issued sample_machine) (length sample_tasks) /\
    settled_calls trace ≡ₚ seq (calls_issued sample_machine) (length sample_tasks) /\
    clock_reads m' = S (S (clock_reads sample_machine)) /\
    BatchSummary.duration_ms summary
    = clock sample_machine (S (clock_reads sample_machine))
      - clock sample_machine (clock_reads sample_machine) /\
    tracker_data m' = tracker_data sample_machine /\
    disk m' = disk sample_machine.
Proof.
  apply (batch_issues_one_call_per_task sample_processor sample_tasks (Some 2) 3
           sample_machine).
  - simpl. lia.
  - simpl. lia.
  - intros calls. simpl. apply reverse_Permutation.
Defined.

(** ** The ledger and its file *)

(** X4. When the usage file can be written, a record returns, and the
    file then holds the very ledger the tracker holds; a process started
    anew reads back the same window, daily totals, request log and
    pipeline runs.
    The call starts from an object that has its window and its daily
    totals. *)
Theorem record_is_persisted_and_reloaded (params : RecordParams.t) (m : Machine) :
  whole_on_entry m ->
  disk_fault m = None ->
  exists data' m',
    recordRequest params m = (Returns tt, m') /\
    tracker_data m' = Some (Whole data') /\
    disk m' = Document (Whole data') /\
    exists reloaded m'',
      loadUsageData (with_tracker None m') = (Returns (Whole reloaded), m'') /\
      UsageData.current_window reloaded = UsageData.current_window data' /\
      UsageData.daily_totals reloaded = UsageData.daily_totals data' /\
      UsageData.recent_requests reloaded = UsageData.recent_requests data' /\
      UsageData.pipeline_runs reloaded = UsageData.pipeline_runs data'.
Proof.
  intros Hwhole Hfault. rewrite recordRequest_spec, Hfault by done.
  eexists _, _. split; [reflexivity|].
  unfold recorded_machine. rewrite Hfault. simpl.
  split; [reflexivity|]. split; [reflexivity|].
  rewrite loadUsageData_spec. simpl.
  eexists _, _. split; [reflexivity|]. repeat apply conj; reflexivity.
Qed.

Lemma record_is_persisted_and_reloaded_witness :
  exists data' m',
    recordRequest sample_failure sample_ledger_machine = (Returns tt, m') /\
    tracker_data m' = Some (Whole data') /\
    disk m' = Document (Whole data') /\
    exists reloaded m'',
      loadUsageData (with_tracker None m') = (Returns (Whole reloaded), m'') /\
      UsageData.current_window reloaded = UsageData.current_window data' /\
      UsageData.daily_totals reloaded = UsageData.daily_totals data' /\
      UsageData.recent_requests reloaded = UsageData.recent_requests data' /\
      UsageData.pipeline_runs reloaded = UsageData.pipeline_runs data'.
Proof.
  apply (record_is_persisted_and_reloaded sample_failure sample_ledger_machine).
  - reflexivity.
  - reflexivity.
Defined.

(** X5. When the usage file cannot be written, a record throws what the
    write threw, after the accounting was done in memory: the file is as
    it was, and the tracker holds the new entry and the new counts, which
    the file lacks.
    The call starts from an object that has its window and its daily
    totals. *)
Theorem write_fault_leaves_memory_ahead (params : RecordParams.t) (m : Machine)
    (e : JS.Thrown) :
  whole_on_entry m ->
  disk_fault m = Some e ->
  exists data' m' entry,
    recordRequest params m = (Throws e, m') /\
    disk m' = disk m /\
    tracker_data m' = Some (Whole data') /\
    last (log_of data') = Some entry /\
    RequestLog.task_count entry = RecordParams.taskCount params /\
    UsageWindow.prompt_count (UsageData.current_window data')
    = UsageWindow.prompt_count (UsageData.current_window (ensured_data m))
      + RecordParams.taskCount params.
Proof.
  intros Hwhole Hfault. rewrite recordRequest_spec, Hfault by done.
  eexists _, _, _. split; [reflexivity|].
  unfold recorded_machine. rewrite Hfault. simpl.
  split; [reflexivity|]. split; [reflexivity|].
  unfold log_of, recorded_data. simpl. split.
  { by apply (push_capped_last 200). }
  split; reflexivity.
Qed.

Lemma write_fault_leaves_memory_ahead_witness :
  let m := mkMachine (clock sample_machine) 0 (fetch sample_machine) 0
                     (completion sample_machine) [] (disk sample_machine)
                     (Some (JS.ErrorObject "EACCES: permission denied"))
                     (Some (Whole sample_data)) in
  exists data' m' entry,
    recordRequest sample_failure m
    = (Throws (JS.ErrorObject "EACCES: permission denied"), m') /\
    disk m' = disk m /\
    tracker_data m' = Some (Whole data') /\
    last (log_of data') = Some entry /\
    RequestLog.task_count entry = RecordParams.taskCount sample_failure /\
    UsageWindow.prompt_count (UsageData.current_window data')
    = UsageWindow.prompt_count (UsageData.current_window (ensured_data m))
      + RecordParams.taskCount sample_failure.
Proof.
  intros m.
  apply (write_fault_leaves_memory_ahead sample_failure m
           (JS.ErrorObject "EACCES: permission denied")).
  - reflexivity.
  - reflexivity.
Defined.

(** X6. A quota check is a read.  It returns the quota less the prompt
    count of the window it leaves, not below 0, without writing the usage
    file.  Made before the end of the window, it leaves the ledger as it
    found it, window and counters included; made once the end of the
    window has passed, it changes the window and nothing else: the new
    window is opened at the next reading of the clock.  A second check
    made before the window it left expires returns the same count and
    leaves the same ledger.
    The call starts from an object that has its window and its daily
    totals. *)
Theorem quota_check_is_a_read (m : Machine) :
  whole_on_entry m ->
  exists remaining checked m1,
    getRemainingPrompts m = (Returns remaining, m1) /\
    tracker_data m1 = Some (Whole checked) /\
    disk m1 = disk m /\
    remaining
    = Z.max 0 (MAX_PROMPTS_PER_WINDOW
               - UsageWindow.prompt_count (UsageData.current_window checked)) /\
    (clock m (check_reading m) < UsageWindow.window_end (window_on_entry m) ->
     checked = data_on_entry m) /\
    (UsageWindow.window_end (window_on_entry m) <= clock m (check_reading m) ->
     checked
     = set_current_window (fresh_window (clock m (S (check_reading m))))
                          (data_on_entry m)) /\
    UsageData.daily_totals checked = UsageData.daily_totals (data_on_entry m) /\
    UsageData.recent_requests checked = UsageData.recent_requests (data_on_entry m) /\
    UsageData.pipeline_runs checked = UsageData.pipeline_runs (data_on_entry m) /\
    UsageData.provider checked = UsageData.provider (data_on_entry m) /\
    0 <= remaining /\
    (clock m (clock_reads m1)
     < UsageWindow.window_end (UsageData.current_window checked) ->
     exists m2,
       getRemainingPrompts m1 = (Returns remaining, m2) /\
       tracker_data m2 = Some (Whole checked)).
Proof.
  intros Hwhole. rewrite getRemainingPrompts_spec by done.
  eexists _, _, _. split; [reflexivity|]. simpl.
  split; [reflexivity|]. split; [reflexivity|]. split; [reflexivity|].
  assert (Hcases :
    (clock m (check_reading m) < UsageWindow.window_end (window_on_entry m) ->
     ensured_data m = data_on_entry m) /\
    (UsageWindow.window_end (window_on_entry m) <= clock m (check_reading m) ->
     ensured_data m
     = set_current_window (fresh_window (clock m (S (check_reading m))))
                          (data_on_entry m))).
  { unfold ensured_data, expired_on_entry.
    destruct (Z.leb_spec (UsageWindow.window_end (window_on_entry m))
                         (clock m (check_reading m))); split; intros; try done; lia. }
  destruct Hcases as [Hlive Hexpired].
  split; [exact Hlive|]. split; [exact Hexpired|].
  assert (Hlists :
    UsageData.daily_totals (ensured_data m) = UsageData.daily_totals (data_on_entry m) /\
    UsageData.recent_requests (ensured_data m) = UsageData.recent_requests (data_on_entry m) /\
    UsageData.pipeline_runs (ensured_data m) = UsageData.pipeline_runs (data_on_entry m) /\
    UsageData.provider (ensured_data m) = UsageData.provider (data_on_entry m)).
  { unfold ensured_data. by destruct (expired_on_entry m). }
  destruct Hlists as (Hd & Hr & Hp & Hv).
  split; [done|]. split; [done|]. split; [done|]. split; [done|]. split; [lia|].
  intros Hagain. rewrite getRemainingPrompts_spec by reflexivity.
  assert (Hsame : ensured_data (ensured_machine m) = ensured_data m).
  { unfold ensured_data at 1, expired_on_entry, window_on_entry, data_on_entry,
           check_reading.
    simpl. destruct (Z.leb_spec (UsageWindow.window_end
                                   (UsageData.current_window (ensured_data m)))
                                (clock m (ensured_reads m))); [lia|done]. }
  eexists. rewrite Hsame. split; [reflexivity|]. simpl. by rewrite Hsame.
Qed.

Lemma quota_check_is_a_read_witness :
  exists m1 m2,
    getRemainingPrompts sample_ledger_machine = (Returns 3, m1) /\
    tracker_data m1 = Some (Whole sample_data) /\
    getRemainingPrompts m1 = (Returns 3, m2).
Proof.
  destruct (quota_check_is_a_read sample_ledger_machine)
    as (remaining & checked & m1 & Hrun & Hdata & _ & Hcount & Hlive & _ & _ & _ & _
        & _ & _ & Hagain); [reflexivity|].
  assert (Hchecked : checked = sample_data) by (apply Hlive; vm_compute; reflexivity).
  subst checked.
  assert (Hthree : remaining = 3) by (rewrite Hcount; reflexivity).
  subst remaining.
  pose proof Hrun as Hm1.
  rewrite getRemainingPrompts_spec in Hm1 by reflexivity.
  apply pair_equal_spec in Hm1 as [_ <-].
  destruct Hagain as (m2 & Hrun2 & _); [vm_compute; reflexivity|].
  exists (ensured_machine sample_ledger_machine), m2.
  split; [exact Hrun|]. split; [exact Hdata|exact Hrun2].
Defined.

(** ** The daily totals *)

Lemma update_daily_dates_found (params : RecordParams.t) (today : Z)
    (totals : list DailyTotal.t) (k : nat) (entry : DailyTotal.t) :
  list_find (fun d => DailyTotal.date d = today) totals = Some (k, entry) ->
  DailyTotal.date <$> update_daily params today totals = DailyTotal.date <$> totals.
Proof.
  intros Hfind. rewrite (update_daily_found _ _ _ _ _ Hfind).
  apply list_find_Some in Hfind as (Hk & _ & _).
  rewrite list_fmap_insert. apply list_insert_id.
  by rewrite list_lookup_fmap, Hk.
Qed.

Lemma update_daily_keeps_one_entry_per_day (params : RecordParams.t) (today : Z)
    (totals : list DailyTotal.t) :
  one_entry_per_day totals -> one_entry_per_day (update_daily params today totals).
Proof.
  unfold one_entry_per_day. intros Hnodup.
  destruct (list_find (fun d => DailyTotal.date d = today) totals) as [[k entry]|] eqn:Hfind.
  - by rewrite (update_daily_dates_found _ _ _ _ _ Hfind).
  - rewrite (update_daily_new _ _ _ Hfind), push_capped_spec by done.
    rewrite fmap_drop. eapply sublist_NoDup; [|apply sublist_drop].
    rewrite fmap_app. apply NoDup_app. split; [done|]. split; [|apply NoDup_singleton].
    intros date Hin Hnew. apply list_elem_of_singleton in Hnew. simpl in Hnew. subst date.
    apply list_elem_of_fmap in Hin as (d & Hdate & Hd).
    apply list_find_None in Hfind. rewrite Forall_forall in Hfind.
    by apply (Hfind d Hd).
Qed.

Lemma update_daily_today (params : RecordParams.t) (today : Z) (totals : list DailyTotal.t) :
  exists k,
    update_daily params today totals !! k
    = Some (add_to_daily params (total_of_day today totals)).
Proof.
  unfold total_of_day.
  destruct (list_find (fun d => DailyTotal.date d = today) totals) as [[k entry]|] eqn:Hfind.
  - exists k. rewrite (update_daily_found _ _ _ _ _ Hfind).
    apply list_find_Some in Hfind as (Hk & _ & _).
    apply list_lookup_insert_eq. by eapply lookup_lt_Some.
  - eexists. rewrite (update_daily_new _ _ _ Hfind), <- last_lookup.
    by apply (push_capped_last 30).
Qed.

Lemma update_daily_total_of_day_date (today : Z) (totals : list DailyTotal.t) :
  DailyTotal.date (total_of_day today totals) = today.
Proof.
  unfold total_of_day.
  destruct (list_find (fun d => DailyTotal.date d = today) totals) as [[k entry]|] eqn:Hfind;
    [|done].
  by apply list_find_Some in Hfind as (_ & Hdate & _).
Qed.

Lemma update_daily_other_days (params : RecordParams.t) (today : Z)
    (totals : list DailyTotal.t) (other : DailyTotal.t) :
  other ∈ update_daily params today totals ->
  DailyTotal.date other <> today ->
  other ∈ totals.
Proof.
  intros Hin Hother.
  destruct (list_find (fun d => DailyTotal.date d = today) totals) as [[k entry]|] eqn:Hfind.
  - rewrite (update_daily_found _ _ _ _ _ Hfind) in Hin.
    apply list_find_Some in Hfind as (Hk & Hdate & _).
    apply list_elem_of_lookup_1 in Hin as [j Hj].
    destruct (decide (k = j)) as [->|Hne].
    + rewrite list_lookup_insert_eq in Hj by (by eapply lookup_lt_Some).
      injection Hj as <-. simpl in Hother. by destruct Hother.
    + rewrite list_lookup_insert_ne in Hj by done. by eapply list_elem_of_lookup_2.
  - rewrite (update_daily_new _ _ _ Hfind), push_capped_spec in Hin by done.
    apply (fun H => elem_of_sublist _ _ _ H (sublist_drop _ _)) in Hin.
    apply elem_of_app in Hin as [Hin|Hin]; [done|].
    apply list_elem_of_singleton in Hin. subst other. simpl in Hother. by destruct Hother.
Qed.

(** X7. The daily totals keep one entry per day.  After a record, the
    entry of the day of the record holds what it held before (nothing, on
    a new day) plus the task count, the tokens and the cost recorded, no
    other day is touched, and there is still one entry per day.
    The call starts from an object that has its window and its daily
    totals. *)
Theorem record_adds_to_the_total_of_the_day (params : RecordParams.t) (m : Machine) :
  whole_on_entry m ->
  one_entry_per_day (UsageData.daily_totals (data_on_entry m)) ->
  let today := clock m (S (ensured_reads m)) / MS_PER_DAY in
  let before := total_of_day today (UsageData.daily_totals (data_on_entry m)) in
  exists data' k entry,
    tracker_data (snd (recordRequest params m)) = Some (Whole data') /\
    one_entry_per_day (UsageData.daily_totals data') /\
    UsageData.daily_totals data' !! k = Some entry /\
    DailyTotal.date entry = today /\
    DailyTotal.prompt_count entry
    = DailyTotal.prompt_count before + RecordParams.taskCount params /\
    DailyTotal.total_input_tokens entry
    = DailyTotal.total_input_tokens before + RecordParams.inputTokens params /\
    DailyTotal.total_output_tokens entry
    = DailyTotal.total_output_tokens before + RecordParams.outputTokens params /\
    DailyTotal.estimated_cost_usd entry
    = Float64.fadd (DailyTotal.estimated_cost_usd before) (RecordParams.costUsd params) /\
    forall other,
      other ∈ UsageData.daily_totals data' ->
      DailyTotal.date other <> today ->
      other ∈ UsageData.daily_totals (data_on_entry m).
Proof.
  intros Hwhole Hnodup today before.
  assert (Htotals : UsageData.daily_totals (ensured_data m)
                    = UsageData.daily_totals (data_on_entry m)).
  { unfold ensured_data. by destruct (expired_on_entry m). }
  rewrite recordRequest_spec by done. simpl.
  destruct (update_daily_today params today (UsageData.daily_totals (data_on_entry m)))
    as [k Hk].
  exists (recorded_data params m), k. eexists.
  split; [reflexivity|].
  unfold recorded_data. simpl. rewrite Htotals. fold today.
  split; [by apply update_daily_keeps_one_entry_per_day|].
  split; [exact Hk|]. fold before. simpl.
  split; [apply update_daily_total_of_day_date|].
  repeat (split; [reflexivity|]).
  intros other. apply update_daily_other_days.
Qed.

Lemma record_adds_to_the_total_of_the_day_witness :
  let m := sample_ledger_machine in
  let today := clock m (S (ensured_reads m)) / MS_PER_DAY in
  let before := total_of_day today (UsageData.daily_totals (data_on_entry m)) in
  exists data' k entry,
    tracker_data (snd (recordRequest sample_failure m)) = Some (Whole data') /\
    one_entry_per_day (UsageData.daily_totals data') /\
    UsageData.daily_totals data' !! k = Some entry /\
    DailyTotal.date entry = today /\
    DailyTotal.prompt_count entry
    = DailyTotal.prompt_count before + RecordParams.taskCount sample_failure /\
    DailyTotal.total_input_tokens entry
    = DailyTotal.total_input_tokens before + RecordParams.inputTokens sample_failure /\
    DailyTotal.total_output_tokens entry
    = DailyTotal.total_output_tokens before + RecordParams.outputTokens sample_failure /\
    DailyTotal.estimated_cost_usd entry
    = Float64.fadd (DailyTotal.estimated_cost_usd before)
                   (RecordParams.costUsd sample_failure) /\
    forall other,
      other ∈ UsageData.daily_totals data' ->
      DailyTotal.date other <> today ->
      other ∈ UsageData.daily_totals (data_on_entry m).
Proof.
  apply (record_adds_to_the_total_of_the_day sample_failure sample_ledger_machine).
  - reflexivity.
  - unfold one_entry_per_day. simpl. apply NoDup_singleton.
Defined.

(** ** The tools *)

Lemma query_answered (self : MinimaxClient.t) (prompt : string)
    (options : option QueryOptions.t) (m : Machine) (data : MinimaxResponse.t) :
  fetch m (calls_issued m) (query_request self prompt options) = FetchOk data ->
  query self prompt options m = (Returns (query_result_of self data), after_call m).
Proof. unfold query, query_settle. by intros ->. Qed.

(** What [llm_query] does once the quota check lets it through and the
    remote model answers. *)
Lemma llm_query_answered (server : Server.t) (client : MinimaxClient.t)
    (args : QueryArgs.t) (m m1 : Machine) (remaining : Z) (data : MinimaxResponse.t) :
  whole_on_entry m ->
  Server.client server = Some client ->
  getRemainingPrompts (tick m) = (Returns remaining, m1) ->
  0 < remaining ->
  fetch m1 (calls_issued m1) (request_of_args client args) = FetchOk data ->
  let result := query_result_of client data in
  let m3 := tick (after_call m1) in
  let params :=
    success_record result (clock m1 (clock_reads m1) - clock m (clock_reads m))
                   (QueryArgs.caller args) in
  llm_query server args m
  = match disk_fault m1 with
    | None =>
        (Returns
           (ToolResult.mk
              (QueryJson
                 (QueryOutput.mk (QueryResult.response result) (QueryResult.model result)
                                 (QueryResult.usage result)
                                 (QueryResult.cost_estimate_usd result) (remaining - 1)))
              false),
         recorded_machine params m3)
    | Some e =>
        let m4 := recorded_machine params m3 in
        (Throws e,
         recorded_machine
           (failure_record type_query (clock m1 (clock_reads m4) - clock m (clock_reads m))
                           (QueryArgs.caller args) (JS.error_message e))
           (tick m4))
    end.
Proof.
  intros Hwhole Hclient Hrem Hpos Hfetch result m3 params.
  assert (Hwhole3 : whole_on_entry m3).
  { pose proof Hrem as Hm1.
    rewrite getRemainingPrompts_spec in Hm1 by (by apply whole_on_entry_tick).
    apply pair_equal_spec in Hm1 as [_ Hm1]. unfold m3. rewrite <- Hm1. reflexivity. }
  unfold llm_query, bind at 1, Date_now at 1. rewrite Hclient.
  unfold try_catch, bind at 1. rewrite Hrem.
  destruct (Z.leb_spec remaining 0) as [|_]; [lia|].
  unfold bind at 1. rewrite (query_answered _ _ _ _ data) by exact Hfetch.
  fold result. unfold bind at 1, Date_now at 1. unfold bind at 1.
  change (clock (after_call m1)) with (clock m1).
  change (clock_reads (after_call m1)) with (clock_reads m1).
  change (tick (after_call m1)) with m3.
  change (RecordParams.mk type_query 1 _ _ _ _ _ None None None) with params.
  rewrite recordRequest_spec by done.
  change (disk_fault m3) with (disk_fault m1).
  destruct (disk_fault m1) as [e|] eqn:Hfault; [|reflexivity].
  unfold bind at 1, Date_now at 1. unfold bind at 1.
  rewrite recordRequest_spec by reflexivity. simpl. rewrite Hfault. reflexivity.
Qed.

(** X8. With no prompt left in the window, [llm_query] answers with the
    rate-limit error and stops there: no call is issued to the remote
    model, nothing is recorded, and the usage file is not written.
    The call starts from an object that has its window and its daily
    totals. *)
Theorem exhausted_quota_refuses_query (server : Server.t) (client : MinimaxClient.t)
    (args : QueryArgs.t) (m m1 : Machine) (remaining : Z) :
  whole_on_entry m ->
  Server.client server = Some client ->
  getRemainingPrompts (tick m) = (Returns remaining, m1) ->
  remaining <= 0 ->
  llm_query server args m
  = (Returns
       (ToolResult.mk
          (Message "Rate limit: 0 prompts remaining in current 5-hour window. Try again later.")
          true),
     m1) /\
  remaining = 0 /\
  calls_issued m1 = calls_issued m /\
  events m1 = events m /\
  disk m1 = disk m /\
  tracker_data m1 = Some (Whole (ensured_data (tick m))).
Proof.
  intros Hwhole Hclient Hrem Hle. split.
  - unfold llm_query, bind at 1, Date_now at 1. rewrite Hclient.
    unfold try_catch, bind at 1. rewrite Hrem.
    apply Z.leb_le in Hle. by rewrite Hle.
  - rewrite getRemainingPrompts_spec in Hrem by (by apply whole_on_entry_tick).
    injection Hrem as Hval <-.
    repeat apply conj; try reflexivity. lia.
Qed.

Lemma exhausted_quota_refuses_query_witness :
  let m := with_tracker
             (Some (Whole (set_current_window
                             (UsageWindow.mk 1699985600000 1700003600000 1000 0 0 0%Q)
                             sample_data)))
             sample_machine in
  llm_query sample_server (QueryArgs.mk "Summarise the file." None None None None) m
  = (Returns
       (ToolResult.mk
          (Message "Rate limit: 0 prompts remaining in current 5-hour window. Try again later.")
          true),
     ensured_machine (tick m)) /\
  0 = 0 /\
  calls_issued (ensured_machine (tick m)) = calls_issued m /\
  events (ensured_machine (tick m)) = events m /\
  disk (ensured_machine (tick m)) = disk m /\
  tracker_data (ensured_machine (tick m)) = Some (Whole (ensured_data (tick m))).
Proof.
  intros m.
  apply (exhausted_quota_refuses_query sample_server sample_client
           (QueryArgs.mk "Summarise the file." None None None None) m
           (ensured_machine (tick m)) 0).
  - reflexivity.
  - reflexivity.
  - reflexivity.
  - lia.
Defined.

(** Two appends in a row leave the two entries at the end of the array. *)
Lemma push_capped_twice {A} (cap : Z) (l : list A) (x y : A) :
  2 <= cap ->
  exists older, push_capped cap (push_capped cap l x) y = older ++ [x; y].
Proof.
  intros Hcap.
  rewrite (push_capped_spec cap l x) by lia.
  rewrite (drop_app_le l [x]) by (rewrite length_app; simpl; lia).
  set (l1 := drop (length (l ++ [x]) - Z.to_nat cap) l).
  rewrite (push_capped_spec cap (l1 ++ [x]) y) by lia.
  rewrite <- (app_assoc l1 [x] [y]).
  rewrite (drop_app_le l1 ([x] ++ [y])) by (rewrite !length_app; simpl; lia).
  eexists. reflexivity.
Qed.

Lemma ensured_data_log (m : Machine) :
  UsageData.recent_requests (ensured_data m) = UsageData.recent_requests (data_on_entry m).
Proof. unfold ensured_data. by destruct (expired_on_entry m). Qed.

Lemma ensured_data_runs (m : Machine) :
  UsageData.pipeline_runs (ensured_data m) = UsageData.pipeline_runs (data_on_entry m).
Proof. unfold ensured_data. by destruct (expired_on_entry m). Qed.

(** The prompt count [ensureLoaded] hands over is the one it found, or 0. *)
Lemma ensured_data_count (m : Machine) :
  UsageWindow.prompt_count (UsageData.current_window (ensured_data m))
  = UsageWindow.prompt_count (UsageData.current_window (data_on_entry m)) \/
  UsageWindow.prompt_count (UsageData.current_window (ensured_data m)) = 0.
Proof. unfold ensured_data. destruct (expired_on_entry m); [by right|by left]. Qed.

(** X10. A query that passes the quota check and is answered is
    accounted for once: one call is issued, the answer carries the text,
    the usage, the estimate for that usage and the prompts remaining less
    one, and the ledger, in memory and in the file, gets one more request:
    a query of one task with the tokens and the cost of the answer and no
    error.  The prompt count of the window grows by 1; when the window did
    not expire in the meantime, the count the answer reports is the one
    the ledger now gives.
    The call starts from an object that has its window and its daily
    totals. *)
Theorem answered_query_is_accounted_once (server : Server.t) (client : MinimaxClient.t)
    (args : QueryArgs.t) (m m1 : Machine) (remaining : Z) (data : MinimaxResponse.t) :
  whole_on_entry m ->
  Server.client server = Some client ->
  getRemainingPrompts (tick m) = (Returns remaining, m1) ->
  0 < remaining ->
  fetch m1 (calls_issued m1) (request_of_args client args) = FetchOk data ->
  disk_fault m = None ->
  let usage := default (MinimaxUsage.mk 0 0) (MinimaxResponse.usage data) in
  exists output m' data' entry,
    llm_query server args m = (Returns (ToolResult.mk (QueryJson output) false), m') /\
    QueryOutput.usage output = usage /\
    QueryOutput.cost_estimate_usd output = estimateCost usage /\
    QueryOutput.prompts_remaining output = remaining - 1 /\
    calls_issued m' = S (calls_issued m) /\
    tracker_data m' = Some (Whole data') /\
    disk m' = Document (Whole data') /\
    last (log_of data') = Some entry /\
    entry = RequestLog.mk (RequestLog.timestamp entry) type_query 1
              (MinimaxUsage.input_tokens usage) (MinimaxUsage.output_tokens usage)
              (estimateCost usage) (RequestLog.response_time_ms entry)
              (QueryArgs.caller args) None None /\
    (UsageWindow.prompt_count (UsageData.current_window data')
     = UsageWindow.prompt_count (UsageData.current_window (ensured_data (tick m))) + 1 \/
     UsageWindow.prompt_count (UsageData.current_window data') = 0 + 1) /\
    (clock m (S (clock_reads m1))
     < UsageWindow.window_end (UsageData.current_window (ensured_data (tick m))) ->
     MAX_PROMPTS_PER_WINDOW - UsageWindow.prompt_count (UsageData.current_window data')
     = QueryOutput.prompts_remaining output).
Proof.
  intros Hwhole Hclient Hrem Hpos Hfetch Hfault usage.
  pose proof (llm_query_answered server client args m m1 remaining data
                Hwhole Hclient Hrem Hpos Hfetch) as Hrun.
  cbv zeta in Hrun.
  rewrite getRemainingPrompts_spec in Hrem by (by apply whole_on_entry_tick).
  injection Hrem as Hval Hm1.
  assert (Hfault1 : disk_fault m1 = None) by (by rewrite <- Hm1).
  rewrite Hfault1 in Hrun.
  eexists _, _, _, _. split; [exact Hrun|].
  split; [reflexivity|]. split; [reflexivity|]. split; [reflexivity|].
  split; [by rewrite <- Hm1|].
  unfold recorded_machine at 1 2. simpl. rewrite Hfault1.
  split; [reflexivity|]. split; [reflexivity|].
  unfold log_of, recorded_data at 1. simpl. split.
  { by apply (push_capped_last 200). }
  split; [reflexivity|].
  assert (Hentry : data_on_entry (tick (after_call m1)) = ensured_data (tick m)).
  { rewrite <- Hm1. reflexivity. }
  split.
  - unfold recorded_data. simpl.
    destruct (ensured_data_count (tick (after_call m1))) as [Hc|Hc];
      rewrite Hc; [left; by rewrite Hentry|by right].
  - intros Hlive. unfold recorded_data. simpl.
    assert (Hsame : ensured_data (tick (after_call m1)) = ensured_data (tick m)).
    { unfold ensured_data at 1, expired_on_entry, window_on_entry. rewrite Hentry.
      assert (Hread : clock (tick (after_call m1)) (check_reading (tick (after_call m1)))
                      = clock m (S (clock_reads m1))).
      { rewrite <- Hm1. reflexivity. }
      rewrite Hread.
      destruct (Z.leb_spec (UsageWindow.window_end
                              (UsageData.current_window (ensured_data (tick m))))
                           (clock m (S (clock_reads m1)))); [lia|done]. }
    rewrite Hsame. lia.
Qed.

Lemma answered_query_is_accounted_once_witness :
  exists output m',
    llm_query sample_server (QueryArgs.mk "Summarise the file." None None None None)
              sample_ledger_machine
    = (Returns (ToolResult.mk (QueryJson output) false), m') /\
    QueryOutput.prompts_remaining output = 2 /\
    calls_issued m' = 1%nat.
Proof.
  destruct (answered_query_is_accounted_once sample_server sample_client
              (QueryArgs.mk "Summarise the file." None None None None)
              sample_ledger_machine (ensured_machine (tick sample_ledger_machine))
              3 sample_response)
    as (output & m' & data' & entry & Hrun & _ & _ & Hleft & Hcalls & _);
    [reflexivity|reflexivity|reflexivity|lia|reflexivity|reflexivity|].
  exists output, m'. split; [exact Hrun|]. split; [exact Hleft|exact Hcalls].
Defined.

(** What [llm_batch] does once the quota check lets the batch through,
    with a limit of 1 or more. *)
Lemma llm_batch_admitted (fuel : nat) (server : Server.t)
    (batchProcessor : BatchProcessor.t) (args : BatchArgs.t) (m m1 : Machine)
    (remaining : Z) :
  whole_on_entry m ->
  Server.batchProcessor server = Some batchProcessor ->
  getRemainingPrompts (tick m) = (Returns remaining, m1) ->
  Z.of_nat (length (BatchArgs.tasks args)) <= remaining ->
  1 <= default (BatchProcessor.defaultConcurrency batchProcessor) (BatchArgs.concurrency args) ->
  (length (BatchArgs.tasks args) <= fuel)%nat ->
  exists groups,
    let tasks := BatchArgs.tasks args in
    let results := batch_results batchProcessor m1 tasks in
    let summary :=
      batch_summary tasks results
        (clock m1 (S (clock_reads m1)) - clock m1 (clock_reads m1)) in
    let m3 := tick (after_batch m1 tasks groups) in
    let params :=
      batch_record summary (clock m1 (S (S (clock_reads m1))) - clock m (clock_reads m))
                   args in
    concat groups = tasks /\
    llm_batch fuel server args m
    = match disk_fault m1 with
      | None =>
          (Returns
             (ToolResult.mk
                (BatchJson
                   (BatchOutput.mk results summary
                                   (remaining - BatchSummary.succeeded summary)))
                false),
           recorded_machine params m3)
      | Some e =>
          let m4 := recorded_machine params m3 in
          (Throws e,
           recorded_machine
             (failure_record type_batch
                (clock m1 (clock_reads m4) - clock m (clock_reads m))
                (BatchArgs.caller args) (JS.error_message e))
             (tick m4))
      end.
Proof.
  intros Hwhole Hbp Hrem Hle HC Hfuel.
  destruct (processBatch_spec batchProcessor (BatchArgs.tasks args)
              (BatchArgs.concurrency args) fuel m1 HC Hfuel)
    as (groups & Hcat & _ & _ & Hrun).
  assert (Hwhole3 : whole_on_entry (tick (after_batch m1 (BatchArgs.tasks args) groups))).
  { pose proof Hrem as Hm1.
    rewrite getRemainingPrompts_spec in Hm1 by (by apply whole_on_entry_tick).
    apply pair_equal_spec in Hm1 as [_ Hm1]. rewrite <- Hm1. reflexivity. }
  exists groups. cbv zeta. split; [exact Hcat|].
  unfold llm_batch, bind at 1, Date_now at 1. rewrite Hbp.
  unfold try_catch, bind at 1. rewrite Hrem.
  destruct (Z.ltb_spec remaining (Z.of_nat (length (BatchArgs.tasks args)))) as [|_]; [lia|].
  unfold bind at 1. rewrite Hrun.
  unfold bind at 1, Date_now at 1. unfold bind at 1.
  rewrite recordRequest_spec by done.
  change (disk_fault (tick (after_batch m1 (BatchArgs.tasks args) groups)))
    with (disk_fault m1).
  destruct (disk_fault m1) as [e|] eqn:Hfault; [|reflexivity].
  unfold bind at 1, Date_now at 1. unfold bind at 1.
  rewrite recordRequest_spec by reflexivity.
  change (disk_fault (tick (recorded_machine _ _))) with (disk_fault m1).
  rewrite Hfault. reflexivity.
Qed.

(** X9. A batch that passes the quota check is accounted for once, and
    only its successes count against the quota: every task gets its
    call, the answer carries the results and the prompts remaining less
    the successes, and the ledger, in memory and in the file, gets one
    more request: a batch whose task count is the number of successes,
    with the number of failures when there is one, and no error.  When
    some prompt was left and the window did not expire in the meantime,
    the count the answer reports is the one the ledger now gives.
    The call starts from an object that has its window and its daily
    totals. *)
Theorem admitted_batch_counts_successes_only (fuel : nat) (server : Server.t)
    (batchProcessor : BatchProcessor.t) (args : BatchArgs.t) (m m1 : Machine)
    (remaining : Z) :
  whole_on_entry m ->
  Server.batchProcessor server = Some batchProcessor ->
  getRemainingPrompts (tick m) = (Returns remaining, m1) ->
  Z.of_nat (length (BatchArgs.tasks args)) <= remaining ->
  1 <= default (BatchProcessor.defaultConcurrency batchProcessor) (BatchArgs.concurrency args) ->
  (length (BatchArgs.tasks args) <= fuel)%nat ->
  disk_fault m = None ->
  exists output m' data' entry,
    let succeeded := BatchSummary.succeeded (BatchOutput.summary output) in
    let failed := BatchSummary.failed (BatchOutput.summary output) in
    llm_batch fuel server args m = (Returns (ToolResult.mk (BatchJson output) false), m') /\
    BatchOutput.results output = batch_results batchProcessor m1 (BatchArgs.tasks args) /\
    succeeded
    = Z.of_nat (length (filter (fun r => BatchResult.success r = true)
                               (BatchOutput.results output))) /\
    succeeded + failed = Z.of_nat (length (BatchArgs.tasks args)) /\
    BatchOutput.prompts_remaining output = remaining - succeeded /\
    calls_issued m' = (calls_issued m + length (BatchArgs.tasks args))%nat /\
    tracker_data m' = Some (Whole data') /\
    disk m' = Document (Whole data') /\
    last (log_of data') = Some entry /\
    RequestLog.type entry = type_batch /\
    RequestLog.task_count entry = succeeded /\
    RequestLog.failed_count entry = (if 0 <? failed then Some failed else None) /\
    RequestLog.error entry = None /\
    (UsageWindow.prompt_count (UsageData.current_window data')
     = UsageWindow.prompt_count (UsageData.current_window (ensured_data (tick m)))
       + succeeded \/
     UsageWindow.prompt_count (UsageData.current_window data') = 0 + succeeded) /\
    (0 < remaining ->
     clock m (S (S (S (clock_reads m1))))
     < UsageWindow.window_end (UsageData.current_window (ensured_data (tick m))) ->
     MAX_PROMPTS_PER_WINDOW - UsageWindow.prompt_count (UsageData.current_window data')
     = BatchOutput.prompts_remaining output).
Proof.
  intros Hwhole Hbp Hrem Hle HC Hfuel Hfault.
  destruct (llm_batch_admitted fuel server batchProcessor args m m1 remaining
              Hwhole Hbp Hrem Hle HC Hfuel) as (groups & Hcat & Hrun).
  rewrite getRemainingPrompts_spec in Hrem by (by apply whole_on_entry_tick).
  injection Hrem as Hval <-.
  set (m1 := ensured_machine (tick m)) in *.
  assert (Hfault1 : disk_fault m1 = None) by exact Hfault.
  rewrite Hfault1 in Hrun.
  set (tasks := BatchArgs.tasks args) in *.
  set (results := batch_results batchProcessor m1 tasks) in *.
  set (summary := batch_summary tasks results _) in *.
  set (m3 := tick (after_batch m1 tasks groups)) in *.
  set (params := batch_record summary _ args) in *.
  exists (BatchOutput.mk results summary (remaining - BatchSummary.succeeded summary)),
         (recorded_machine params m3), (recorded_data params m3),
         (new_request_log params (clock m3 (ensured_reads m3))).
  cbv zeta.
  change (BatchOutput.summary (BatchOutput.mk results summary _)) with summary.
  change (BatchOutput.results (BatchOutput.mk results summary _)) with results.
  change (BatchOutput.prompts_remaining (BatchOutput.mk results summary ?r)) with r.
  pose proof (length_filter (fun r => BatchResult.success r = true) results) as Hfilter.
  assert (Hlen : length results = length tasks) by apply batch_results_length.
  assert (Hsucc : BatchSummary.succeeded summary
                  = Z.of_nat (length (filter (fun r => BatchResult.success r = true) results)))
    by reflexivity.
  assert (Hfail : BatchSummary.failed summary
                  = Z.of_nat (length tasks) - BatchSummary.succeeded summary)
    by reflexivity.
  assert (Hentry : data_on_entry m3 = ensured_data (tick m)) by reflexivity.
  assert (Hcount : UsageWindow.prompt_count (UsageData.current_window (recorded_data params m3))
                   = UsageWindow.prompt_count (UsageData.current_window (ensured_data m3))
                     + BatchSummary.succeeded summary)
    by reflexivity.
  split; [exact Hrun|]. split; [reflexivity|]. split; [exact Hsucc|].
  split; [lia|]. split; [reflexivity|].
  split; [reflexivity|].
  split; [reflexivity|].
  split.
  { unfold recorded_machine. cbn [disk].
    change (disk_fault m3) with (disk_fault m1). by rewrite Hfault1. }
  split; [by apply (push_capped_last 200)|].
  split; [reflexivity|]. split; [reflexivity|]. split; [reflexivity|].
  split; [reflexivity|]. split.
  - rewrite Hcount.
    destruct (ensured_data_count m3) as [Hc|Hc]; rewrite Hc;
      [left; by rewrite Hentry|by right].
  - intros Hpos Hlive. rewrite Hcount.
    assert (Hsame : ensured_data m3 = ensured_data (tick m)).
    { unfold ensured_data at 1, expired_on_entry, window_on_entry. rewrite Hentry.
      assert (Hread : clock m3 (check_reading m3) = clock m (S (S (S (clock_reads m1)))))
        by reflexivity.
      rewrite Hread.
      destruct (Z.leb_spec (UsageWindow.window_end
                              (UsageData.current_window (ensured_data (tick m))))
                           (clock m (S (S (S (clock_reads m1)))))); [lia|done]. }
    rewrite Hsame. lia.
Qed.

Lemma admitted_batch_counts_successes_only_witness :
  exists output m',
    llm_batch 3 sample_server (BatchArgs.mk sample_tasks (Some 2) None None)
              sample_ledger_machine
    = (Returns (ToolResult.mk (BatchJson output) false), m') /\
    BatchSummary.succeeded (BatchOutput.summary output)
    + BatchSummary.failed (BatchOutput.summary output) = 3 /\
    BatchOutput.prompts_remaining output
    = 3 - BatchSummary.succeeded (BatchOutput.summary output).
Proof.
  destruct (admitted_batch_counts_successes_only 3 sample_server sample_processor
              (BatchArgs.mk sample_tasks (Some 2) None None)
              sample_ledger_machine (ensured_machine (tick sample_ledger_machine)) 3)
    as (output & m' & data' & entry & Hrun & _ & _ & Hsum & Hleft & _);
    [reflexivity|reflexivity|reflexivity|simpl; lia|simpl; lia|simpl; lia|reflexivity|].
  exists output, m'. split; [exact Hrun|]. split; [exact Hsum|exact Hleft].
Defined.

(** ** What the tools leave in the ledger *)

(** The ledger [llm_batch] leaves, along each of its paths: the one it
    found; the one the quota check left; or the one left by the record of
    the batch, followed or not by the record of a failure. *)
Lemma llm_batch_ledger_cases (fuel : nat) (server : Server.t) (args : BatchArgs.t)
    (m m' : Machine) (outcome : Outcome ToolResult.t) :
  whole_on_entry m ->
  llm_batch fuel server args m = (outcome, m') ->
  (tracker_data m' = tracker_data m /\ disk m' = disk m) \/
  (tracker_data m' = Some (Whole (ensured_data (tick m))) /\ disk m' = disk m) \/
  exists m3 summary rt,
    tracker_data m3 = Some (Whole (ensured_data (tick m))) /\
    disk m3 = disk m /\
    0 <= BatchSummary.succeeded summary <= Z.of_nat (length (BatchArgs.tasks args)) /\
    Z.of_nat (length (BatchArgs.tasks args))
    <= Z.max 0 (MAX_PROMPTS_PER_WINDOW
                - UsageWindow.prompt_count
                    (UsageData.current_window (ensured_data (tick m)))) /\
    (m' = recorded_machine (batch_record summary rt args) m3 \/
     exists rt' msg,
       m' = recorded_machine (failure_record type_batch rt' (BatchArgs.caller args) msg)
              (tick (recorded_machine (batch_record summary rt args) m3))).
Proof.
  intros Hwhole Hrun. unfold llm_batch, bind at 1, Date_now at 1 in Hrun.
  destruct (Server.batchProcessor server) as [bp|].
  2: { injection Hrun as _ <-. by left. }
  unfold try_catch, bind at 1 in Hrun.
  rewrite getRemainingPrompts_spec in Hrun by (by apply whole_on_entry_tick).
  destruct (Z.ltb_spec
              (Z.max 0 (MAX_PROMPTS_PER_WINDOW
                        - UsageWindow.prompt_count
                            (UsageData.current_window (ensured_data (tick m)))))
              (Z.of_nat (length (BatchArgs.tasks args)))) as [Hlt|Hge].
  { injection Hrun as _ <-. right. left. by split. }
  unfold bind at 1 in Hrun.
  pose proof (processBatch_frame bp (BatchArgs.tasks args) (BatchArgs.concurrency args)
                fuel (ensured_machine (tick m))) as Hframe.
  cbv zeta in Hframe.
  destruct (processBatch fuel bp (BatchArgs.tasks args) (BatchArgs.concurrency args)
              (ensured_machine (tick m))) as [[[results summary]|e|] m2] eqn:Hpb;
    cbn [fst snd] in Hframe;
    destruct Hframe as (Hthrow & _ & _ & Hdisk & Hfault & Hdata).
  - apply processBatch_returns_inv in Hpb. injection Hpb as Hresults Hsummary.
    assert (Hsucc : 0 <= BatchSummary.succeeded summary
                    <= Z.of_nat (length (BatchArgs.tasks args))).
    { rewrite Hsummary. unfold batch_summary. cbn [BatchSummary.succeeded].
      pose proof (length_filter (fun r => BatchResult.success r = true)
                    (batch_results bp (ensured_machine (tick m)) (BatchArgs.tasks args)))
        as Hfilter.
      rewrite batch_results_length in Hfilter. lia. }
    unfold bind at 1, Date_now at 1 in Hrun. unfold bind at 1 in Hrun.
    cbn [fst snd] in Hrun.
    rewrite recordRequest_spec in Hrun
      by (by apply (whole_on_entry_held (tick m2) (ensured_data (tick m)))).
    change (disk_fault (tick m2)) with (disk_fault m2) in Hrun.
    right. right.
    exists (tick m2), summary, (clock m2 (clock_reads m2) - clock m (clock_reads m)).
    split; [exact Hdata|]. split; [exact Hdisk|]. split; [exact Hsucc|].
    split; [exact Hge|].
    destruct (disk_fault m2) as [e|].
    + right. unfold bind at 1, Date_now at 1 in Hrun. unfold bind at 1 in Hrun.
      rewrite recordRequest_spec in Hrun by reflexivity.
      destruct (disk_fault (tick (recorded_machine _ _)));
        unfold ret in Hrun; injection Hrun as _ <-; eexists _, _; reflexivity.
    + left. injection Hrun as _ <-. reflexivity.
  - by destruct (Hthrow e).
  - injection Hrun as _ <-. right. left. by split.
Qed.

(** What the handler of a failure does: it reads the clock, records the
    failure, and answers with the message, unless the record cannot be
    written. *)
Lemma failure_handler_spec (type : RequestType) (startTime : Z)
    (caller : option string) (prefix : string) (err : JS.Thrown) (m : Machine) :
  whole_on_entry m ->
  (now <- Date_now ;;
   recordRequest (failure_record type (now - startTime) caller (JS.error_message err)) ;;;
   ret (ToolResult.mk (Message (prefix +:+ JS.error_message err)) true)) m
  = (match disk_fault m with
     | Some e => Throws e
     | None => Returns (ToolResult.mk (Message (prefix +:+ JS.error_message err)) true)
     end,
     recorded_machine
       (failure_record type (clock m (clock_reads m) - startTime) caller
                       (JS.error_message err))
       (tick m)).
Proof.
  intros Hwhole.
  unfold bind at 1, Date_now at 1. unfold bind at 1.
  rewrite recordRequest_spec by (by apply whole_on_entry_tick).
  change (disk_fault (tick m)) with (disk_fault m).
  by destruct (disk_fault m).
Qed.

(** The same for [llm_query]: the record is that of one task, or that of
    a failure. *)
Lemma llm_query_ledger_cases (server : Server.t) (args : QueryArgs.t)
    (m m' : Machine) (outcome : Outcome ToolResult.t) :
  whole_on_entry m ->
  llm_query server args m = (outcome, m') ->
  (tracker_data m' = tracker_data m /\ disk m' = disk m) \/
  (tracker_data m' = Some (Whole (ensured_data (tick m))) /\ disk m' = disk m) \/
  exists m3 params,
    tracker_data m3 = Some (Whole (ensured_data (tick m))) /\
    disk m3 = disk m /\
    RecordParams.pipeline params = None /\
    0 <= RecordParams.taskCount params /\
    RecordParams.taskCount params
    <= Z.max 0 (MAX_PROMPTS_PER_WINDOW
                - UsageWindow.prompt_count
                    (UsageData.current_window (ensured_data (tick m)))) /\
    (m' = recorded_machine params m3 \/
     exists rt' msg,
       m' = recorded_machine (failure_record type_query rt' (QueryArgs.caller args) msg)
              (tick (recorded_machine params m3))).
Proof.
  intros Hwhole Hrun. unfold llm_query, bind at 1, Date_now at 1 in Hrun.
  destruct (Server.client server) as [client|].
  2: { injection Hrun as _ <-. by left. }
  unfold try_catch, bind at 1 in Hrun.
  rewrite getRemainingPrompts_spec in Hrun by (by apply whole_on_entry_tick).
  destruct (Z.leb_spec
              (Z.max 0 (MAX_PROMPTS_PER_WINDOW
                        - UsageWindow.prompt_count
                            (UsageData.current_window (ensured_data (tick m)))))
              0) as [Hle|Hgt].
  { injection Hrun as _ <-. right. left. by split. }
  unfold bind at 1, query at 1 in Hrun.
  right. right. exists (tick (after_call (ensured_machine (tick m)))).
  destruct (query_settle client _) as [e|result].
  - unfold bind at 1, Date_now at 1 in Hrun. unfold bind at 1 in Hrun.
    rewrite recordRequest_spec in Hrun by reflexivity.
    eexists (failure_record type_query _ (QueryArgs.caller args) (JS.error_message e)).
    split; [reflexivity|]. split; [reflexivity|].
    split; [reflexivity|]. split; [cbn [RecordParams.taskCount failure_record]; lia|].
    split; [cbn [RecordParams.taskCount failure_record]; lia|].
    left. destruct (disk_fault _); injection Hrun as _ <-; reflexivity.
  - unfold bind at 1, Date_now at 1 in Hrun. unfold bind at 1 in Hrun.
    rewrite recordRequest_spec in Hrun by reflexivity.
    eexists (RecordParams.mk type_query 1 _ _ _ _ (QueryArgs.caller args) None None None).
    split; [reflexivity|]. split; [reflexivity|].
    split; [reflexivity|]. split; [cbn [RecordParams.taskCount failure_record]; lia|].
    split; [cbn [RecordParams.taskCount failure_record]; lia|].
    destruct (disk_fault (tick _)) as [e|].
    + right. cbv beta iota zeta in Hrun.
      rewrite failure_handler_spec in Hrun by reflexivity.
      injection Hrun as _ <-. eexists _, _. reflexivity.
    + left. injection Hrun as _ <-. reflexivity.
Qed.

(** *** The quota *)

Lemma whole_on_entry_quota (m : Machine) : quota_kept m -> whole_on_entry m.
Proof.
  intros [Hdata Hdisk]. unfold whole_on_entry, data_on_entry, object_on_entry.
  destruct (tracker_data m) as [obj|].
  - by destruct (Hdata obj eq_refl) as (data & -> & _).
  - destruct (disk m) as [e|e|e|obj]; try done.
    by destruct (Hdisk obj eq_refl) as (doc & -> & _).
Qed.

Lemma within_quota_on_entry (m : Machine) :
  quota_kept m -> within_quota (data_on_entry m).
Proof.
  intros [Hdata Hdisk]. unfold data_on_entry, object_on_entry.
  destruct (tracker_data m) as [obj|].
  - by destruct (Hdata obj eq_refl) as (data & -> & Hquota).
  - destruct (disk m) as [e|e|e|obj];
      try (unfold within_quota, MAX_PROMPTS_PER_WINDOW; simpl; lia).
    destruct (Hdisk obj eq_refl) as (doc & -> & Hquota). by destruct doc.
Qed.

Lemma within_quota_ensured (m : Machine) :
  quota_kept m -> within_quota (ensured_data m).
Proof.
  intros Hm. apply within_quota_on_entry in Hm. unfold ensured_data.
  destruct (expired_on_entry m); [|done].
  unfold within_quota, MAX_PROMPTS_PER_WINDOW. simpl. lia.
Qed.

(** A record keeps the quota when its task count is not negative and
    fits into what the window has left. *)
Lemma recorded_machine_quota (params : RecordParams.t) (m : Machine) :
  quota_kept m ->
  0 <= RecordParams.taskCount params ->
  UsageWindow.prompt_count (UsageData.current_window (data_on_entry m))
  + RecordParams.taskCount params <= MAX_PROMPTS_PER_WINDOW ->
  quota_kept (recorded_machine params m).
Proof.
  intros Hm Hnn Hfits.
  pose proof (within_quota_on_entry m Hm) as Hentry.
  assert (Hnew : within_quota (recorded_data params m)).
  { unfold within_quota in *. unfold recorded_data. simpl.
    destruct (ensured_data_count m) as [Hc|Hc]; rewrite Hc; lia. }
  split.
  - intros obj [= <-]. by eexists.
  - unfold recorded_machine. simpl. destruct (disk_fault m).
    + apply Hm.
    + intros obj [= <-]. by eexists.
Qed.

Lemma quota_kept_same_ledger (m m' : Machine) :
  tracker_data m' = tracker_data m -> disk m' = disk m -> quota_kept m -> quota_kept m'.
Proof. intros Hdata Hdisk [H1 H2]. unfold quota_kept. by rewrite Hdata, Hdisk. Qed.

Lemma quota_kept_ensured (m m' : Machine) :
  tracker_data m' = Some (Whole (ensured_data m)) -> disk m' = disk m ->
  quota_kept m -> quota_kept m'.
Proof.
  intros Hdata Hdisk Hm. split.
  - rewrite Hdata. intros obj [= <-]. eexists. split; [reflexivity|].
    by apply within_quota_ensured.
  - rewrite Hdisk. apply Hm.
Qed.

(** The ledger after a record made where the quota check left it, and
    after the record of a failure that may follow. *)
Lemma quota_kept_after_records (m m3 m' : Machine) (params failure : RecordParams.t) :
  quota_kept m ->
  tracker_data m3 = Some (Whole (ensured_data m)) ->
  disk m3 = disk m ->
  0 <= RecordParams.taskCount params ->
  RecordParams.taskCount params
  <= Z.max 0 (MAX_PROMPTS_PER_WINDOW
              - UsageWindow.prompt_count (UsageData.current_window (ensured_data m))) ->
  RecordParams.taskCount failure = 0 ->
  m' = recorded_machine params m3 \/
  m' = recorded_machine failure (tick (recorded_machine params m3)) ->
  quota_kept m'.
Proof.
  intros Hm Hdata Hdisk Hnn Hfits Hzero Hcases.
  pose proof (within_quota_ensured m Hm) as Hwithin. unfold within_quota in Hwithin.
  assert (Hfirst : quota_kept (recorded_machine params m3)).
  { apply recorded_machine_quota; [by apply (quota_kept_ensured m)|done|].
    unfold data_on_entry, object_on_entry. rewrite Hdata. lia. }
  destruct Hcases as [->| ->]; [done|].
  apply recorded_machine_quota.
  - by apply (quota_kept_same_ledger (recorded_machine params m3)).
  - lia.
  - rewrite Hzero.
    pose proof (within_quota_on_entry _ Hfirst) as Hw. unfold within_quota in Hw.
    change (data_on_entry (tick (recorded_machine params m3)))
      with (data_on_entry (recorded_machine params m3)). lia.
Qed.

(** X11. The tools keep the window within the quota.  Where the tracker
    and the file hold ledgers, with their window and their daily totals,
    whose prompt count is between 0 and 1000, every run of [llm_query] and
    of [llm_batch], taken one at a time, ends with such ledgers in the
    tracker and in the file, whatever happens on the way: refusal, failed
    exchanges, an expired window, a usage file that cannot be written, a
    batch that does not return. *)
Theorem tools_keep_the_quota (server : Server.t) (m : Machine) :
  quota_kept m ->
  (forall args, quota_kept (snd (llm_query server args m))) /\
  (forall fuel args, quota_kept (snd (llm_batch fuel server args m))).
Proof.
  intros Hm. pose proof (whole_on_entry_quota m Hm) as Hwhole.
  assert (Htick : quota_kept (tick m)) by (by apply (quota_kept_same_ledger m)).
  split.
  - intros args.
    destruct (llm_query server args m) as [outcome m'] eqn:Hrun. cbn [snd].
    destruct (llm_query_ledger_cases _ _ _ _ _ Hwhole Hrun)
      as [[Hdata Hdisk]|[[Hdata Hdisk]|(m3 & params & Hdata & Hdisk & _ & Hnn & Hfits & Hcases)]].
    + by apply (quota_kept_same_ledger m).
    + by apply (quota_kept_ensured (tick m)).
    + destruct Hcases as [->|(rt' & msg & ->)].
      * apply (quota_kept_after_records (tick m) m3 _ params
                 (failure_record type_query 0 None EmptyString)); try done.
        by left.
      * apply (quota_kept_after_records (tick m) m3 _ params
                 (failure_record type_query rt' (QueryArgs.caller args) msg)); try done.
        by right.
  - intros fuel args.
    destruct (llm_batch fuel server args m) as [outcome m'] eqn:Hrun. cbn [snd].
    destruct (llm_batch_ledger_cases _ _ _ _ _ _ Hwhole Hrun)
      as [[Hdata Hdisk]|[[Hdata Hdisk]|(m3 & summary & rt & Hdata & Hdisk & Hsucc & Hfits & Hcases)]].
    + by apply (quota_kept_same_ledger m).
    + by apply (quota_kept_ensured (tick m)).
    + destruct Hcases as [->|(rt' & msg & ->)].
      * apply (quota_kept_after_records (tick m) m3 _ (batch_record summary rt args)
                 (failure_record type_batch 0 None EmptyString)); try done;
          try (simpl; lia). by left.
      * apply (quota_kept_after_records (tick m) m3 _ (batch_record summary rt args)
                 (failure_record type_batch rt' (BatchArgs.caller args) msg)); try done;
          try (simpl; lia). by right.
Qed.

Lemma tools_keep_the_quota_witness :
  quota_kept sample_ledger_machine /\
  (forall args, quota_kept (snd (llm_query sample_server args sample_ledger_machine))) /\
  (forall fuel args,
     quota_kept (snd (llm_batch fuel sample_server args sample_ledger_machine))).
Proof.
  assert (Hkept : quota_kept sample_ledger_machine).
  { split.
    - intros obj [= <-]. exists sample_data. split; [reflexivity|].
      change (0 <= 997 <= 1000). lia.
    - intros obj [=]. }
  split; [exact Hkept|].
  apply (tools_keep_the_quota sample_server sample_ledger_machine Hkept).
Defined.

(** *** The pipeline runs *)

Lemma push_capped_elem_of {A} (cap : Z) (l : list A) (x y : A) :
  0 < cap -> y ∈ push_capped cap l x -> y ∈ l \/ y = x.
Proof.
  intros Hcap Hy. rewrite push_capped_spec in Hy by done.
  assert (Hin : y ∈ l ++ [x]) by (eapply elem_of_sublist; [exact Hy|apply sublist_drop]).
  apply elem_of_app in Hin as [Hin|Hin]; [by left|right].
  by apply list_elem_of_singleton in Hin.
Qed.

Lemma runs_on_entry_same_ledger (m m' : Machine) :
  tracker_data m' = tracker_data m -> disk m' = disk m ->
  runs_of (data_on_entry m') = runs_of (data_on_entry m).
Proof.
  intros Hdata Hdisk. unfold data_on_entry, object_on_entry. rewrite Hdata, Hdisk.
  destruct (tracker_data m) as [obj|]; [by destruct obj|].
  destruct (disk m) as [e|e|e|obj]; try done. by destruct obj.
Qed.

Lemma runs_on_entry_ensured (m m' : Machine) :
  tracker_data m' = Some (Whole (ensured_data m)) ->
  runs_of (data_on_entry m') = runs_of (data_on_entry m).
Proof.
  intros Hdata. unfold data_on_entry at 1, object_on_entry. rewrite Hdata.
  unfold runs_of. by rewrite ensured_data_runs.
Qed.

(** A record without a pipeline leaves the runs as they were. *)
Lemma recorded_runs_none (params : RecordParams.t) (m : Machine) :
  RecordParams.pipeline params = None ->
  runs_of (recorded_data params m) = runs_of (data_on_entry m).
Proof.
  intros Hnone. unfold runs_of, recorded_data. cbn [UsageData.pipeline_runs].
  unfold runs_after. rewrite Hnone. by rewrite ensured_data_runs.
Qed.

(** A record without an error adds no run, or a completed one. *)
Lemma recorded_runs_status (params : RecordParams.t) (m : Machine) (run : PipelineRun.t) :
  RecordParams.error params = None ->
  run ∈ runs_of (recorded_data params m) ->
  run ∈ runs_of (data_on_entry m) \/ PipelineRun.status run = status_completed.
Proof.
  intros Hnone Hrun. unfold runs_of, recorded_data in Hrun.
  cbn [UsageData.pipeline_runs] in Hrun. unfold runs_after in Hrun.
  rewrite ensured_data_runs in Hrun.
  destruct (RecordParams.pipeline params) as [pipeline|]; [|by left].
  destruct (JS.truthy_opt (RecordParams.caller params)); [|by left].
  cbn [default] in Hrun. apply push_capped_elem_of in Hrun as [Hold| ->]; [by left| |lia].
  right. unfold new_run. cbn [PipelineRun.status]. by rewrite Hnone.
Qed.

(** X12. The tools never record a failed run.  [llm_query] leaves the
    pipeline runs of the ledger as they were, and every run the ledger
    holds after [llm_batch] was there before or is completed: a batch is
    recorded with its pipeline and without an error, a failure with an
    error and without a pipeline.  The ledger is one that has its window
    and its daily totals. *)
Theorem tools_record_only_completed_runs (server : Server.t) (m : Machine) :
  whole_on_entry m ->
  (forall args,
     runs_of (data_on_entry (snd (llm_query server args m)))
     = runs_of (data_on_entry m)) /\
  (forall fuel args run,
     run ∈ runs_of (data_on_entry (snd (llm_batch fuel server args m))) ->
     run ∈ runs_of (data_on_entry m) \/ PipelineRun.status run = status_completed).
Proof.
  intros Hwhole.
  assert (Htick : runs_of (data_on_entry (tick m)) = runs_of (data_on_entry m))
    by (by apply runs_on_entry_same_ledger).
  split.
  - intros args.
    destruct (llm_query server args m) as [outcome m'] eqn:Hrun. cbn [snd].
    destruct (llm_query_ledger_cases _ _ _ _ _ Hwhole Hrun)
      as [[Hdata Hdisk]|[[Hdata Hdisk]|(m3 & params & Hdata & Hdisk & Hnone & _ & _ & Hcases)]].
    + by apply runs_on_entry_same_ledger.
    + by rewrite (runs_on_entry_ensured (tick m)).
    + assert (Hfirst : runs_of (data_on_entry (recorded_machine params m3))
                       = runs_of (data_on_entry m)).
      { change (data_on_entry (recorded_machine params m3)) with (recorded_data params m3).
        rewrite recorded_runs_none by done.
        by rewrite (runs_on_entry_ensured (tick m)). }
      destruct Hcases as [->|(rt' & msg & ->)]; [done|].
      change (data_on_entry (recorded_machine ?p ?x)) with (recorded_data p x).
      rewrite recorded_runs_none by done.
      change (data_on_entry (tick (recorded_machine params m3)))
        with (data_on_entry (recorded_machine params m3)).
      exact Hfirst.
  - intros fuel args run.
    destruct (llm_batch fuel server args m) as [outcome m'] eqn:Hrun. cbn [snd].
    destruct (llm_batch_ledger_cases _ _ _ _ _ _ Hwhole Hrun)
      as [[Hdata Hdisk]|[[Hdata Hdisk]|(m3 & summary & rt & Hdata & Hdisk & _ & _ & Hcases)]].
    + rewrite (runs_on_entry_same_ledger m) by done. by left.
    + rewrite (runs_on_entry_ensured (tick m)) by done. rewrite Htick. by left.
    + assert (Hfirst : run ∈ runs_of (data_on_entry (recorded_machine
                                                       (batch_record summary rt args) m3)) ->
                       run ∈ runs_of (data_on_entry m)
                       \/ PipelineRun.status run = status_completed).
      { change (data_on_entry (recorded_machine ?p ?x)) with (recorded_data p x).
        intros Hin. apply recorded_runs_status in Hin; [|done].
        by rewrite (runs_on_entry_ensured (tick m)), Htick in Hin. }
      destruct Hcases as [->|(rt' & msg & ->)]; [done|].
      change (data_on_entry (recorded_machine ?p ?x)) with (recorded_data p x).
      rewrite recorded_runs_none by done.
      exact Hfirst.
Qed.

Lemma tools_record_only_completed_runs_witness :
  (forall args,
     runs_of (data_on_entry (snd (llm_query sample_server args sample_ledger_machine)))
     = runs_of (data_on_entry sample_ledger_machine)) /\
  (forall fuel args run,
     run ∈ runs_of (data_on_entry
                      (snd (llm_batch fuel sample_server args sample_ledger_machine))) ->
     run ∈ runs_of (data_on_entry sample_ledger_machine)
     \/ PipelineRun.status run = status_completed).
Proof.
  apply (tools_record_only_completed_runs sample_server sample_ledger_machine).
  reflexivity.
Defined.

(** *** An answer that cannot be recorded *)

(** X13. When the usage file cannot be written, a query that passed the
    quota check and was answered is rejected with what the write threw:
    the answer is lost.  The call was issued, the file is as it was, and
    the ledger in memory ends with two entries for the one query: a query
    of one task with the tokens and the cost of the answer and no error,
    then a query of no task with the error of the write.  When the window
    the quota check left is still open at the check of each of the two
    records, the prompt stays counted: the prompt count is the one the
    quota check left plus 1.
    The call starts from an object that has its window and its daily
    totals. *)
Theorem unrecorded_answer_is_rejected (server : Server.t) (client : MinimaxClient.t)
    (args : QueryArgs.t) (m m1 : Machine) (remaining : Z) (data : MinimaxResponse.t)
    (e : JS.Thrown) :
  whole_on_entry m ->
  Server.client server = Some client ->
  getRemainingPrompts (tick m) = (Returns remaining, m1) ->
  0 < remaining ->
  fetch m1 (calls_issued m1) (request_of_args client args) = FetchOk data ->
  disk_fault m = Some e ->
  let usage := default (MinimaxUsage.mk 0 0) (MinimaxResponse.usage data) in
  let w := UsageData.current_window (ensured_data (tick m)) in
  exists m' data' older first second,
    llm_query server args m = (Throws e, m') /\
    calls_issued m' = S (calls_issued m) /\
    disk m' = disk m /\
    tracker_data m' = Some (Whole data') /\
    log_of data' = older ++ [first; second] /\
    first = RequestLog.mk (RequestLog.timestamp first) type_query 1
              (MinimaxUsage.input_tokens usage) (MinimaxUsage.output_tokens usage)
              (estimateCost usage) (RequestLog.response_time_ms first)
              (QueryArgs.caller args) None None /\
    second = RequestLog.mk (RequestLog.timestamp second) type_query 0 0 0 0%Q
               (RequestLog.response_time_ms second) (QueryArgs.caller args)
               (truncate_error (Some (JS.error_message e))) None /\
    (UsageWindow.prompt_count (UsageData.current_window data')
     = UsageWindow.prompt_count w + 1 \/
     UsageWindow.prompt_count (UsageData.current_window data') = 1 \/
     UsageWindow.prompt_count (UsageData.current_window data') = 0) /\
    (clock m (S (clock_reads m1)) < UsageWindow.window_end w ->
     clock m (5 + clock_reads m1) < UsageWindow.window_end w ->
     UsageWindow.prompt_count (UsageData.current_window data')
     = UsageWindow.prompt_count w + 1 /\
     MAX_PROMPTS_PER_WINDOW - UsageWindow.prompt_count (UsageData.current_window data')
     = remaining - 1).
Proof.
  intros Hwhole Hclient Hrem Hpos Hfetch Hfault usage w.
  pose proof (llm_query_answered server client args m m1 remaining data
                Hwhole Hclient Hrem Hpos Hfetch) as Hrun.
  cbv zeta in Hrun.
  rewrite getRemainingPrompts_spec in Hrem by (by apply whole_on_entry_tick).
  injection Hrem as Hval Hm1. fold w in Hval.
  assert (Hfault1 : disk_fault m1 = Some e) by (by rewrite <- Hm1).
  rewrite Hfault1 in Hrun.
  set (params := success_record _ _ _) in Hrun.
  set (m3 := tick (after_call m1)) in Hrun.
  set (m4 := recorded_machine params m3) in Hrun.
  set (failure := failure_record _ _ _ _) in Hrun.
  destruct (push_capped_twice 200
              (default [] (UsageData.recent_requests (ensured_data m3)))
              (new_request_log params (clock m3 (ensured_reads m3)))
              (new_request_log failure (clock (tick m4) (ensured_reads (tick m4)))))
    as [older Holder]; [lia|].
  exists (recorded_machine failure (tick m4)), (recorded_data failure (tick m4)), older.
  eexists _, _. split; [exact Hrun|].
  split.
  { change (S (calls_issued m1) = S (calls_issued m)). by rewrite <- Hm1. }
  split.
  { change (disk (recorded_machine failure (tick m4)))
      with (match disk_fault m1 with
            | Some _ => match disk_fault m1 with
                        | Some _ => disk m1
                        | None => Document (Whole (recorded_data params m3))
                        end
            | None => Document (Whole (recorded_data failure (tick m4)))
            end).
    rewrite Hfault1. by rewrite <- Hm1. }
  split; [reflexivity|].
  split.
  { unfold log_of, recorded_data at 1. cbn [UsageData.recent_requests default].
    rewrite ensured_data_log.
    change (UsageData.recent_requests (data_on_entry (tick m4)))
      with (Some (push_capped 200
                    (default [] (UsageData.recent_requests (ensured_data m3)))
                    (new_request_log params (clock m3 (ensured_reads m3))))).
    cbn [default]. exact Holder. }
  split; [reflexivity|]. split; [reflexivity|].
  assert (Hentry : data_on_entry m3 = ensured_data (tick m)).
  { unfold m3. rewrite <- Hm1. reflexivity. }
  assert (Hfirst : UsageWindow.prompt_count
                     (UsageData.current_window (data_on_entry (tick m4)))
                   = UsageWindow.prompt_count (UsageData.current_window (ensured_data m3))
                     + 1) by reflexivity.
  change (UsageWindow.prompt_count
            (UsageData.current_window (recorded_data failure (tick m4))))
    with (UsageWindow.prompt_count (UsageData.current_window (ensured_data (tick m4)))
          + 0).
  split.
  { destruct (ensured_data_count (tick m4)) as [Hc|Hc]; rewrite Hc; [|right; right; lia].
    rewrite Hfirst.
    destruct (ensured_data_count m3) as [Hc3|Hc3]; rewrite Hc3;
      [left; rewrite Hentry; fold w; lia|right; left; lia]. }
  intros Hlive1 Hlive2.
  assert (Hread3 : clock m3 (check_reading m3) = clock m (S (clock_reads m1))).
  { unfold m3. rewrite <- Hm1. reflexivity. }
  assert (Hopen3 : expired_on_entry m3 = false).
  { unfold expired_on_entry, window_on_entry. rewrite Hentry, Hread3. fold w.
    apply Z.leb_gt. lia. }
  assert (Hsame3 : ensured_data m3 = ensured_data (tick m)).
  { unfold ensured_data at 1. by rewrite Hopen3. }
  assert (Hreads3 : ensured_reads m3 = S (S (clock_reads m1))).
  { unfold ensured_reads. rewrite Hopen3. unfold m3. rewrite <- Hm1. reflexivity. }
  assert (Hopen4 : expired_on_entry (tick m4) = false).
  { unfold expired_on_entry, window_on_entry.
    change (UsageWindow.window_end (UsageData.current_window (data_on_entry (tick m4))))
      with (UsageWindow.window_end (UsageData.current_window (ensured_data m3))).
    change (clock (tick m4) (check_reading (tick m4)))
      with (clock m1 (S (S (S (ensured_reads m3))))).
    rewrite Hsame3, Hreads3. fold w. apply Z.leb_gt.
    replace (clock m1) with (clock m) by (by rewrite <- Hm1). exact Hlive2. }
  assert (Hcount : UsageWindow.prompt_count
                     (UsageData.current_window (ensured_data (tick m4)))
                   = UsageWindow.prompt_count w + 1).
  { unfold ensured_data at 1. rewrite Hopen4, Hfirst, Hsame3. reflexivity. }
  rewrite Hcount. split; lia.
Qed.

Lemma unrecorded_answer_is_rejected_witness :
  let m := mkMachine (clock sample_machine) 0 (fetch sample_machine) 0
                     (completion sample_machine) [] (disk sample_machine)
                     (Some (JS.ErrorObject "EACCES: permission denied"))
                     (Some (Whole sample_data)) in
  exists m' data' older first second,
    llm_query sample_server (QueryArgs.mk "Summarise the file." None None None None) m
    = (Throws (JS.ErrorObject "EACCES: permission denied"), m') /\
    tracker_data m' = Some (Whole data') /\
    log_of data' = older ++ [first; second] /\
    RequestLog.task_count first = 1 /\
    RequestLog.task_count second = 0 /\
    RequestLog.error second = Some "EACCES: permission denied" /\
    UsageWindow.prompt_count (UsageData.current_window data') = 997 + 1.
Proof.
  intros m.
  destruct (unrecorded_answer_is_rejected sample_server sample_client
              (QueryArgs.mk "Summarise the file." None None None None)
              m (ensured_machine (tick m)) 3 sample_response
              (JS.ErrorObject "EACCES: permission denied"))
    as (m' & data' & older & first & second & Hrun & _ & _ & Hdata & Hlog & Hone
        & Hzero & _ & Hcount);
    [reflexivity|reflexivity|reflexivity|lia|reflexivity|reflexivity|].
  exists m', data', older, first, second.
  split; [exact Hrun|]. split; [exact Hdata|]. split; [exact Hlog|].
  split; [by rewrite Hone|]. split; [by rewrite Hzero|]. split; [by rewrite Hzero|].
  apply Hcount; vm_compute; reflexivity.
Defined.

(** *** A query that fails *)

(** X14. A query whose exchange fails costs no prompt.  When the quota
    check lets the query through and the exchange with the remote model
    fails, by a network failure, a malformed body or a response that is
    not 2xx, the tool answers with an error that carries the message of
    the failure, and the
    ledger, in memory and in the file, gets one more request: a query of
    no task, no tokens and no cost, with the message as its error.  The
    prompt count of the window does not grow; when the window did not
    expire in the meantime, the prompts remaining are those the quota
    check found.
    The call starts from an object that has its window and its daily
    totals. *)
Theorem failed_query_costs_no_prompt (server : Server.t) (client : MinimaxClient.t)
    (args : QueryArgs.t) (m m1 : Machine) (remaining : Z) (e : JS.Thrown) :
  whole_on_entry m ->
  Server.client server = Some client ->
  getRemainingPrompts (tick m) = (Returns remaining, m1) ->
  0 < remaining ->
  query_settle client (fetch m1 (calls_issued m1) (request_of_args client args)) = inl e ->
  disk_fault m = None ->
  exists m' data' entry,
    llm_query server args m
    = (Returns (ToolResult.mk (Message ("MiniMax API error: " +:+ JS.error_message e)) true),
       m') /\
    calls_issued m' = S (calls_issued m) /\
    tracker_data m' = Some (Whole data') /\
    disk m' = Document (Whole data') /\
    last (log_of data') = Some entry /\
    entry = RequestLog.mk (RequestLog.timestamp entry) type_query 0 0 0 0%Q
              (RequestLog.response_time_ms entry) (QueryArgs.caller args)
              (truncate_error (Some (JS.error_message e))) None /\
    (UsageWindow.prompt_count (UsageData.current_window data')
     = UsageWindow.prompt_count (UsageData.current_window (ensured_data (tick m))) \/
     UsageWindow.prompt_count (UsageData.current_window data') = 0) /\
    (clock m (S (clock_reads m1))
     < UsageWindow.window_end (UsageData.current_window (ensured_data (tick m))) ->
     MAX_PROMPTS_PER_WINDOW - UsageWindow.prompt_count (UsageData.current_window data')
     = remaining).
Proof.
  intros Hwhole Hclient Hrem Hpos Hfails Hfault.
  assert (Hquery : query client (QueryArgs.prompt args)
                     (Some (QueryOptions.mk (QueryArgs.system args) (QueryArgs.max_tokens args)
                                            (QueryArgs.temperature args))) m1
                   = (Throws e, after_call m1)).
  { unfold query. unfold request_of_args in Hfails. by rewrite Hfails. }
  pose proof (llm_query_records_failure server client args m m1 (after_call m1) remaining e
                Hwhole Hclient Hrem Hpos Hquery) as Hrun.
  cbv zeta in Hrun.
  rewrite getRemainingPrompts_spec in Hrem by (by apply whole_on_entry_tick).
  injection Hrem as Hval Hm1.
  assert (Hfault1 : disk_fault m1 = None) by (by rewrite <- Hm1).
  change (disk_fault (after_call m1)) with (disk_fault m1) in Hrun.
  rewrite Hfault1 in Hrun.
  eexists _, _, _. split; [exact Hrun|].
  split.
  { change (S (calls_issued m1) = S (calls_issued m)). by rewrite <- Hm1. }
  unfold recorded_machine at 1 2. cbn [tracker_data disk].
  change (disk_fault (tick (after_call m1))) with (disk_fault m1). rewrite Hfault1.
  split; [reflexivity|]. split; [reflexivity|].
  unfold log_of, recorded_data at 1. cbn [UsageData.recent_requests default]. split.
  { by apply (push_capped_last 200). }
  split; [reflexivity|].
  assert (Hentry : data_on_entry (tick (after_call m1)) = ensured_data (tick m)).
  { rewrite <- Hm1. reflexivity. }
  change (UsageWindow.prompt_count (UsageData.current_window (recorded_data ?p ?x)))
    with (UsageWindow.prompt_count (UsageData.current_window (ensured_data x)) + 0).
  split.
  - destruct (ensured_data_count (tick (after_call m1))) as [Hc|Hc];
      rewrite Hc; [left; rewrite Hentry; lia|right; lia].
  - intros Hlive.
    assert (Hsame : ensured_data (tick (after_call m1)) = ensured_data (tick m)).
    { unfold ensured_data at 1, expired_on_entry, window_on_entry. rewrite Hentry.
      assert (Hread : clock (tick (after_call m1)) (check_reading (tick (after_call m1)))
                      = clock m (S (clock_reads m1))).
      { rewrite <- Hm1. reflexivity. }
      rewrite Hread.
      destruct (Z.leb_spec (UsageWindow.window_end
                              (UsageData.current_window (ensured_data (tick m))))
                           (clock m (S (clock_reads m1)))); [lia|done]. }
    rewrite Hsame. lia.
Qed.

Lemma failed_query_costs_no_prompt_witness :
  let m := with_calls 1 [] sample_ledger_machine in
  exists m' data',
    llm_query sample_server (QueryArgs.mk "Summarise the file." None None None None) m
    = (Returns
         (ToolResult.mk
            (Message "MiniMax API error: MiniMax API error 500: overloaded") true),
       m') /\
    tracker_data m' = Some (Whole data') /\
    MAX_PROMPTS_PER_WINDOW - UsageWindow.prompt_count (UsageData.current_window data') = 3.
Proof.
  intros m.
  destruct (failed_query_costs_no_prompt sample_server sample_client
              (QueryArgs.mk "Summarise the file." None None None None)
              m (ensured_machine (tick m)) 3
              (JS.ErrorObject "MiniMax API error 500: overloaded"))
    as (m' & data' & entry & Hrun & _ & Hdata & _ & _ & _ & _ & Hleft);
    [reflexivity|reflexivity|reflexivity|lia|reflexivity|reflexivity|].
  exists m', data'. split; [exact Hrun|]. split; [exact Hdata|].
  apply Hleft. vm_compute. reflexivity.
Defined.

(** *** The file once the tracker holds the ledger *)

(** X15. Once the tracker holds the ledger it does not read the usage
    file again.  Whatever the file has come to hold, unreadable, not JSON
    or another ledger, a quota check returns what it would have returned,
    and a record that can be written returns the same and leaves the same
    ledger in memory and in the file: the file is overwritten from
    memory. *)
Theorem loaded_tracker_ignores_the_file (params : RecordParams.t) (m : Machine)
    (content : FileContent) (data : UsageData.t) :
  tracker_data m = Some (Whole data) ->
  fst (getRemainingPrompts (with_disk content m)) = fst (getRemainingPrompts m) /\
  (disk_fault m = None ->
   recordRequest params (with_disk content m) = recordRequest params m).
Proof.
  intros Hdata.
  assert (Hwhole : whole_on_entry m) by (by apply (whole_on_entry_held m data)).
  assert (Hwhole' : whole_on_entry (with_disk content m))
    by (by apply (whole_on_entry_held _ data)).
  assert (Hentry : data_on_entry (with_disk content m) = data_on_entry m).
  { unfold data_on_entry, object_on_entry. cbn [tracker_data with_disk].
    by rewrite Hdata. }
  assert (Hcheck : check_reading (with_disk content m) = check_reading m).
  { unfold check_reading. cbn [tracker_data clock_reads with_disk]. by rewrite Hdata. }
  assert (Hexpired : expired_on_entry (with_disk content m) = expired_on_entry m).
  { unfold expired_on_entry, window_on_entry. by rewrite Hentry, Hcheck. }
  assert (Hensured : ensured_data (with_disk content m) = ensured_data m).
  { unfold ensured_data. by rewrite Hexpired, Hentry, Hcheck. }
  assert (Hreads : ensured_reads (with_disk content m) = ensured_reads m).
  { unfold ensured_reads. by rewrite Hexpired, Hcheck. }
  split.
  - rewrite !getRemainingPrompts_spec by done. cbn [fst]. by rewrite Hensured.
  - intros Hfault. rewrite !recordRequest_spec by done.
    assert (Hrecorded : recorded_data params (with_disk content m) = recorded_data params m).
    { unfold recorded_data. by rewrite Hensured, Hreads. }
    unfold recorded_machine. rewrite Hrecorded, Hreads.
    cbn [disk_fault with_disk]. by rewrite Hfault.
Qed.

Lemma loaded_tracker_ignores_the_file_witness :
  let content := Unparseable (JS.ErrorObject "Unexpected end of JSON input") in
  fst (getRemainingPrompts (with_disk content sample_ledger_machine))
  = fst (getRemainingPrompts sample_ledger_machine) /\
  recordRequest sample_failure (with_disk content sample_ledger_machine)
  = recordRequest sample_failure sample_ledger_machine.
Proof.
  intros content.
  destruct (loaded_tracker_ignores_the_file sample_failure sample_ledger_machine content
              sample_data) as [Hcheck Hrecord]; [reflexivity|].
  split; [exact Hcheck|]. apply Hrecord. reflexivity.
Defined.

(** ** Objects that lack a field *)

Lemma has_window_tick (m : Machine) :
  has_window (object_on_entry (tick m)) = has_window (object_on_entry m).
Proof.
  unfold object_on_entry.
  change (tracker_data (tick m)) with (tracker_data m).
  change (disk (tick m)) with (disk m).
  destruct (tracker_data m); [done|]. by destruct (disk m).
Qed.

Lemma object_on_entry_stuck (m : Machine) :
  object_on_entry (stuck_machine m) = object_on_entry m.
Proof. reflexivity. Qed.

Lemma getRemainingPrompts_windowless (m : Machine) :
  has_window (object_on_entry m) = false ->
  getRemainingPrompts m = (Throws (type_error "window_end"), stuck_machine m).
Proof.
  intros Hnone. unfold getRemainingPrompts, bind. by rewrite ensureLoaded_windowless.
Qed.

Lemma recordRequest_windowless (params : RecordParams.t) (m : Machine) :
  has_window (object_on_entry m) = false ->
  recordRequest params m = (Throws (type_error "window_end"), stuck_machine m).
Proof.
  intros Hnone. unfold recordRequest, bind at 1. by rewrite ensureLoaded_windowless.
Qed.

(** X16. An object without [current_window], in the tracker or else in
    the usage file, stops every call into the tracker: a quota check and
    a record throw the [TypeError] of reading [window_end] of
    [undefined], the file is left as it is, and the tracker holds the
    object, so that every later call throws as well.  Both tools then
    reject with that error, without a call to the remote model: the
    handler of the failure records it, and the record throws again. *)
Theorem windowless_object_stops_the_tracker (m : Machine) (params : RecordParams.t) :
  has_window (object_on_entry m) = false ->
  let e := type_error "window_end" in
  exists m1,
    getRemainingPrompts m = (Throws e, m1) /\
    recordRequest params m = (Throws e, m1) /\
    disk m1 = disk m /\
    tracker_data m1 = Some (object_on_entry m) /\
    has_window (object_on_entry m1) = false /\
    (forall server client args,
       Server.client server = Some client ->
       exists m',
         llm_query server args m = (Throws e, m') /\
         calls_issued m' = calls_issued m /\
         disk m' = disk m /\
         has_window (object_on_entry m') = false) /\
    (forall fuel server batchProcessor args,
       Server.batchProcessor server = Some batchProcessor ->
       exists m',
         llm_batch fuel server args m = (Throws e, m') /\
         calls_issued m' = calls_issued m /\
         disk m' = disk m /\
         has_window (object_on_entry m') = false).
Proof.
  intros Hnone e. exists (stuck_machine m).
  split; [by apply getRemainingPrompts_windowless|].
  split; [by apply recordRequest_windowless|].
  split; [reflexivity|]. split; [reflexivity|]. split; [exact Hnone|].
  assert (Htick : has_window (object_on_entry (tick m)) = false)
    by (by rewrite has_window_tick).
  assert (Hstuck : has_window (object_on_entry (tick (stuck_machine (tick m)))) = false)
    by (by rewrite has_window_tick).
  split.
  - intros server client args Hclient.
    exists (stuck_machine (tick (stuck_machine (tick m)))).
    split; [|by repeat split].
    unfold llm_query, bind at 1, Date_now at 1. rewrite Hclient.
    unfold try_catch, bind at 1. rewrite getRemainingPrompts_windowless by done.
    unfold bind at 1, Date_now at 1. unfold bind at 1.
    by rewrite recordRequest_windowless.
  - intros fuel server batchProcessor args Hbp.
    exists (stuck_machine (tick (stuck_machine (tick m)))).
    split; [|by repeat split].
    unfold llm_batch, bind at 1, Date_now at 1. rewrite Hbp.
    unfold try_catch, bind at 1. rewrite getRemainingPrompts_windowless by done.
    unfold bind at 1, Date_now at 1. unfold bind at 1.
    by rewrite recordRequest_windowless.
Qed.

Lemma windowless_object_stops_the_tracker_witness :
  let m := with_disk (Document (NoWindow None None None None)) sample_machine in
  let e := JS.ErrorObject "Cannot read properties of undefined (reading 'window_end')" in
  exists m1 m',
    getRemainingPrompts m = (Throws e, m1) /\
    recordRequest sample_failure m = (Throws e, m1) /\
    tracker_data m1 = Some (NoWindow None (Some []) None (Some default_provider)) /\
    llm_query sample_server (QueryArgs.mk "Summarise the file." None None None None) m
    = (Throws e, m') /\
    calls_issued m' = 0%nat.
Proof.
  intros m e.
  destruct (windowless_object_stops_the_tracker m sample_failure)
    as (m1 & Hcheck & Hrecord & _ & Hheld & _ & Hquery & _); [reflexivity|].
  destruct (Hquery sample_server sample_client
              (QueryArgs.mk "Summarise the file." None None None None))
    as (m' & Hrun & Hcalls & _); [reflexivity|].
  exists m1, m'. split; [exact Hcheck|]. split; [exact Hrecord|].
  split; [exact Hheld|]. split; [exact Hrun|exact Hcalls].
Defined.

(** The check of the window of an object that has its window and lacks
    its daily totals. *)
Lemma ensureLoaded_without_totals (m : Machine) (w : UsageWindow.t)
    (requests : option (list RequestLog.t)) (runs : option (list PipelineRun.t))
    (provider : option Provider.t) :
  object_on_entry m = NoTotals w requests runs provider ->
  let expired := UsageWindow.window_end w <=? clock m (check_reading m) in
  let w1 := if expired then fresh_window (clock m (S (check_reading m))) else w in
  let r := if expired then S (S (check_reading m)) else S (check_reading m) in
  ensureLoaded m
  = (Returns (NoTotals w1 requests runs provider),
     mkMachine (clock m) r (fetch m) (calls_issued m) (completion m) (events m)
               (disk m) (disk_fault m) (Some (NoTotals w1 requests runs provider))).
Proof.
  unfold object_on_entry, check_reading. intros Hobj.
  unfold ensureLoaded, bind at 1, get_machine.
  destruct m as [clk reads fch calls compl evs dsk fault [obj|]]; simpl in *.
  - subst obj. unfold bind, ret, isWindowExpired, bind, Date_now. simpl.
    destruct (_ <=? _); reflexivity.
  - unfold bind at 1. unfold bind at 1. rewrite loadUsageData_spec. simpl.
    destruct dsk as [e|e|e|doc]; simpl in *; try discriminate Hobj.
    rewrite Hobj. unfold bind, ret, isWindowExpired, bind, Date_now. simpl.
    destruct (_ <=? _); reflexivity.
Qed.

(** X17. An object that has its window and lacks [daily_totals] passes
    the quota check, and makes every record throw once the request is
    already counted: the log and the window of the object the tracker
    holds are updated, the [TypeError] of reading [find] of [undefined]
    is thrown where the daily totals are looked up, and the usage file is
    not written. *)
Theorem record_without_daily_totals (m : Machine) (params : RecordParams.t)
    (w : UsageWindow.t) (requests : option (list RequestLog.t))
    (runs : option (list PipelineRun.t)) (provider : option Provider.t) :
  object_on_entry m = NoTotals w requests runs provider ->
  let expired := UsageWindow.window_end w <=? clock m (check_reading m) in
  let w1 := if expired then fresh_window (clock m (S (check_reading m))) else w in
  let r := if expired then S (S (check_reading m)) else S (check_reading m) in
  exists m1 m2,
    getRemainingPrompts m
    = (Returns (Z.max 0 (MAX_PROMPTS_PER_WINDOW - UsageWindow.prompt_count w1)), m1) /\
    tracker_data m1 = Some (NoTotals w1 requests runs provider) /\
    disk m1 = disk m /\
    recordRequest params m = (Throws (type_error "find"), m2) /\
    disk m2 = disk m /\
    tracker_data m2
    = Some (NoTotals (add_to_window params w1)
                     (Some (push_capped 200 (default [] requests)
                                        (new_request_log params (clock m r))))
                     runs provider).
Proof.
  intros Hobj expired w1 r.
  pose proof (ensureLoaded_without_totals m w requests runs provider Hobj) as Hensure.
  cbv zeta in Hensure. fold expired in Hensure. fold w1 r in Hensure.
  eexists _, _. split.
  { unfold getRemainingPrompts, bind at 1. rewrite Hensure. reflexivity. }
  split; [reflexivity|]. split; [reflexivity|].
  split.
  { unfold recordRequest, bind at 1. rewrite Hensure. reflexivity. }
  split; reflexivity.
Qed.

Lemma record_without_daily_totals_witness :
  let w := UsageWindow.mk 1699985600000 1700003600000 997 52000 9100 0%Q in
  let m := with_disk (Document (NoTotals w None None None)) sample_machine in
  exists m1 m2 log,
    getRemainingPrompts m = (Returns 3, m1) /\
    recordRequest sample_failure m
    = (Throws (JS.ErrorObject "Cannot read properties of undefined (reading 'find')"), m2) /\
    disk m2 = disk m /\
    tracker_data m2
    = Some (NoTotals (add_to_window sample_failure w) (Some [log]) None
                     (Some default_provider)).
Proof.
  intros w m.
  destruct (record_without_daily_totals m sample_failure w (Some []) None
              (Some default_provider))
    as (m1 & m2 & Hcheck & _ & _ & Hrecord & Hdisk & Hheld); [reflexivity|].
  exists m1, m2. eexists.
  split; [exact Hcheck|]. split; [exact Hrecord|]. split; [exact Hdisk|exact Hheld].
Defined.
